(** * Watch-service control plane of the marketplace parsers

    A shallow embedding of the control plane shared by [Drom.py],
    [autoru.py] and [youla.py]: the sqlite-backed [Storage], the URL
    sanitizers, the [ParserService] polling task with its start/stop
    life cycle, the Telegram command handlers and the expiry watchdog.

    External collaborators are explicit inputs of the model:
    - the wall clock is an argument ([now], [today]) of every operation
      that reads it; instants are seconds as [Z] (microseconds for the
      countdown of the status text, which depends on them), dates are
      day ordinals (calendar dates where a date is built);
    - [datetime.isoformat] / [datetime.fromisoformat] are the two fields of
      the class [DateTimeLib];
    - Selenium ([collect_ads], [fetch_ad_details_sync]), the Telegram bot
      ([send_photo], [send_message]) and the arrival of the stop signal
      during an awaited wait are read from a per-iteration environment
      record, and every call made to them is appended to an event log;
    - the way the polling task ends while [stop] waits for it, and the
      place where a cancellation meets it, are arguments as well.

    sqlite statements are total in the model (the code lets a failing
    statement propagate as an exception). *)

From Stdlib Require Import ZArith Ascii String List Bool Lia.
From stdpp Require Import base option list gmap strings pretty.

Local Open Scope string_scope.
Local Open Scope list_scope.
Local Open Scope Z_scope.

(** ** Python string primitives, on code points below 256 *)

Module Py.

(** Truth value of an [Optional[str]]: [None] and the empty string are
    falsy. *)
Definition truthy (o : option string) : bool :=
  match o with
  | None => false
  | Some s => negb (String.eqb s "")
  end.

(** [str.isspace] on one character: TAB..CR, FS..US, SPACE, NEL, NBSP. *)
Definition isspace (c : ascii) : bool :=
  let n := N_of_ascii c in
  (((9 <=? n) && (n <=? 13)) || ((28 <=? n) && (n <=? 32))
   || (n =? 133) || (n =? 160))%N.

Fixpoint lstrip (s : string) : string :=
  match s with
  | EmptyString => EmptyString
  | String c r => if isspace c then lstrip r else s
  end.

(** Right strip: a character is dropped when it is white space and all
    that follows it has been dropped. *)
Fixpoint rstrip (s : string) : string :=
  match s with
  | EmptyString => EmptyString
  | String c r =>
      match rstrip r with
      | EmptyString => if isspace c then EmptyString else String c EmptyString
      | r' => String c r'
      end
  end.

(** [str.strip()] with no argument. *)
Definition strip (s : string) : string := rstrip (lstrip s).

(** [str.lower] on one character: A-Z and the Latin-1 capitals
    (all of 0xC0..0xDE but the multiplication sign) move up by 32. *)
Definition lower_char (c : ascii) : ascii :=
  let n := N_of_ascii c in
  if (((65 <=? n) && (n <=? 90))
      || ((192 <=? n) && (n <=? 222) && negb (n =? 215)))%N
  then ascii_of_N (n + 32)%N else c.

Fixpoint lower (s : string) : string :=
  match s with
  | EmptyString => EmptyString
  | String c r => String (lower_char c) (lower r)
  end.

(** [s.startswith(p)]. *)
Definition startswith (s p : string) : bool := String.prefix p s.

(** [re.search(r"[...]", s)] for a character class given as a
    predicate: does some character of [s] belong to the class? *)
Fixpoint search_class (cls : ascii -> bool) (s : string) : bool :=
  match s with
  | EmptyString => false
  | String c r => cls c || search_class cls r
  end.

(** [len(s)]. *)
Definition len (s : string) : Z := Z.of_nat (String.length s).

End Py.

(** ** Constants and keys (identical in the three files) *)

Definition KEY_EXPIRY_AT    : string := "expiry_at".
Definition KEY_EXPIRED_LOCK : string := "expired_lock".
Definition KEY_WATCH_URL    : string := "watch_url".
Definition KEY_CHAT_ID      : string := "chat_id".
Definition KEY_PROXY        : string := "proxy".
Definition KEY_CHROMEDRIVER : string := "chromedriver_path".
Definition KEY_PROFILE_PATH : string := "profile_path".

Definition BTN_TOGGLE  : string := "toggle".
Definition BTN_SET_URL : string := "set_url".

(** The class [[;'\\]] of the sanitizers: semicolon, apostrophe,
    backslash. *)
Definition forbidden_char (c : ascii) : bool :=
  let n := N_of_ascii c in ((n =? 59) || (n =? 39) || (n =? 92))%N.

(** [sanitize_url_drom] of Drom.py. *)
Definition sanitize_url_drom (url : string) : option string :=
  if negb (Py.truthy (Some url)) then None else
  let url := Py.strip url in
  if (2000 <? Py.len url)%Z then None else
  let low := Py.lower url in
  if negb (Py.startswith low "https://auto.drom.ru"
           || Py.startswith low "https://www.drom.ru"
           || Py.startswith low "https://drom.ru") then None else
  if Py.search_class forbidden_char url then None else
  Some url.

(** [sanitize_url_auto] of autoru.py. *)
Definition sanitize_url_auto (url : string) : option string :=
  if negb (Py.truthy (Some url)) then None else
  let url := Py.strip url in
  if (2000 <? Py.len url)%Z then None else
  let low := Py.lower url in
  if negb (Py.startswith low "https://auto.ru"
           || Py.startswith low "https://www.auto.ru") then None else
  if Py.search_class forbidden_char url then None else
  Some url.

(** [sanitize_url_youla] of youla.py. *)
Definition sanitize_url_youla (url : string) : option string :=
  if negb (Py.truthy (Some url)) then None else
  let url := Py.strip url in
  if (2000 <? Py.len url)%Z then None else
  let low := Py.lower url in
  if negb (Py.startswith low "https://youla.ru"
           || Py.startswith low "https://www.youla.ru") then None else
  if Py.search_class forbidden_char url then None else
  Some url.

(** ** The datetime library

    [isoformat] prints an instant, [fromisoformat] parses one and answers
    [None] where Python raises [ValueError]. *)
Class DateTimeLib := {
  isoformat : Z -> string;
  fromisoformat : string -> option Z
}.

(** ** Storage (the sqlite database) *)

(** One candidate as built by [collect_ads]: a dict with the keys
    id, title, href, price, city and (Drom, youla) image. *)
Record ad := mk_ad {
  ad_id : string;
  ad_title : string;
  ad_href : string;
  ad_price : string;
  ad_city : string;
  ad_image : string
}.

(** One row of the table [ads], keyed by [ad_id]. *)
Record ad_row := mk_ad_row {
  row_title : string;
  row_price : string;
  row_href : string;
  row_city : string;
  row_created_at : Z
}.

(** The three tables: [settings(key PRIMARY KEY, value)],
    [ads(ad_id PRIMARY KEY, ...)] and [urls(url UNIQUE, added_at)]. *)
Record Storage := mk_storage {
  tbl_settings : gmap string string;
  tbl_ads : gmap string ad_row;
  tbl_urls : gmap string Z
}.

(** [Storage(path)] on a fresh database file. *)
Definition empty_storage : Storage :=
  {| tbl_settings := ∅; tbl_ads := ∅; tbl_urls := ∅ |}.

(** INSERT ... ON CONFLICT(key) DO UPDATE SET value=excluded.value *)
Definition set_kv (key value : string) (st : Storage) : Storage :=
  {| tbl_settings := <[key := value]> (tbl_settings st);
     tbl_ads := tbl_ads st;
     tbl_urls := tbl_urls st |}.

Definition get_kv (key : string) (st : Storage) : option string :=
  tbl_settings st !! key.

Definition del_kv (key : string) (st : Storage) : Storage :=
  {| tbl_settings := delete key (tbl_settings st);
     tbl_ads := tbl_ads st;
     tbl_urls := tbl_urls st |}.

Definition SECONDS_PER_DAY : Z := 86400.

Definition ensure_expiry_once `{DateTimeLib} (now days : Z) (st : Storage)
  : Storage :=
  if Py.truthy (get_kv KEY_EXPIRY_AT st) then st else
  let expiry := isoformat (now + days * SECONDS_PER_DAY) in
  set_kv KEY_EXPIRED_LOCK "false" (set_kv KEY_EXPIRY_AT expiry st).

Definition get_expiry `{DateTimeLib} (st : Storage) : option Z :=
  match get_kv KEY_EXPIRY_AT st with
  | None => None
  | Some raw => if String.eqb raw "" then None else fromisoformat raw
  end.

Definition is_locked (st : Storage) : bool :=
  bool_decide (get_kv KEY_EXPIRED_LOCK st = Some "true").

Definition lock_forever (st : Storage) : Storage :=
  set_kv KEY_EXPIRED_LOCK "true" st.

Definition get_watch_url (st : Storage) : option string :=
  get_kv KEY_WATCH_URL st.

(** SELECT 1 FROM ads WHERE ad_id=? ... fetchone() is None *)
Definition is_new_ad (id : string) (st : Storage) : bool :=
  match tbl_ads st !! id with
  | None => true
  | Some _ => false
  end.

(** INSERT OR IGNORE INTO ads(...) *)
Definition save_ad (now : Z) (a : ad) (st : Storage) : Storage :=
  match tbl_ads st !! ad_id a with
  | Some _ => st
  | None =>
      {| tbl_settings := tbl_settings st;
         tbl_ads := <[ad_id a :=
                       {| row_title := ad_title a; row_price := ad_price a;
                          row_href := ad_href a; row_city := ad_city a;
                          row_created_at := now |}]> (tbl_ads st);
         tbl_urls := tbl_urls st |}
  end.

(** INSERT OR IGNORE INTO urls(url,added_at) *)
Definition insert_url (now : Z) (url : string) (st : Storage) : Storage :=
  match tbl_urls st !! url with
  | Some _ => st
  | None =>
      {| tbl_settings := tbl_settings st;
         tbl_ads := tbl_ads st;
         tbl_urls := <[url := now]> (tbl_urls st) |}
  end.

(** [Storage.set_watch_url], generic in the sanitizer of the file and in
    whether the file keeps the [urls] table (Drom and youla do, autoru
    does not). The empty string the sanitizer never returns is falsy
    too, as in [if not s]. *)
Definition set_watch_url_with (sanitize : string -> option string)
    (keep_urls : bool) (reject_msg : string)
    (now : Z) (url : string) (st : Storage) : Storage * (bool * string) :=
  let s := sanitize url in
  match s with
  | None => (st, (false, reject_msg))
  | Some s' =>
      if String.eqb s' "" then (st, (false, reject_msg)) else
      let st1 := set_kv KEY_WATCH_URL s' st in
      let st2 := if keep_urls then insert_url now s' st1 else st1 in
      (st2, (true, "URL установлен"))
  end.

(** ** ParserService: the task handle and the stop event

    [asyncio.Task] and [asyncio.Event] objects live in two arrays of the
    world, indexed by creation order; the service holds indices. A task
    cell is [true] once [Task.done()], an event cell is [true] once
    [Event.is_set()]. *)

Record ParserService := mk_service {
  interval : Z;
  _task : option nat;
  _stop_event : option nat
}.

(** [ParserService.__init__] of Drom.py and youla.py clamps the interval;
    autoru.py reads [cfg.interval] as it is. *)
Definition new_service_clamped (interval : Z) : ParserService :=
  {| interval := Z.max 2 interval; _task := None; _stop_event := None |}.

Definition new_service_cfg (interval : Z) : ParserService :=
  {| interval := interval; _task := None; _stop_event := None |}.

Record World := mk_world {
  store : Storage;
  svc : ParserService;
  tasks : list bool;
  events : list bool;
  user_mode : option string   (* context.user_data["mode"] *)
}.

Definition with_store (st : Storage) (w : World) : World :=
  {| store := st; svc := svc w; tasks := tasks w; events := events w;
     user_mode := user_mode w |}.

Definition with_mode (m : option string) (w : World) : World :=
  {| store := store w; svc := svc w; tasks := tasks w; events := events w;
     user_mode := m |}.

(** [Task.done()] of the task with index [t]. *)
Definition task_done (w : World) (t : nat) : bool :=
  default true (tasks w !! t).

Definition is_running (w : World) : bool :=
  match _task (svc w) with
  | None => false
  | Some t => negb (task_done w t)
  end.

(** Number of created tasks that are not done. *)
Definition live_tasks (w : World) : nat :=
  length (filter (fun d => d = false) (tasks w)).

Definition start (w : World) : World :=
  if is_running w then w else
  {| store := store w;
     svc := {| interval := interval (svc w);
               _task := Some (length (tasks w));
               _stop_event := Some (length (events w)) |};
     tasks := tasks w ++ [false];
     events := events w ++ [false];
     user_mode := user_mode w |}.

(** [asyncio.wait_for(task, timeout)] on a task that is not done and
    needs [d] more seconds to finish ([None]: it does not finish): the
    answer says whether the wait timed out and how long it lasted. A
    timeout that is not positive expires at once. Time is the event
    loop's: its timers are taken to fire when they are due. *)
Definition wait_for (d : option Z) (timeout : Z) : bool * Z :=
  match d with
  | Some t => if (0 <? timeout) && (t <=? timeout) then (false, Z.max 0 t)
              else (true, Z.max 0 timeout)
  | None => (true, Z.max 0 timeout)
  end.

Definition FIXED_GRACE : Z := 5.

(** [ParserService.stop]: the world after the call, whether the bounded
    wait timed out, and the seconds spent in it. [start] is the only
    writer of [_stop_event] and [_task] and sets both, so the event is
    there whenever the service runs. In both outcomes of the wait the
    task ends: it returns by itself, or [wait_for] cancels it on timeout
    (asyncio's behaviour); the service forgets the handle either way. *)
Definition stop (d : option Z) (w : World) : World * (bool * Z) :=
  if negb (is_running w) then (w, (false, 0)) else
  let events1 :=
    match _stop_event (svc w) with
    | Some e => <[e := true]> (events w)
    | None => events w
    end in
  let r := wait_for d (interval (svc w) + FIXED_GRACE) in
  let tasks1 :=
    match _task (svc w) with
    | Some t => <[t := true]> (tasks w)
    | None => tasks w
    end in
  ({| store := store w;
      svc := {| interval := interval (svc w);
                _task := None; _stop_event := None |};
      tasks := tasks1;
      events := events1;
      user_mode := user_mode w |}, r).

(** The polling task ends on its own (its loop is left or fails). *)
Definition task_ends (w : World) : World :=
  match _task (svc w) with
  | Some t =>
      {| store := store w; svc := svc w; tasks := <[t := true]> (tasks w);
         events := events w; user_mode := user_mode w |}
  | None => w
  end.

(** [cfg] fields read by the handlers. *)
Record Config := mk_config {
  cfg_days : Z;
  cfg_proxy : option string;
  cfg_chromedriver_path : option string;
  cfg_profile_path : option string
}.

(** ** The event log of the polling task

    Every call that leaves the process is logged in program order; the
    flag of a bot call tells whether it returned ([true]) or raised. *)
Inductive event :=
| EvNotice (chat_id : option string) (text : string) (ok : bool)
| EvWait (timeout : Z) (signalled : bool)
| EvCollect (url : option string)
| EvFetchDetails (id : string)
| EvDispatch (chat_id : option string) (id : string)   (* call of _send_ad *)
| EvSendPhoto (id : string) (ok : bool)
| EvSendMessage (id : string) (ok : bool)
| EvSaveAd (id : string)
| EvPrint (line : string).

Definition is_dispatch_of (id : string) (e : event) : bool :=
  match e with
  | EvDispatch _ id' => String.eqb id id'
  | _ => false
  end.

(** The ids handed to [_send_ad], in order. *)
Fixpoint dispatched (log : list event) : list string :=
  match log with
  | [] => []
  | EvDispatch _ id :: log' => id :: dispatched log'
  | _ :: log' => dispatched log'
  end.

Definition dispatch_count (id : string) (log : list event) : nat :=
  length (filter (fun e => is_dispatch_of id e = true) log).

(** How one pass through the body of [while not stop_event.is_set()]
    ends: at its end or at a [continue] ([BodyNext], with the state of
    the stop event), or by an exception that leaves the loop. *)
Inductive body_end :=
| BodyNext (stop_set : bool)
| BodyRaised.

(** State of the task when the model stops following it. *)
Inductive task_status :=
| TaskAlive      (* still inside the loop, the script of ticks is used up *)
| TaskReturned   (* the while condition saw the stop event *)
| TaskFailed.    (* an exception left the loop and was printed by the handler around it *)

Record run_result := mk_run {
  run_store : Storage;
  run_log : list event;
  run_status : task_status
}.

(** The loop [while not stop_event.is_set(): body] inside
    [try: ... except Exception as e: print("[ERROR] parser loop")], over a
    script with one entry per pass. The three files differ in the body
    only. *)
Fixpoint while_not_stopped {Env : Type}
    (body : Env -> Storage -> Storage * list event * body_end)
    (envs : list Env) (stop_set : bool) (st : Storage) (log : list event)
  : run_result :=
  if stop_set then mk_run st log TaskReturned else
  match envs with
  | [] => mk_run st log TaskAlive
  | env :: envs' =>
      match body env st with
      | (st', evs, BodyNext stop') =>
          while_not_stopped body envs' stop' st' (log ++ evs)
      | (st', evs, BodyRaised) =>
          mk_run st' (log ++ evs ++ [EvPrint "[ERROR] parser loop"]) TaskFailed
      end
  end.

(** ** Drom.py *)

Module Drom.

Definition set_watch_url
  : Z -> string -> Storage -> Storage * (bool * string) :=
  set_watch_url_with sanitize_url_drom true
    "Недопустимый URL (только https://auto.drom.ru/ ... )".

(** What the outside world does during one pass of the loop. *)
Record tick_env := mk_tick {
  te_now : Z;                        (* datetime.now() of save_ad *)
  te_collect : option (list ad);     (* collect_ads: returns, or raises (None) *)
  te_photo_ok : ad -> bool;          (* bot.send_photo returns / raises *)
  te_message_ok : ad -> bool;        (* bot.send_message returns / raises *)
  te_idle_signal : bool;             (* stop() arrives during the idle wait *)
  te_sleep_signal : bool             (* stop() arrives before the inter-tick wait ends *)
}.

(** [_send_ad]: photo first when the ad has an image, text as fall-back;
    both failures are caught inside, so the call always returns. *)
Definition _send_ad (env : tick_env) (a : ad) : list event :=
  let text :=
    if te_message_ok env a then [EvSendMessage (ad_id a) true]
    else [EvSendMessage (ad_id a) false; EvPrint "[WARN] send_message failed"] in
  if Py.truthy (Some (ad_image a)) then
    if te_photo_ok env a then [EvSendPhoto (ad_id a) true]
    else [EvSendPhoto (ad_id a) false;
          EvPrint "[WARN] send_photo failed; fallback to text"] ++ text
  else text.

(** Body of [for ad in reversed(ads)]. *)
Definition process_ad (env : tick_env) (chat_id : option string)
    (acc : Storage * list event) (a : ad) : Storage * list event :=
  let '(st, log) := acc in
  if is_new_ad (ad_id a) st then
    (save_ad (te_now env) a st,
     log ++ [EvDispatch chat_id (ad_id a)] ++ _send_ad env a ++ [EvSaveAd (ad_id a)])
  else (st, log).

Definition process_ads (env : tick_env) (chat_id : option string)
    (ads : list ad) (acc : Storage * list event) : Storage * list event :=
  fold_left (process_ad env chat_id) (rev ads) acc.

(** One pass through the body of the while loop. [interval] is
    [self.interval]. *)
Definition loop_body (interval : Z) (env : tick_env) (st : Storage)
  : Storage * list event * body_end :=
  let url := get_kv KEY_WATCH_URL st in
  let chat_id := get_kv KEY_CHAT_ID st in
  let idle := negb (Py.truthy url) || negb (Py.truthy chat_id) in
  if idle && negb (te_idle_signal env) then
    (* wait_for raised TimeoutError: continue *)
    (st, [EvWait interval false], BodyNext false)
  else
    (* configured, or the idle wait returned because the event was set *)
    let log0 := if idle then [EvWait interval true] else [] in
    let stop0 := idle in
    match te_collect env with
    | None => (st, log0 ++ [EvCollect url], BodyRaised)
    | Some ads =>
        let '(st1, log1) :=
          process_ads env chat_id ads (st, log0 ++ [EvCollect url]) in
        let signalled := stop0 || te_sleep_signal env in
        (st1, log1 ++ [EvWait interval signalled], BodyNext signalled)
    end.

(** The while loop of [_run]. *)
Definition loop (interval : Z)
  : list tick_env -> bool -> Storage -> list event -> run_result :=
  while_not_stopped (loop_body interval).

(** What the outside world does during one life of the task. *)
Record run_env := mk_run_env {
  re_start_ok : bool;          (* the start notice is delivered *)
  re_stop_early : bool;        (* stop() arrives before the loop is entered *)
  re_ticks : list tick_env
}.

(** [ParserService._run]. *)
Definition _run (interval : Z) (env : run_env) (st : Storage) : run_result :=
  let log0 :=
    match get_kv KEY_CHAT_ID st with
    | Some c =>
        if String.eqb c "" then [] else
        if re_start_ok env then [EvNotice (Some c) "Парсер Drom запущен" true]
        else [EvNotice (Some c) "Парсер Drom запущен" false;
              EvPrint "[WARN] notify start failed"]
    | None => []
    end in
  loop interval (re_ticks env) (re_stop_early env) st log0.

(** The service's life: the task is started again and again on the
    same database. Every pass of a life runs to its end here: the task
    leaves its loop, fails, or is cancelled in one of its waits. (A task
    cancelled inside [_send_ad] is followed by [run_life] below.) *)
Fixpoint lifetime (interval : Z) (runs : list run_env) (st : Storage)
  : Storage * list event :=
  match runs with
  | [] => (st, [])
  | r :: runs' =>
      let res := _run interval r st in
      let '(st', log') := lifetime interval runs' (run_store res) in
      (st', run_log res ++ log')
  end.

(** *** Handlers and watchdog (the same text in the three files, up to
    the sanitizer behind [set_watch_url]) *)

(** What a handler answers to the user. *)
Inductive reply :=
| ReplyMenu (running : bool)              (* status text and keyboard *)
| ReplyExpiredForever                     (* restart forbidden forever *)
| ReplyExpiredNoControl                   (* control unavailable *)
| ReplyNeedUrl
| ReplyNeedChat
| ReplyStopped
| ReplyStarted
| ReplyAskUrl
| ReplyUrlResult (ok : bool) (msg : string)
| NoReply.

(** The test [expiry and now >= expiry]. The stored expiry is the
    [isoformat] of an aware datetime and [now] is aware, so the two are
    instants on one time line. *)
Definition expired `{DateTimeLib} (now : Z) (st : Storage) : bool :=
  match get_expiry st with
  | Some expiry => expiry <=? now
  | None => false
  end.

Definition bind_chat (chat_id : string) (st : Storage) : Storage :=
  if negb (Py.truthy (get_kv KEY_CHAT_ID st))
  then set_kv KEY_CHAT_ID chat_id st else st.

Definition show_menu (chat_id : string) (w : World) : World * reply :=
  let w1 := with_store (bind_chat chat_id (store w)) w in
  (w1, ReplyMenu (is_running w1)).

Definition start_cmd : string -> World -> World * reply := show_menu.

Definition set_if (key : string) (v : option string) (st : Storage) : Storage :=
  match v with
  | Some s => if String.eqb s "" then st else set_kv key s st
  | None => st
  end.

(** [menu_button]; [d] is the time the polling task needs to end once
    signalled, should the handler call [svc.stop()]. *)
Definition menu_button `{DateTimeLib} (cfg : Config) (data : string)
    (now : Z) (d : option Z) (w : World) : World * reply :=
  let locked := is_locked (store w) in
  let running := is_running w in
  let is_expired := expired now (store w) in
  if String.eqb data BTN_TOGGLE then
    if locked || is_expired then
      let w1 := if running then fst (stop d w) else w in
      let w2 := if negb locked
                then with_store (lock_forever (store w1)) w1 else w1 in
      (w2, ReplyExpiredForever)
    else if negb (Py.truthy (get_watch_url (store w))) then (w, ReplyNeedUrl)
    else if negb (Py.truthy (get_kv KEY_CHAT_ID (store w))) then (w, ReplyNeedChat)
    else if running then (fst (stop d w), ReplyStopped)
    else
      let st1 := set_if KEY_PROXY (cfg_proxy cfg) (store w) in
      let st2 := set_if KEY_CHROMEDRIVER (cfg_chromedriver_path cfg) st1 in
      let st3 := set_if KEY_PROFILE_PATH (cfg_profile_path cfg) st2 in
      (start (with_store st3 w), ReplyStarted)
  else if String.eqb data BTN_SET_URL then
    if locked || is_expired then (w, ReplyExpiredNoControl)
    else (with_mode (Some BTN_SET_URL) w, ReplyAskUrl)
  else (w, NoReply).

Definition text_message `{DateTimeLib} (chat_id text : string) (now : Z)
    (w : World) : World * reply :=
  let mode := user_mode w in
  let text_in := Py.strip text in
  if is_locked (store w) || expired now (store w)
  then (w, ReplyExpiredNoControl) else
  let st1 := bind_chat chat_id (store w) in
  if bool_decide (mode = Some BTN_SET_URL) then
    let '(st2, (ok, msg)) := set_watch_url now text_in st1 in
    (with_mode None (with_store st2 w), ReplyUrlResult ok msg)
  else show_menu chat_id (with_store st1 w).

(** [expiry_job]: the worlds the watchdog passes through, one per
    effect, in order (empty when the guard is false). *)
Definition expiry_job_trace `{DateTimeLib} (now : Z) (d : option Z)
    (w : World) : list World :=
  if negb (is_locked (store w)) && expired now (store w) then
    let w1 := if is_running w then fst (stop d w) else w in
    let w2 := with_store (lock_forever (store w1)) w1 in
    [w1; w2]
  else [].

Definition expiry_job `{DateTimeLib} (now : Z) (d : option Z) (w : World)
  : World :=
  List.last (expiry_job_trace now d w) w.

(** [main] up to [run_polling]: the store is opened, the expiry is
    ensured, the service is built. *)
Definition main `{DateTimeLib} (cfg : Config) (cfg_interval now : Z)
    (st : Storage) : World :=
  {| store := ensure_expiry_once now (cfg_days cfg) st;
     svc := new_service_clamped cfg_interval;
     tasks := []; events := []; user_mode := None |}.

(** *** Everything that can happen to the world after start-up *)
Inductive op :=
| OpLockForever
| OpEnsureExpiryOnce (now days : Z)
| OpSetWatchUrl (now : Z) (url : string)
| OpShowMenu (chat_id : string)
| OpMenuButton (data : string) (now : Z) (d : option Z)
| OpTextMessage (chat_id text : string) (now : Z)
| OpExpiryJob (now : Z) (d : option Z)
| OpStart
| OpStop (d : option Z)
| OpTaskEnds
| OpTick (env : tick_env).

Definition apply_op `{DateTimeLib} (cfg : Config) (w : World) (o : op)
  : World :=
  match o with
  | OpLockForever => with_store (lock_forever (store w)) w
  | OpEnsureExpiryOnce now days =>
      with_store (ensure_expiry_once now days (store w)) w
  | OpSetWatchUrl now url =>
      with_store (fst (set_watch_url now url (store w))) w
  | OpShowMenu chat_id => fst (show_menu chat_id w)
  | OpMenuButton data now d => fst (menu_button cfg data now d w)
  | OpTextMessage chat_id text now => fst (text_message chat_id text now w)
  | OpExpiryJob now d => expiry_job now d w
  | OpStart => start w
  | OpStop d => fst (stop d w)
  | OpTaskEnds => task_ends w
  | OpTick env =>
      with_store (fst (fst (loop_body (interval (svc w)) env (store w)))) w
  end.

Definition run_ops `{DateTimeLib} (cfg : Config) (ops : list op)
    (w : World) : World :=
  fold_left (apply_op cfg) ops w.

End Drom.

(** ** youla.py

    [ParserService] of youla.py has the text of Drom.py's, but for the
    arguments handed to [collect_ads] and the wording of the start
    notice. *)

Module Youla.

Definition set_watch_url
  : Z -> string -> Storage -> Storage * (bool * string) :=
  set_watch_url_with sanitize_url_youla true
    "Недопустимый URL (только https://youla.ru/ ... )".

Definition tick_env := Drom.tick_env.
Definition _send_ad := Drom._send_ad.
Definition process_ads := Drom.process_ads.
Definition loop_body := Drom.loop_body.
Definition loop := Drom.loop.

End Youla.

(** ** autoru.py *)

Module Autoru.

Definition set_watch_url
  : Z -> string -> Storage -> Storage * (bool * string) :=
  set_watch_url_with sanitize_url_auto false
    "Недопустимый URL (только https://auto.ru/ ... )".

(** The fields of [Config] read by the service. *)
Record Config := mk_config {
  cfg_interval : Z;
  fresh_days : Z;
  send_screenshot : bool;
  warmup_runs : Z;
  warmup_delay : Z
}.

(** [timedelta(days=n)]: the constructor raises [OverflowError] beyond
    999999999 days in magnitude ([None]). *)
Definition TIMEDELTA_MAX_DAYS : Z := 999999999.

Definition timedelta_days (n : Z) : option Z :=
  if Z.abs n <=? TIMEDELTA_MAX_DAYS then Some n else None.

(** [is_fresh(created, fresh_days)] with [today = datetime.now(MSK).date()]:
    dates are day ordinals, a [timedelta] is a number of days. The
    chained comparison builds [timedelta(days=fresh_days)] only when its
    first half holds. [None] stands for the raised [OverflowError]. *)
Definition is_fresh (today : Z) (created : option Z) (fresh_days : Z)
  : option bool :=
  match created with
  | None => Some false
  | Some c =>
      let delta := today - c in
      if 0 <=? delta then
        match timedelta_days fresh_days with
        | Some bound => Some (delta <=? bound)
        | None => None
        end
      else Some false
  end.

Record tick_env := mk_tick {
  te_now : Z;                              (* datetime.now(MSK) of save_ad *)
  te_today : ad -> Z;                      (* the date read by is_fresh for this ad *)
  te_collect : option (list ad);           (* collect_ads: returns, or raises (None) *)
  te_details : ad -> option string * option Z;
                                           (* fetch_ad_details_sync: (screenshot_path, created) *)
  te_screenshot_exists : ad -> bool;       (* os.path.exists(screenshot_path) *)
  te_photo_ok : ad -> bool;
  te_message_ok : ad -> bool;
  te_idle_signal : bool;
  te_sleep_signal : bool
}.

(** [_send_ad]: the photo failure is caught, the failure of
    [send_message] is not. The flag says whether the call returned. *)
Definition _send_ad (cfg : Config) (env : tick_env) (a : ad)
    (screenshot_path : option string) : list event * bool :=
  let text :=
    if te_message_ok env a then ([EvSendMessage (ad_id a) true], true)
    else ([EvSendMessage (ad_id a) false], false) in
  if send_screenshot cfg && Py.truthy screenshot_path
     && te_screenshot_exists env a then
    if te_photo_ok env a then ([EvSendPhoto (ad_id a) true], true)
    else ([EvSendPhoto (ad_id a) false;
           EvPrint "[WARN] send_photo failed; fallback to text"] ++ fst text,
          snd text)
  else text.

(** Body of [for ad in reversed(ads)], with its try/except. *)
Definition process_ad (cfg : Config) (env : tick_env)
    (chat_id : option string) (acc : Storage * list event) (a : ad)
  : Storage * list event :=
  let '(st, log) := acc in
  if negb (is_new_ad (ad_id a) st) then (st, log) else
  let '(screenshot_path, created) := te_details env a in
  let log1 := log ++ [EvFetchDetails (ad_id a)] in
  let send :=
    let '(evs, returned) := _send_ad cfg env a screenshot_path in
    if returned then
      (save_ad (te_now env) a st,
       log1 ++ [EvDispatch chat_id (ad_id a)] ++ evs ++ [EvSaveAd (ad_id a)])
    else
      (st, log1 ++ [EvDispatch chat_id (ad_id a)] ++ evs
             ++ [EvPrint "[WARN] send/save failed"]) in
  if 0 <=? fresh_days cfg then
    match is_fresh (te_today env a) created (fresh_days cfg) with
    | None => (st, log1 ++ [EvPrint "[WARN] send/save failed"])
    | Some false =>
        (save_ad (te_now env) a st,
         log1 ++ [EvPrint "[skip stale]"; EvSaveAd (ad_id a)])
    | Some true => send
    end
  else send.

Definition process_ads (cfg : Config) (env : tick_env)
    (chat_id : option string) (ads : list ad) (acc : Storage * list event)
  : Storage * list event :=
  fold_left (process_ad cfg env chat_id) (rev ads) acc.

Definition loop_body (cfg : Config) (env : tick_env) (st : Storage)
  : Storage * list event * body_end :=
  let url := get_kv KEY_WATCH_URL st in
  let chat_id := get_kv KEY_CHAT_ID st in
  let idle := negb (Py.truthy url) || negb (Py.truthy chat_id) in
  if idle && negb (te_idle_signal env) then
    (st, [EvWait (cfg_interval cfg) false], BodyNext false)
  else
    let log0 := if idle then [EvWait (cfg_interval cfg) true] else [] in
    let stop0 := idle in
    match te_collect env with
    | None => (st, log0 ++ [EvCollect url], BodyRaised)
    | Some ads =>
        let '(st1, log1) :=
          process_ads cfg env chat_id ads (st, log0 ++ [EvCollect url]) in
        let signalled := stop0 || te_sleep_signal env in
        (st1, log1 ++ [EvWait (cfg_interval cfg) signalled], BodyNext signalled)
    end.

Definition loop (cfg : Config)
  : list tick_env -> bool -> Storage -> list event -> run_result :=
  while_not_stopped (loop_body cfg).

(** The cycles of [_warmup_if_needed]: each collects and saves without
    sending. The flag is [false] when [collect_ads] raised, which ends
    the cycles and, not being caught anywhere, the task. *)
Fixpoint warmup_cycles (collects : list (Z * option (list ad)))
    (st : Storage) (log : list event) : Storage * list event * bool :=
  match collects with
  | [] => (st, log, true)
  | (now, None) :: _ =>
      (st, log ++ [EvCollect (Some (default "" (get_kv KEY_WATCH_URL st)))], false)
  | (now, Some ads) :: rest =>
      let url := Some (default "" (get_kv KEY_WATCH_URL st)) in
      let st' := fold_left (fun s a => save_ad now a s) ads st in
      warmup_cycles rest st'
        (log ++ [EvCollect url] ++ map (fun a => EvSaveAd (ad_id a)) ads)
  end.

Record run_env := mk_run_env {
  re_start_ok : bool;
  re_warmup : nat -> Z * option (list ad);   (* clock and collect_ads of cycle i *)
  re_warmup_notice_ok : bool;
  re_stop_early : bool;
  re_ticks : list tick_env
}.

  (** [_warmup_if_needed], with its [for i in range(1, warmup_runs + 1)]. *)
Definition _warmup_if_needed (cfg : Config) (env : run_env)
    (st : Storage) (log : list event) : Storage * list event * bool :=
  if (size (tbl_ads st) =? 0)%nat && (0 <? warmup_runs cfg) then
    match warmup_cycles
            (map (re_warmup env) (seq 1 (Z.to_nat (warmup_runs cfg))))
            st log with
    | (st', log', true) =>
        (st', log' ++ [EvNotice (get_kv KEY_CHAT_ID st')
                         "Разогрев БД завершён"
                         (re_warmup_notice_ok env)], true)
    | (st', log', false) => (st', log', false)
    end
  else (st, log, true).

Definition _run (cfg : Config) (env : run_env) (st : Storage) : run_result :=
  let log0 :=
    match get_kv KEY_CHAT_ID st with
    | Some c =>
        if String.eqb c "" then [] else
        if re_start_ok env then [EvNotice (Some c) "Парсер auto.ru запущен" true]
        else [EvNotice (Some c) "Парсер auto.ru запущен" false;
              EvPrint "[WARN] notify start failed"]
    | None => []
    end in
  match _warmup_if_needed cfg env st log0 with
  | (st1, log1, false) => mk_run st1 log1 TaskFailed
  | (st1, log1, true) => loop cfg (re_ticks env) (re_stop_early env) st1 log1
  end.

(** *** [stop] of autoru.py

    The text is that of Drom.py, with [self.cfg.interval] (not clamped)
    in the timeout. Here the awaited task can also end by an exception:
    [_warmup_if_needed] runs before the [try] of [_run], so what
    [collect_ads] raises there leaves the task. [wait_for] then raises
    it again, [stop] catches [asyncio.TimeoutError] only, and with any
    other exception the two assignments after the wait are not
    reached. *)

(** What the running task does once the event is set: it returns or it
    raises, after so many seconds, or it does neither. The flag of
    [FateRaises] tells whether the exception is an
    [asyncio.TimeoutError]. *)
Inductive task_fate :=
| FateReturns (after : Z)
| FateRaises (after : Z) (is_timeout_error : bool)
| FateHangs.

Definition fate_time (f : task_fate) : option Z :=
  match f with
  | FateReturns t | FateRaises t _ => Some t
  | FateHangs => None
  end.

(** How [await svc.stop()] ends; [timed_out] tells whether the wait
    ended by its timeout. *)
Inductive stop_result :=
| StopNothing                                 (* not running: returned at once *)
| StopReturned (timed_out : bool) (waited : Z)
| StopRaised (waited : Z).                    (* the task's exception, raised again *)

Definition stop (f : task_fate) (w : World) : World * stop_result :=
  if negb (is_running w) then (w, StopNothing) else
  let events1 :=
    match _stop_event (svc w) with
    | Some e => <[e := true]> (events w)
    | None => events w
    end in
  let tasks1 :=
    match _task (svc w) with
    | Some t => <[t := true]> (tasks w)
    | None => tasks w
    end in
  let '(timed_out, waited) :=
    wait_for (fate_time f) (interval (svc w) + FIXED_GRACE) in
  match f, timed_out with
  | FateRaises _ false, false =>
      ({| store := store w; svc := svc w; tasks := tasks1;
          events := events1; user_mode := user_mode w |},
       StopRaised waited)
  | _, _ =>
      ({| store := store w;
          svc := {| interval := interval (svc w);
                    _task := None; _stop_event := None |};
          tasks := tasks1; events := events1; user_mode := user_mode w |},
       StopReturned timed_out waited)
  end.

(** What happens to the service of autoru.py over time. *)
Inductive svc_op :=
| SvcStart
| SvcStop (f : task_fate)
| SvcTaskEnds.

Definition apply_svc_op (w : World) (o : svc_op) : World :=
  match o with
  | SvcStart => start w
  | SvcStop f => fst (stop f w)
  | SvcTaskEnds => task_ends w
  end.

Definition run_svc_ops (ops : list svc_op) (w : World) : World :=
  fold_left apply_svc_op ops w.

End Autoru.


(** ** Sample inputs

    A datetime library to run the model on examples: an instant is
    written as its number of seconds in decimal. The theorems below hold
    for every [DateTimeLib]; this one only feeds the examples. *)

Fixpoint digits_to_N (s : string) (acc : N) : option N :=
  match s with
  | EmptyString => Some acc
  | String c r =>
      let n := N_of_ascii c in
      if ((48 <=? n) && (n <=? 57))%N
      then digits_to_N r (acc * 10 + (n - 48))%N else None
  end.

Definition seconds_of_string (s : string) : option Z :=
  match s with
  | EmptyString => None
  | String "-" EmptyString => None
  | String "-" r => option_map (fun n => - Z.of_N n) (digits_to_N r 0%N)
  | _ => option_map Z.of_N (digits_to_N s 0%N)
  end.

Definition seconds_lib : DateTimeLib :=
  {| isoformat := fun t => pretty t; fromisoformat := seconds_of_string |}.

Definition sample_cfg : Config :=
  {| cfg_days := 3; cfg_proxy := None; cfg_chromedriver_path := None;
     cfg_profile_path := Some "/tmp/profile" |}.

Definition sample_ad (id image : string) : ad :=
  {| ad_id := id; ad_title := "car " ++ id;
     ad_href := "https://auto.drom.ru/" ++ id ++ ".html";
     ad_price := "100"; ad_city := "Kirov"; ad_image := image |}.

(** A store with a watched URL and a bound chat. *)
Definition configured_storage : Storage :=
  set_kv KEY_CHAT_ID "42"
    (set_kv KEY_WATCH_URL "https://auto.drom.ru/region43/all/" empty_storage).

(** A store with a watched URL and no chat yet. *)
Definition chatless_storage : Storage :=
  set_kv KEY_WATCH_URL "https://auto.drom.ru/region43/all/" empty_storage.

(** ** The claims as worded, for comparison with the code *)

Definition DROM_PREFIXES : list string :=
  ["https://auto.drom.ru"; "https://www.drom.ru"; "https://drom.ru"].

(** Control characters: C0, DEL and C1. *)
Definition is_control_char (c : ascii) : bool :=
  let n := N_of_ascii c in ((n <? 32) || ((127 <=? n) && (n <? 160)))%N.

(** "Accepts a URL if and only if it matches the domain allow-list and
    contains no control characters." *)
Definition claimed_accepts_drom (url : string) : bool :=
  let low := Py.lower (Py.strip url) in
  existsb (Py.startswith low) DROM_PREFIXES
  && negb (Py.search_class is_control_char url).

(** The adapter returns three new ads, newest first. *)
Definition three_ads : list ad :=
  [sample_ad "3" "https://img/3.jpg"; sample_ad "2" ""; sample_ad "1" ""].

Definition three_ads_tick : Drom.tick_env :=
  {| Drom.te_now := 1000; Drom.te_collect := Some three_ads;
     Drom.te_photo_ok := fun _ => true; Drom.te_message_ok := fun _ => true;
     Drom.te_idle_signal := false; Drom.te_sleep_signal := false |}.

(** ** Calls of the adapter

    The number of calls of [collect_ads] in a stretch of the log. *)
Definition is_collect (e : event) : bool :=
  match e with
  | EvCollect _ => true
  | _ => false
  end.

Definition adapter_calls (log : list event) : nat :=
  length (filter (fun e => is_collect e = true) log).

(** ** Deduplication, per item id

    [seen_stays id st evs st']: when [id] is recorded in [st], the
    stretch [evs] of the log does not dispatch it and it is still
    recorded in [st']. [once_only] adds that [evs] dispatches [id] at most
    once and, when it does, leaves it recorded. *)
Definition seen_stays (id : string) (st : Storage) (evs : list event)
    (st' : Storage) : Prop :=
  is_new_ad id st = false ->
  is_new_ad id st' = false /\ dispatch_count id evs = 0%nat.

Definition once_only (id : string) (st : Storage) (evs : list event)
    (st' : Storage) : Prop :=
  seen_stays id st evs st'
  /\ (dispatch_count id evs <= 1)%nat
  /\ (dispatch_count id evs = 1%nat -> is_new_ad id st' = false).

(** autoru.py on one new ad posted today, with the freshness window
    "today only". *)
Definition autoru_cfg : Autoru.Config :=
  {| Autoru.cfg_interval := 60; Autoru.fresh_days := 0;
     Autoru.send_screenshot := false;
     Autoru.warmup_runs := 0; Autoru.warmup_delay := 5 |}.

Definition autoru_tick (message_ok : bool) (created : option Z)
  : Autoru.tick_env :=
  {| Autoru.te_now := 1000; Autoru.te_today := fun _ => 100;
     Autoru.te_collect := Some [sample_ad "1" ""];
     Autoru.te_details := fun _ => (None, created);
     Autoru.te_screenshot_exists := fun _ => false;
     Autoru.te_photo_ok := fun _ => false;
     Autoru.te_message_ok := fun _ => message_ok;
     Autoru.te_idle_signal := false; Autoru.te_sleep_signal := false |}.

(** Drom.py: one pass in which [collect_ads] answers (or raises, when
    [ads] is [None]), with or without a stop arriving in the idle wait,
    with the bot accepting or refusing every send. *)
Definition drom_tick (ads : option (list ad)) (idle_signal sends_ok : bool)
  : Drom.tick_env :=
  {| Drom.te_now := 1000; Drom.te_collect := ads;
     Drom.te_photo_ok := fun _ => sends_ok;
     Drom.te_message_ok := fun _ => sends_ok;
     Drom.te_idle_signal := idle_signal; Drom.te_sleep_signal := false |}.

(** ** Consistency of the task handle

    The tasks that are not done are exactly the one the service holds
    while it runs, and a held task comes with an event of the array:
    [start] is the only writer of the two fields and sets both. *)
Definition svc_consistent (w : World) : Prop :=
  live_tasks w = (if is_running w then 1 else 0)%nat
  /\ forall t, _task (svc w) = Some t ->
               exists e, _stop_event (svc w) = Some e
                         /\ (e < length (events w))%nat.

(** The world right after [main], on a configured store, and the button
    press that starts the parser. *)
Definition started_world : World :=
  Drom.run_ops (H := seconds_lib) sample_cfg
    [Drom.OpMenuButton BTN_TOGGLE 2000 None]
    (Drom.main (H := seconds_lib) sample_cfg 5 1000 configured_storage).

(** autoru.py right after [main] on a configured store, with the
    [--interval] given (nothing checks it), and after a start. *)
Definition autoru_world (interval : Z) : World :=
  {| store := configured_storage; svc := new_service_cfg interval;
     tasks := []; events := []; user_mode := None |}.

Definition autoru_started_world : World :=
  Autoru.run_svc_ops [Autoru.SvcStart] (autoru_world 60).

(** A world on a database that was never opened before, [main] not yet
    run. *)
Definition fresh_world : World :=
  {| store := empty_storage; svc := new_service_clamped 5;
     tasks := []; events := []; user_mode := None |}.

(** The lock is on and the expiry has been written. *)
Definition latched (st : Storage) : Prop :=
  Py.truthy (get_kv KEY_EXPIRY_AT st) = true /\ is_locked st = true.

(** ** What the running application does to the world

    The operations the bot performs once [main] has run: the three
    handlers, the watchdog, the passes of the polling task and its end.
    [store.lock_forever], [store.set_watch_url], [svc.start] and
    [svc.stop] are reached through them only. *)
Definition handler_op (o : Drom.op) : bool :=
  match o with
  | Drom.OpShowMenu _ | Drom.OpMenuButton _ _ _ | Drom.OpTextMessage _ _ _
  | Drom.OpExpiryJob _ _ | Drom.OpTaskEnds | Drom.OpTick _ => true
  | _ => false
  end.

(** The row [save_ad] writes for an ad. *)
Definition row_of (now : Z) (a : ad) : ad_row :=
  {| row_title := ad_title a; row_price := ad_price a;
     row_href := ad_href a; row_city := ad_city a;
     row_created_at := now |}.

(** The settings keys an operation may write, and when. *)
Definition written (k : string) (w : World) (o : Drom.op) (w' : World)
  : Prop :=
  get_kv k (store w') = get_kv k (store w)
  \/ k = KEY_EXPIRED_LOCK
  \/ (k = KEY_EXPIRY_AT /\ Py.truthy (get_kv KEY_EXPIRY_AT (store w)) = false)
  \/ (k = KEY_CHAT_ID /\ Py.truthy (get_kv KEY_CHAT_ID (store w)) = false)
  \/ (k = KEY_WATCH_URL
      /\ (handler_op o = true -> is_locked (store w) = false)
      /\ exists url s, sanitize_url_drom url = Some s /\ s <> ""
                       /\ get_kv k (store w') = Some s)
  \/ k = KEY_PROXY \/ k = KEY_CHROMEDRIVER \/ k = KEY_PROFILE_PATH.

(** The watched URL, when there is one, is a string the sanitizer
    returns unchanged. *)
Definition url_clean (st : Storage) : Prop :=
  match get_kv KEY_WATCH_URL st with
  | None => True
  | Some u => sanitize_url_drom u = Some u
  end.

(** While the service runs, the lock is off and both the URL and the
    chat are set. *)
Definition running_ok (w : World) : Prop :=
  is_running w = true ->
  is_locked (store w) = false
  /\ Py.truthy (get_kv KEY_WATCH_URL (store w)) = true
  /\ Py.truthy (get_kv KEY_CHAT_ID (store w)) = true.

(** ** Successful deliveries

    A bot call that returned, for the ad with this id. *)
Definition is_delivery_of (id : string) (e : event) : bool :=
  match e with
  | EvSendPhoto id' true | EvSendMessage id' true => String.eqb id id'
  | _ => false
  end.

Definition delivered_count (id : string) (log : list event) : nat :=
  length (filter (fun e => is_delivery_of id e = true) log).

(** The analogue of [once_only] for deliveries. *)
Definition delivered_once (id : string) (st : Storage) (evs : list event)
    (st' : Storage) : Prop :=
  (is_new_ad id st = false ->
   is_new_ad id st' = false /\ delivered_count id evs = 0%nat)
  /\ (delivered_count id evs <= 1)%nat
  /\ (delivered_count id evs = 1%nat -> is_new_ad id st' = false).

(** The life of the autoru service: [_run] again and again on the same
    database. *)
Fixpoint autoru_lifetime (cfg : Autoru.Config) (runs : list Autoru.run_env)
    (st : Storage) : Storage * list event :=
  match runs with
  | [] => (st, [])
  | r :: runs' =>
      let res := Autoru._run cfg r st in
      let '(st', log') := autoru_lifetime cfg runs' (run_store res) in
      (st', run_log res ++ log')
  end.

(** autoru with warm-up: two cycles, then the loop. *)
Definition autoru_warm_cfg : Autoru.Config :=
  {| Autoru.cfg_interval := 60; Autoru.fresh_days := 0;
     Autoru.send_screenshot := false;
     Autoru.warmup_runs := 2; Autoru.warmup_delay := 5 |}.

Definition autoru_warm_run : Autoru.run_env :=
  {| Autoru.re_start_ok := true;
     Autoru.re_warmup := fun i => (Z.of_nat i, Some [sample_ad "1" ""]);
     Autoru.re_warmup_notice_ok := true;
     Autoru.re_stop_early := false;
     Autoru.re_ticks := [autoru_tick true (Some 100)] |}.

(** ** Cancellation of the Drom task

    [stop()] cancels the task when its bounded wait times out.
    [CancelledError] is raised at the [await] where the task is
    suspended; it is no [Exception], so no handler of [_send_ad] or
    [_run] catches it and the task ends there. The awaits of the task
    are the start notice, the two timed waits and the bot calls of
    [_send_ad]. Cancelled in the notice or in a wait, the task ends
    between two passes, which is a life of [Drom.lifetime]. Cancelled in
    [_send_ad], it ends after the call of [_send_ad] for an ad and
    before the [save_ad] of that ad. *)

(** Where the cancellation meets the pass: [cut_after] new ads are
    handled before the one whose send is cancelled; [cut_in_fallback]
    asks, for an ad with an image, for the cancellation to come in the
    [send_message] that follows a failed [send_photo] rather than in
    [send_photo]. *)
Record cut := mk_cut {
  cut_after : nat;
  cut_in_fallback : bool
}.

(** What [_send_ad] logs before it is cancelled. *)
Definition _send_ad_cancelled (env : Drom.tick_env) (in_fallback : bool)
    (a : ad) : list event :=
  if Py.truthy (Some (ad_image a)) && negb (Drom.te_photo_ok env a)
     && in_fallback
  then [EvSendPhoto (ad_id a) false;
        EvPrint "[WARN] send_photo failed; fallback to text"]
  else [].

(** The [for] loop of the pass in which the cancellation comes: the
    store, the log, and the id of the ad whose send was cancelled
    ([None] when the loop met fewer new ads than [after] asks for, and
    so ran to its end). *)
Fixpoint process_ads_cancelled (env : Drom.tick_env)
    (chat_id : option string) (after : nat) (in_fallback : bool)
    (l : list ad) (acc : Storage * list event)
  : Storage * list event * option string :=
  match l with
  | [] => (acc, None)
  | a :: l' =>
      match is_new_ad (ad_id a) (fst acc), after with
      | true, O =>
          ((fst acc,
            snd acc ++ [EvDispatch chat_id (ad_id a)]
              ++ _send_ad_cancelled env in_fallback a),
           Some (ad_id a))
      | true, S n =>
          process_ads_cancelled env chat_id n in_fallback l'
            (Drom.process_ad env chat_id acc a)
      | false, _ =>
          process_ads_cancelled env chat_id after in_fallback l'
            (Drom.process_ad env chat_id acc a)
      end
  end.

(** The pass up to the cancellation inside [_send_ad]; [None] when the
    pass has no send at that place (it idles, [collect_ads] raises, or
    the new ads are too few). *)
Definition cancelled_pass (interval : Z) (c : cut) (env : Drom.tick_env)
    (st : Storage) : option (Storage * list event * string) :=
  let url := get_kv KEY_WATCH_URL st in
  let chat_id := get_kv KEY_CHAT_ID st in
  let idle := negb (Py.truthy url) || negb (Py.truthy chat_id) in
  if idle && negb (Drom.te_idle_signal env) then None else
  let log0 := if idle then [EvWait interval true] else [] in
  match Drom.te_collect env with
  | None => None
  | Some ads =>
      match process_ads_cancelled env chat_id (cut_after c)
              (cut_in_fallback c) (rev ads) (st, log0 ++ [EvCollect url]) with
      | (st1, log1, Some id) => Some (st1, log1, id)
      | (_, _, None) => None
      end
  end.

(** One life of the task: the passes that run to their end and, when
    the task is still in its loop after them, the pass in which it is
    cancelled. When that pass has no send at the place asked for, it
    runs to its end and the task is cancelled in the wait that ends
    it. *)
Record life := mk_life {
  life_run : Drom.run_env;
  life_cancel : option (cut * Drom.tick_env)
}.

(** The store and the log after the life, and the ids whose send was
    cancelled. *)
Definition run_life (interval : Z) (l : life) (st : Storage)
  : Storage * list event * list string :=
  let res := Drom._run interval (life_run l) st in
  match run_status res, life_cancel l with
  | TaskAlive, Some (c, env) =>
      match cancelled_pass interval c env (run_store res) with
      | Some (st1, evs, id) => (st1, run_log res ++ evs, [id])
      | None =>
          let res' :=
            Drom.loop interval [env] false (run_store res) (run_log res) in
          (run_store res', run_log res', [])
      end
  | _, _ => (run_store res, run_log res, [])
  end.

(** The service's life with cancellations: the task is started again
    and again on the same database. *)
Fixpoint cancellable_lifetime (interval : Z) (lives : list life)
    (st : Storage) : Storage * list event * list string :=
  match lives with
  | [] => (st, [], [])
  | l :: lives' =>
      let '(st1, log1, cuts1) := run_life interval l st in
      let '(st2, log2, cuts2) := cancellable_lifetime interval lives' st1 in
      (st2, log1 ++ log2, cuts1 ++ cuts2)
  end.

(** The ids whose send was cancelled, from the answer of
    [process_ads_cancelled]. *)
Definition cuts_of (c : option string) : list string :=
  match c with
  | Some id => [id]
  | None => []
  end.

Definition cut_count (id : string) (cuts : list string) : nat :=
  length (filter (fun x => String.eqb id x = true) cuts).

(** [once_only] with cancellations: an id is dispatched once more than
    its sends were cancelled at most, and only as often as that while it
    is not recorded. *)
Definition once_or_cut (id : string) (st : Storage) (evs : list event)
    (cuts : list string) (st' : Storage) : Prop :=
  (is_new_ad id st = false ->
   is_new_ad id st' = false /\ dispatch_count id evs = 0%nat
   /\ cut_count id cuts = 0%nat)
  /\ (dispatch_count id evs <= 1 + cut_count id cuts)%nat
  /\ (cut_count id cuts <= dispatch_count id evs)%nat
  /\ (is_new_ad id st' = true ->
      (dispatch_count id evs <= cut_count id cuts)%nat).

(** Two lives on the three ads: the first is cancelled in the send of
    the second ad handled, the second runs one whole pass. *)
Definition cancelled_lives : list life :=
  [mk_life (Drom.mk_run_env true false [])
     (Some (mk_cut 1 false, three_ads_tick));
   mk_life (Drom.mk_run_env true false [three_ads_tick]) None].

(** ** The status text ([format_status_text])

    The values the function interpolates into its message: the link to
    the watched URL when there is one, the countdown (one of four
    shapes) and the state of the parser.

    Python's datetimes count microseconds, and the countdown depends on
    them, so in this part the instants are counted in microseconds:
    [now] is [datetime.now(tz)] and [fromisoformat_us] answers the
    instant of the string it parses (a string without offset being read
    in the zone [tz], as the function does). [total_seconds()] is the
    float nearest to the microseconds divided by 10^6 and [int] drops
    its fraction; for differences of less than 2^34 seconds in size the
    result is the quotient rounded towards zero. *)
Inductive countdown :=
| CountdownLocked                         (* locked forever *)
| CountdownExpired                        (* expired, lock on its way *)
| CountdownLeft (days hrs mins s : Z)     (* "{days} d {hrs:02d} h {mins:02d} m {s:02d} s" *)
| CountdownNone.                          (* no expiry in the store *)

Record status_text := mk_status {
  status_url : option string;
  status_countdown : countdown;
  status_running : bool
}.

(** [store.get_expiry()] at the resolution of the datetimes. *)
Definition get_expiry_us (fromisoformat_us : string -> option Z)
    (st : Storage) : option Z :=
  match get_kv KEY_EXPIRY_AT st with
  | None => None
  | Some raw => if String.eqb raw "" then None else fromisoformat_us raw
  end.

(** [int(delta.total_seconds())] of a [timedelta] of [us] microseconds. *)
Definition int_total_seconds (us : Z) : Z := Z.quot us 1000000.

(** The range of differences in which [int_total_seconds] is what
    Python computes. *)
Definition TOTAL_SECONDS_EXACT : Z := 2 ^ 34 * 1000000.

Definition format_status_text (fromisoformat_us : string -> option Z)
    (now : Z) (st : Storage) (running : bool) : status_text :=
  let raw_url := get_watch_url st in
  let url_link := if Py.truthy raw_url then raw_url else None in
  let expiry := get_expiry_us fromisoformat_us st in
  let locked := is_locked st in
  let cd :=
    if locked then CountdownLocked else
    match expiry with
    | Some e =>
        let sec := int_total_seconds (e - now) in
        if sec <=? 0 then CountdownExpired else
        let days := sec / 86400 in
        let hrs := (sec mod 86400) / 3600 in
        let mins := (sec mod 3600) / 60 in
        let s := sec mod 60 in
        CountdownLeft days hrs mins s
    | None => CountdownNone
    end in
  {| status_url := url_link; status_countdown := cd; status_running := running |}.

(** A store whose expiry is two days, 23 hours, 43 minutes and 20.5
    seconds after the instant 2000000, for a library that writes
    instants as their number of microseconds. *)
Definition status_storage : Storage :=
  set_kv KEY_EXPIRY_AT "258202500000" configured_storage.

(** ** Item ids

    [re.search(r'/(\d+)SUFFIX', href)] for a suffix that does not start
    with a digit: the leftmost slash whose longest run of digits is not
    empty and is followed by the suffix gives the group (a shorter run
    is followed by a digit, so backtracking finds nothing more). *)
Definition is_digit (c : ascii) : bool :=
  let n := N_of_ascii c in ((48 <=? n) && (n <=? 57))%N.

Fixpoint take_digits (s : string) : string * string :=
  match s with
  | EmptyString => (EmptyString, EmptyString)
  | String c r =>
      if is_digit c
      then let '(d, rest) := take_digits r in (String c d, rest)
      else (EmptyString, s)
  end.

Fixpoint search_slash_digits (suffix : string) (s : string) : option string :=
  match s with
  | EmptyString => None
  | String c r =>
      if Ascii.eqb c "/" then
        let '(d, rest) := take_digits r in
        if negb (String.eqb d "") && String.prefix suffix rest then Some d
        else search_slash_digits suffix r
      else search_slash_digits suffix r
  end.

(** [str(abs(hash(href)))]; [hash] is Python's, salted per process. *)
Definition hash_id (hash : string -> Z) (href : string) : string :=
  pretty (Z.abs (hash href)).

(** The id [collect_ads] of Drom.py gives to the card with this link. *)
Definition drom_ad_id (hash : string -> Z) (href : string) : string :=
  match search_slash_digits ".html" href with
  | Some id => id
  | None => hash_id hash href
  end.

(** [get_unique_id] of autoru.py. *)
Definition get_unique_id (hash : string -> Z) (link : string) : string :=
  match search_slash_digits "-" link with
  | Some id => id
  | None => hash_id hash link
  end.

(** ** The bot token ([sanitize_token])

    [re.fullmatch(r"\d{6,}:[A-Za-z0-9_-]{30,}", token)]: the colon is
    neither a digit nor in the second class, so the digits before it
    are the longest run of digits the string starts with. [None] stands
    for the raised [ValueError]. *)
Definition is_token_char (c : ascii) : bool :=
  let n := N_of_ascii c in
  (((65 <=? n) && (n <=? 90)) || ((97 <=? n) && (n <=? 122))
   || ((48 <=? n) && (n <=? 57)) || (n =? 95) || (n =? 45))%N.

Fixpoint all_chars (p : ascii -> bool) (s : string) : bool :=
  match s with
  | EmptyString => true
  | String c r => p c && all_chars p r
  end.

Definition sanitize_token (token : option string) : option string :=
  let token := Py.strip (default "" token) in
  let '(d, rest) := take_digits token in
  match rest with
  | String c secret =>
      if Ascii.eqb c ":" && (6 <=? String.length d)%nat
         && (30 <=? String.length secret)%nat && all_chars is_token_char secret
      then Some token else None
  | EmptyString => None
  end.

(** [sanitize_days]; [None] stands for the raised [ValueError]. *)
Definition sanitize_days (days : Z) : option Z :=
  if (0 <=? days) && (days <=? 3650) then Some days else None.

(** ** Dates of auto.ru ([parse_ru_day_month_to_date])

    A [datetime.date] is its three fields; [make_date] is the
    constructor [date(y, m, d)], which raises [ValueError] ([None])
    outside the calendar; dates compare field by field. *)
Record date := mk_date { d_year : Z; d_month : Z; d_day : Z }.

Definition is_leap (y : Z) : bool :=
  (y mod 4 =? 0) && (negb (y mod 100 =? 0) || (y mod 400 =? 0)).

Definition days_in_month (y m : Z) : Z :=
  if m =? 2 then (if is_leap y then 29 else 28)
  else if (m =? 4) || (m =? 6) || (m =? 9) || (m =? 11) then 30 else 31.

Definition make_date (y m d : Z) : option date :=
  if (1 <=? y) && (y <=? 9999) && (1 <=? m) && (m <=? 12)
     && (1 <=? d) && (d <=? days_in_month y m)
  then Some (mk_date y m d) else None.

(** [a < b] on dates. *)
Definition date_ltb (a b : date) : bool :=
  (d_year a <? d_year b)
  || ((d_year a =? d_year b)
      && ((d_month a <? d_month b)
          || ((d_month a =? d_month b) && (d_day a <? d_day b)))).

(** The table [RU_MONTHS]: the genitive month names, as the UTF-8 bytes
    of the source file. *)
Definition RU_MONTHS : gmap string Z :=
  list_to_map
    [("января", 1); ("февраля", 2); ("марта", 3); ("апреля", 4);
     ("мая", 5); ("июня", 6); ("июля", 7); ("августа", 8);
     ("сентября", 9); ("октября", 10); ("ноября", 11); ("декабря", 12)].

(** What a call may do: return a value, or let an exception out. *)
Inductive outcome (A : Type) :=
| Returned (x : A)
| Raised.
Arguments Returned {A} x.
Arguments Raised {A}.

(** [parse_ru_day_month_to_date] from its regular-expression match on:
    [m] is the result of [re.search] on the lower-cased text, with
    [int(m.group(1))] and [m.group(2)] ([None]: no match); [today] is
    [datetime.now(MSK).date()]. The second [date(...)] is outside the
    [try]. *)
Definition parse_ru_day_month_to_date (today : date)
    (m : option (Z * string)) : outcome (option date) :=
  match m with
  | None => Returned None
  | Some (d, word) =>
      match RU_MONTHS !! word with
      | None => Returned None
      | Some mon =>
          if mon =? 0 then Returned None else
          let y := d_year today in
          match make_date y mon d with
          | None => Returned None
          | Some dt =>
              if date_ltb today dt then
                match make_date (y - 1) mon d with
                | Some dt' => Returned (Some dt')
                | None => Raised
                end
              else Returned (Some dt)
          end
      end
  end.

(** * Properties *)

(** ** Strings and the sanitizer *)

Lemma truthy_Some (s : string) : Py.truthy (Some s) = false <-> s = "".
Proof.
  unfold Py.truthy. destruct (String.eqb_spec s ""); simpl; split; congruence.
Qed.

Lemma search_class_false (cls : ascii -> bool) (s : string) :
  Py.search_class cls s = false <->
  forall c, In c (list_ascii_of_string s) -> cls c = false.
Proof.
  induction s as [|a s IH]; simpl.
  - split; [intros _ c [] | reflexivity].
  - rewrite orb_false_iff, IH. split.
    + intros [Ha Hs] c [<-|Hc]; auto.
    + intros Hall. split; [apply Hall; now left | intros c Hc; apply Hall; now right].
Qed.

Lemma forbidden_char_false (c : ascii) :
  forbidden_char c = false <-> (c <> ";" /\ c <> "'" /\ c <> "\")%char.
Proof.
  destruct c as [[] [] [] [] [] [] [] []]; vm_compute;
    (split; [intros; repeat split; congruence | intros (?&?&?); congruence]).
Qed.

Lemma prefix_nonempty (p s : string) :
  p <> "" -> String.prefix p s = true -> s <> "".
Proof. destruct p; [congruence|]. destruct s; simpl; congruence. Qed.

(** C8, as worded, fails: a URL of the allow-listed host without any
    control character is rejected for its semicolon. *)
Lemma set_watch_url_claim_fails :
  claimed_accepts_drom "https://drom.ru/a;b" = true /\
  Drom.set_watch_url 0 "https://drom.ru/a;b" empty_storage
  = (empty_storage, (false, "Недопустимый URL (только https://auto.drom.ru/ ... )")).
Proof. split; reflexivity. Qed.

(** C8 (amended): [set_watch_url] accepts a URL exactly when its stripped
    form has at most 2000 characters, starts (lower-cased) with one of the
    three https prefixes and holds none of the characters ; ' \ ;
    on acceptance [watch_url] becomes the stripped URL, the other settings
    and the ads are untouched and the URL is in [urls]; on rejection the
    store is unchanged and a reason is returned. *)
Theorem set_watch_url_accepts_iff (now : Z) (url : string) (st : Storage) :
  let u := Py.strip url in
  let r := Drom.set_watch_url now url st in
  let st' := fst r in
  let accepted := fst (snd r) in
  (accepted = true <->
     (String.length u <= 2000)%nat /\
     (exists p, In p DROM_PREFIXES /\ String.prefix p (Py.lower u) = true) /\
     (forall c, In c (list_ascii_of_string u) ->
                (c <> ";" /\ c <> "'" /\ c <> "\")%char)) /\
  (accepted = true ->
     get_watch_url st' = Some u /\
     (forall k, k <> KEY_WATCH_URL -> get_kv k st' = get_kv k st) /\
     tbl_ads st' = tbl_ads st /\
     is_Some (tbl_urls st' !! u)) /\
  (accepted = false -> st' = st /\ snd (snd r) <> "").
Proof.
  cbn zeta.
  unfold Drom.set_watch_url, set_watch_url_with, sanitize_url_drom.
  destruct (negb (Py.truthy (Some url))) eqn:Hempty.
  { apply negb_true_iff, truthy_Some in Hempty. subst url. cbn.
    repeat split; try congruence.
    intros (_ & (p & Hp & Hpre) & _).
    destruct Hp as [<-|[<-|[<-|[]]]]; discriminate. }
  set (u := Py.strip url).
  destruct (2000 <? Py.len u) eqn:Hlen.
  { cbn. repeat split; try congruence.
    intros (Hl & _). apply Z.ltb_lt in Hlen. unfold Py.len in Hlen. lia. }
  apply Z.ltb_ge in Hlen. unfold Py.len in Hlen.
  destruct (negb (Py.startswith _ _ || _ || _)) eqn:Hpre.
  { cbn. repeat split; try congruence.
    intros (_ & (p & Hp & Hpp) & _).
    apply negb_true_iff in Hpre. rewrite !orb_false_iff in Hpre.
    destruct Hpre as [[H1 H2] H3]. unfold Py.startswith in *.
    destruct Hp as [<-|[<-|[<-|[]]]]; congruence. }
  apply negb_false_iff in Hpre.
  destruct (Py.search_class forbidden_char u) eqn:Hforb.
  { cbn. repeat split; try congruence.
    intros (_ & _ & Hc).
    assert (Py.search_class forbidden_char u = false); [|congruence].
    apply search_class_false. intros c Hin. apply forbidden_char_false. auto. }
  assert (Hne : u <> "").
  { intros Hu. assert (Hl : Py.lower u <> ""); [|now rewrite Hu in Hl].
    rewrite !orb_true_iff in Hpre. unfold Py.startswith in Hpre.
    destruct Hpre as [[H|H]|H]; (eapply prefix_nonempty; [|exact H]; discriminate). }
  destruct (String.eqb_spec u ""); [contradiction|].
  cbn [fst snd].
  split; [|split].
  - split; [intros _|reflexivity]. split; [lia|]. split.
    + rewrite !orb_true_iff in Hpre. unfold Py.startswith in Hpre.
      destruct Hpre as [[H|H]|H]; eexists; (split; [|exact H]); simpl; auto.
    + intros c Hc. apply forbidden_char_false.
      revert c Hc. now apply search_class_false.
  - intros _. unfold get_watch_url, get_kv, insert_url, set_kv; cbn.
    destruct (tbl_urls st !! u) eqn:Hu; cbn.
    + rewrite lookup_insert_eq. repeat split; eauto.
      intros k Hk. now rewrite lookup_insert_ne.
    + rewrite !lookup_insert_eq. repeat split; eauto.
      intros k Hk. now rewrite lookup_insert_ne.
  - discriminate.
Qed.

(** ** The ads table *)

Lemma is_new_ad_save_same (now : Z) (a : ad) (st : Storage) :
  is_new_ad (ad_id a) (save_ad now a st) = false.
Proof.
  unfold is_new_ad, save_ad.
  destruct (tbl_ads st !! ad_id a) eqn:E; cbn.
  - now rewrite E.
  - now rewrite lookup_insert_eq.
Qed.

Lemma is_new_ad_save_other (now : Z) (a : ad) (id : string) (st : Storage) :
  id <> ad_id a -> is_new_ad id (save_ad now a st) = is_new_ad id st.
Proof.
  intros Hne. unfold is_new_ad, save_ad.
  destruct (tbl_ads st !! ad_id a) eqn:E; cbn; [reflexivity|].
  rewrite lookup_insert_ne by congruence. reflexivity.
Qed.

Lemma is_new_ad_save_seen (now : Z) (a : ad) (id : string) (st : Storage) :
  is_new_ad id st = false -> is_new_ad id (save_ad now a st) = false.
Proof.
  intros Hseen. destruct (String.eqb_spec id (ad_id a)) as [->|Hne].
  - apply is_new_ad_save_same.
  - now rewrite is_new_ad_save_other.
Qed.

Lemma save_ad_settings (now : Z) (a : ad) (st : Storage) :
  tbl_settings (save_ad now a st) = tbl_settings st.
Proof. unfold save_ad. now destruct (tbl_ads st !! ad_id a). Qed.

(** Saving twice is saving once (INSERT OR IGNORE). *)
Lemma save_ad_idempotent (now now' : Z) (a : ad) (st : Storage) :
  save_ad now' a (save_ad now a st) = save_ad now a st.
Proof.
  unfold save_ad at 1. 
  pose proof (is_new_ad_save_same now a st) as H. unfold is_new_ad in H.
  now destruct (tbl_ads (save_ad now a st) !! ad_id a).
Qed.

(** ** The event log *)

Lemma dispatched_app (l1 l2 : list event) :
  dispatched (l1 ++ l2) = dispatched l1 ++ dispatched l2.
Proof.
  induction l1 as [|e l1 IH]; [reflexivity|].
  destruct e; cbn; rewrite ?IH; reflexivity.
Qed.

Lemma dispatch_count_app (id : string) (l1 l2 : list event) :
  dispatch_count id (l1 ++ l2)
  = (dispatch_count id l1 + dispatch_count id l2)%nat.
Proof. unfold dispatch_count. now rewrite filter_app, length_app. Qed.

Lemma dispatch_count_dispatched (id : string) (log : list event) :
  dispatch_count id log
  = length (filter (fun i => i = id) (dispatched log)).
Proof.
  unfold dispatch_count.
  induction log as [|e log IH]; [reflexivity|].
  destruct e; cbn [dispatched]; rewrite ?filter_cons; cbn [is_dispatch_of];
    try (destruct (decide (false = true)); [discriminate|exact IH]).
  destruct (String.eqb_spec id id0) as [->|Hne].
  - rewrite !decide_True by reflexivity. cbn. now rewrite IH.
  - rewrite !decide_False by congruence. exact IH.
Qed.

Lemma drom_send_ad_no_dispatch (env : Drom.tick_env) (a : ad) :
  dispatched (Drom._send_ad env a) = [].
Proof.
  unfold Drom._send_ad.
  destruct (Py.truthy _), (Drom.te_photo_ok env a), (Drom.te_message_ok env a);
    reflexivity.
Qed.

(** ** Oldest first *)

(** Ads that are new and pairwise distinct are all dispatched, in the
    order in which the loop meets them. *)
Lemma drom_fold_dispatches_all (env : Drom.tick_env) (chat_id : option string)
    (l : list ad) :
  forall (st : Storage) (log : list event),
    List.NoDup (map ad_id l) ->
    (forall a, In a l -> is_new_ad (ad_id a) st = true) ->
    dispatched (snd (fold_left (Drom.process_ad env chat_id) l (st, log)))
    = dispatched log ++ map ad_id l.
Proof.
  induction l as [|a l IH]; intros st log Hnd Hnew; cbn [fold_left map].
  - now rewrite app_nil_r.
  - apply List.NoDup_cons_iff in Hnd as [Hnotin Hnd].
    cbn [Drom.process_ad]. rewrite (Hnew a) by now left.
    rewrite IH; [| exact Hnd |].
    + rewrite !dispatched_app, drom_send_ad_no_dispatch. cbn.
      now rewrite <- app_assoc.
    + intros b Hb. rewrite is_new_ad_save_other; [apply Hnew; now right|].
      intros Heq. apply Hnotin. rewrite <- Heq.
      apply in_map, Hb.
Qed.

(** C5: in a pass with the URL and the chat configured, the ads the
    adapter returned (distinct ids, none seen before) are handed to
    [_send_ad] in the reverse of the adapter's order, so
    [[C3; C2; C1]] is dispatched as C1, C2, C3. youla.py runs the same
    body. *)
Theorem oldest_first_dispatch (interval : Z) (env : Drom.tick_env)
    (st : Storage) (ads : list ad) :
  Py.truthy (get_kv KEY_WATCH_URL st) = true ->
  Py.truthy (get_kv KEY_CHAT_ID st) = true ->
  Drom.te_collect env = Some ads ->
  List.NoDup (map ad_id ads) ->
  (forall a, In a ads -> is_new_ad (ad_id a) st = true) ->
  dispatched (snd (fst (Drom.loop_body interval env st))) = rev (map ad_id ads)
  /\ dispatched (snd (fst (Youla.loop_body interval env st))) = rev (map ad_id ads).
Proof.
  intros Hurl Hchat Hcol Hnd Hnew.
  assert (H : dispatched (snd (fst (Drom.loop_body interval env st)))
              = rev (map ad_id ads)); [|split; exact H].
  unfold Drom.loop_body. rewrite Hurl, Hchat, Hcol. cbn [negb orb andb].
  destruct (Drom.process_ads env (get_kv KEY_CHAT_ID st) ads
              (st, [] ++ [EvCollect (get_kv KEY_WATCH_URL st)]))
    as [st1 log1] eqn:E.
  cbn [fst snd]. rewrite dispatched_app, app_nil_r.
  change log1 with (snd (st1, log1)). rewrite <- E.
  unfold Drom.process_ads. rewrite drom_fold_dispatches_all.
  - cbn. now rewrite map_rev.
  - rewrite map_rev. now apply List.NoDup_rev.
  - intros a Ha. apply Hnew. now apply in_rev.
Qed.

Lemma oldest_first_dispatch_witness :
  dispatched (snd (fst (Drom.loop_body 5 three_ads_tick configured_storage)))
  = ["1"; "2"; "3"]
  /\ dispatched (snd (fst (Youla.loop_body 5 three_ads_tick configured_storage)))
  = ["1"; "2"; "3"].
Proof.
  apply (oldest_first_dispatch 5 three_ads_tick configured_storage three_ads).
  - reflexivity.
  - reflexivity.
  - reflexivity.
  - repeat (constructor; [cbn; intuition discriminate|]). constructor.
  - intros a [<-|[<-|[<-|[]]]]; reflexivity.
Defined.

(** ** Deduplication *)

Lemma dispatch_count_cons (id : string) (e : event) (l : list event) :
  dispatch_count id (e :: l)
  = ((if is_dispatch_of id e then 1 else 0) + dispatch_count id l)%nat.
Proof.
  unfold dispatch_count. rewrite filter_cons.
  destruct (is_dispatch_of id e).
  - now rewrite decide_True.
  - now rewrite decide_False.
Qed.

Lemma dispatch_count_none (id : string) (l : list event) :
  (forall e, In e l -> is_dispatch_of id e = false) ->
  dispatch_count id l = 0%nat.
Proof.
  induction l as [|e l IH]; intros H; [reflexivity|].
  rewrite dispatch_count_cons, (H e) by now left.
  apply IH. intros e' He'. apply H. now right.
Qed.

Lemma seen_stays_refl (id : string) (st : Storage) : seen_stays id st [] st.
Proof. intros H. now split. Qed.

Lemma seen_stays_trans (id : string) (st1 st2 st3 : Storage)
    (e1 e2 : list event) :
  seen_stays id st1 e1 st2 -> seen_stays id st2 e2 st3 ->
  seen_stays id st1 (e1 ++ e2) st3.
Proof.
  intros H1 H2 Hseen. destruct (H1 Hseen) as [Hs2 Hc1].
  destruct (H2 Hs2) as [Hs3 Hc2]. split; [exact Hs3|].
  rewrite dispatch_count_app. lia.
Qed.

Lemma once_only_refl (id : string) (st : Storage) : once_only id st [] st.
Proof.
  split; [apply seen_stays_refl|]. split; cbn; [lia|discriminate].
Qed.

Lemma once_only_trans (id : string) (st1 st2 st3 : Storage)
    (e1 e2 : list event) :
  once_only id st1 e1 st2 -> once_only id st2 e2 st3 ->
  once_only id st1 (e1 ++ e2) st3.
Proof.
  intros (Hs1 & Hle1 & Hone1) (Hs2 & Hle2 & Hone2).
  split; [now apply seen_stays_trans with st2|].
  rewrite dispatch_count_app.
  destruct (dispatch_count id e1) as [|[|n]] eqn:E1; [| |lia].
  - cbn. split; [exact Hle2|exact Hone2].
  - destruct (Hs2 (Hone1 eq_refl)) as [Hs3 Hc2]. rewrite Hc2.
    split; [lia|intros _; exact Hs3].
Qed.

Lemma once_only_silent (id : string) (st : Storage) (evs : list event) :
  (forall e, In e evs -> is_dispatch_of id e = false) ->
  once_only id st evs st.
Proof.
  intros H. pose proof (dispatch_count_none id evs H) as Hc.
  split; [intros Hs; now split|]. rewrite Hc. split; [lia|discriminate].
Qed.

Lemma seen_stays_silent (id : string) (st : Storage) (evs : list event) :
  (forall e, In e evs -> is_dispatch_of id e = false) ->
  seen_stays id st evs st.
Proof. intros H. now apply once_only_silent. Qed.

Section LoopInvariant.
Context {Env : Type}.
Variable body : Env -> Storage -> Storage * list event * body_end.
Variable R : Storage -> list event -> Storage -> Prop.
Hypothesis R_refl : forall st, R st [] st.
Hypothesis R_trans : forall st1 e1 st2 e2 st3,
    R st1 e1 st2 -> R st2 e2 st3 -> R st1 (e1 ++ e2) st3.
Hypothesis R_print : forall st line, R st [EvPrint line] st.
Hypothesis R_body : forall env st,
    R st (snd (fst (body env st))) (fst (fst (body env st))).

(** A relation kept by every pass is kept by the loop. *)
Lemma while_invariant (envs : list Env) :
  forall (b : bool) (st : Storage) (log : list event),
  exists evs,
    run_log (while_not_stopped body envs b st log) = log ++ evs
    /\ R st evs (run_store (while_not_stopped body envs b st log)).
Proof.
  induction envs as [|env envs IH]; intros b st log.
  - exists []. rewrite app_nil_r. destruct b; cbn; auto.
  - destruct b; [exists []; rewrite app_nil_r; cbn; auto|].
    cbn [while_not_stopped].
    pose proof (R_body env st) as Hb.
    destruct (body env st) as [[st' evs] [stop'|]]; cbn [fst snd] in Hb.
    + destruct (IH stop' st' (log ++ evs)) as (evs' & Hlog & HR).
      exists (evs ++ evs'). rewrite Hlog, app_assoc. split; [reflexivity|].
      eapply R_trans; eauto.
    + exists (evs ++ [EvPrint "[ERROR] parser loop"]). cbn [run_log run_store].
      split; [reflexivity|]. eapply R_trans; eauto.
Qed.
End LoopInvariant.

(** *** Drom.py and youla.py: at most once *)

Lemma drom_send_ad_silent (id : string) (env : Drom.tick_env) (a : ad) :
  forall e, In e (Drom._send_ad env a) -> is_dispatch_of id e = false.
Proof.
  unfold Drom._send_ad. intros e.
  destruct (Py.truthy _), (Drom.te_photo_ok env a), (Drom.te_message_ok env a);
    cbn; intuition (subst; reflexivity).
Qed.

Lemma drom_process_ad_once (id : string) (env : Drom.tick_env)
    (chat_id : option string) (a : ad) (st : Storage) (log : list event) :
  exists evs,
    snd (Drom.process_ad env chat_id (st, log) a) = log ++ evs
    /\ once_only id st evs (fst (Drom.process_ad env chat_id (st, log) a)).
Proof.
  cbn [Drom.process_ad]. destruct (is_new_ad (ad_id a) st) eqn:Hnew.
  - set (evs := [EvDispatch chat_id (ad_id a)] ++ Drom._send_ad env a
                  ++ [EvSaveAd (ad_id a)]).
    exists evs. split; [reflexivity|]. cbn [fst].
    assert (Hc : dispatch_count id evs
                 = if String.eqb id (ad_id a) then 1%nat else 0%nat).
    { unfold evs. rewrite !dispatch_count_app, (dispatch_count_none id (Drom._send_ad env a))
        by apply drom_send_ad_silent.
      rewrite !dispatch_count_cons. cbn [is_dispatch_of].
      change (dispatch_count id []) with 0%nat.
      destruct (String.eqb id (ad_id a)); reflexivity. }
    unfold once_only, seen_stays. rewrite !Hc.
    destruct (String.eqb_spec id (ad_id a)) as [->|Hne].
    + split; [intros Hs; congruence|].
      split; [lia|intros _; apply is_new_ad_save_same].
    + split; [intros Hs; split; [now apply is_new_ad_save_seen|reflexivity]|].
      split; [lia|discriminate].
  - exists []. rewrite app_nil_r. split; [reflexivity|apply once_only_refl].
Qed.

Lemma drom_fold_once (id : string) (env : Drom.tick_env)
    (chat_id : option string) (l : list ad) :
  forall (st : Storage) (log : list event),
  exists evs,
    snd (fold_left (Drom.process_ad env chat_id) l (st, log)) = log ++ evs
    /\ once_only id st evs
         (fst (fold_left (Drom.process_ad env chat_id) l (st, log))).
Proof.
  induction l as [|a l IH]; intros st log; cbn [fold_left].
  - exists []. rewrite app_nil_r. split; [reflexivity|apply once_only_refl].
  - destruct (drom_process_ad_once id env chat_id a st log) as (e1 & Hl1 & H1).
    destruct (Drom.process_ad env chat_id (st, log) a) as [st1 log1].
    cbn [fst snd] in *. subst log1.
    destruct (IH st1 (log ++ e1)) as (e2 & Hl2 & H2).
    exists (e1 ++ e2). rewrite Hl2, app_assoc. split; [reflexivity|].
    now apply once_only_trans with st1.
Qed.

Lemma drom_loop_body_once (id : string) (interval : Z) (env : Drom.tick_env)
    (st : Storage) :
  once_only id st (snd (fst (Drom.loop_body interval env st)))
    (fst (fst (Drom.loop_body interval env st))).
Proof.
  unfold Drom.loop_body.
  set (idle := negb (Py.truthy (get_kv KEY_WATCH_URL st))
               || negb (Py.truthy (get_kv KEY_CHAT_ID st))).
  destruct (idle && negb (Drom.te_idle_signal env)).
  { cbn. apply once_only_silent. cbn. intuition (subst; reflexivity). }
  set (log0 := (if idle then [EvWait interval true] else [])
               ++ [EvCollect (get_kv KEY_WATCH_URL st)]).
  assert (H0 : once_only id st log0 st).
  { apply once_only_silent. unfold log0. destruct idle; cbn;
      intuition (subst; reflexivity). }
  destruct (Drom.te_collect env) as [ads|]; [|exact H0].
  unfold Drom.process_ads.
  destruct (drom_fold_once id env (get_kv KEY_CHAT_ID st) (rev ads) st log0)
    as (evs & Hlog & HR).
  destruct (fold_left _ _ _) as [st1 log1]. cbn [fst snd] in *. subst log1.
  eapply once_only_trans; [eapply once_only_trans; eauto|].
  apply once_only_silent. cbn. intuition (subst; reflexivity).
Qed.

Lemma drom_run_once (id : string) (interval : Z) (env : Drom.run_env)
    (st : Storage) :
  once_only id st (run_log (Drom._run interval env st))
    (run_store (Drom._run interval env st)).
Proof.
  unfold Drom._run, Drom.loop.
  set (log0 := match get_kv KEY_CHAT_ID st with Some _ => _ | None => _ end).
  assert (H0 : once_only id st log0 st).
  { apply once_only_silent. unfold log0.
    destruct (get_kv KEY_CHAT_ID st) as [c|]; [|intros e []].
    destruct (String.eqb c ""), (Drom.re_start_ok env); cbn;
      intuition (subst; reflexivity). }
  destruct (while_invariant (Drom.loop_body interval) (once_only id)
              (once_only_refl id)
              (fun s1 e1 s2 e2 s3 => once_only_trans id s1 s2 s3 e1 e2)
              (fun st line => once_only_silent id st [EvPrint line]
                 ltac:(cbn; intuition (subst; reflexivity)))
              (drom_loop_body_once id interval)
              (Drom.re_ticks env) (Drom.re_stop_early env) st log0)
    as (evs & Hlog & HR).
  rewrite Hlog. eapply once_only_trans; eauto.
Qed.

(** Over the whole life of the Drom (and youla) service, restarts
    included, whatever the adapter returns and whether or not the sends
    succeed, no id is handed to [_send_ad] twice, and an id already in the
    table is never handed to it, as long as the task is not cancelled
    inside [_send_ad]. *)
Lemma drom_at_most_once (id : string) (interval : Z)
    (runs : list Drom.run_env) :
  forall st : Storage,
    once_only id st (snd (Drom.lifetime interval runs st))
      (fst (Drom.lifetime interval runs st)).
Proof.
  induction runs as [|r runs IH]; intros st; cbn [Drom.lifetime].
  - apply once_only_refl.
  - pose proof (drom_run_once id interval r st) as H1.
    pose proof (IH (run_store (Drom._run interval r st))) as H2.
    destruct (Drom.lifetime interval runs _) as [st' log']. cbn [fst snd] in *.
    now apply once_only_trans with (run_store (Drom._run interval r st)).
Qed.

(** *** autoru.py: a recorded id is never dispatched *)

Lemma autoru_send_ad_silent (id : string) (cfg : Autoru.Config)
    (env : Autoru.tick_env) (a : ad) (sp : option string) :
  forall e, In e (fst (Autoru._send_ad cfg env a sp)) ->
            is_dispatch_of id e = false.
Proof.
  unfold Autoru._send_ad. intros e.
  destruct (Autoru.send_screenshot cfg && Py.truthy sp
            && Autoru.te_screenshot_exists env a),
    (Autoru.te_photo_ok env a), (Autoru.te_message_ok env a);
    cbn; intuition (subst; reflexivity).
Qed.

Lemma autoru_process_ad_seen (id : string) (cfg : Autoru.Config)
    (env : Autoru.tick_env) (chat_id : option string) (a : ad)
    (st : Storage) (log : list event) :
  exists evs,
    snd (Autoru.process_ad cfg env chat_id (st, log) a) = log ++ evs
    /\ seen_stays id st evs
         (fst (Autoru.process_ad cfg env chat_id (st, log) a)).
Proof.
  cbn [Autoru.process_ad]. destruct (is_new_ad (ad_id a) st) eqn:Hnew;
    cbn [negb]; [|exists []; rewrite app_nil_r; split;
                   [reflexivity|apply seen_stays_refl]].
  destruct (Autoru.te_details env a) as [sp created].
  assert (Hkeep : forall evs st',
             (st' = st \/ st' = save_ad (Autoru.te_now env) a st) ->
             (forall e, In e evs ->
                        is_dispatch_of id e = false
                        \/ e = EvDispatch chat_id (ad_id a)) ->
             seen_stays id st evs st').
  { intros evs st' Hst Hevs Hseen. split.
    - destruct Hst as [->| ->]; [exact Hseen|now apply is_new_ad_save_seen].
    - apply dispatch_count_none. intros e He.
      destruct (Hevs e He) as [H| ->]; [exact H|]. cbn.
      apply String.eqb_neq. congruence. }
  assert (Hsend : exists evs,
    snd (let '(evs, returned) := Autoru._send_ad cfg env a sp in
         if returned
         then (save_ad (Autoru.te_now env) a st,
               (log ++ [EvFetchDetails (ad_id a)])
               ++ [EvDispatch chat_id (ad_id a)] ++ evs ++ [EvSaveAd (ad_id a)])
         else (st, (log ++ [EvFetchDetails (ad_id a)])
                   ++ [EvDispatch chat_id (ad_id a)] ++ evs
                   ++ [EvPrint "[WARN] send/save failed"])) = log ++ evs
    /\ seen_stays id st evs
         (fst (let '(evs, returned) := Autoru._send_ad cfg env a sp in
               if returned
               then (save_ad (Autoru.te_now env) a st,
                     (log ++ [EvFetchDetails (ad_id a)])
                     ++ [EvDispatch chat_id (ad_id a)] ++ evs
                     ++ [EvSaveAd (ad_id a)])
               else (st, (log ++ [EvFetchDetails (ad_id a)])
                         ++ [EvDispatch chat_id (ad_id a)] ++ evs
                         ++ [EvPrint "[WARN] send/save failed"])))).
  { pose proof (autoru_send_ad_silent id cfg env a sp) as Hsil.
    destruct (Autoru._send_ad cfg env a sp) as [evs [|]]; cbn [fst snd] in *.
    - exists ([EvFetchDetails (ad_id a)] ++ [EvDispatch chat_id (ad_id a)]
              ++ evs ++ [EvSaveAd (ad_id a)]).
      split; [now rewrite <- app_assoc|]. apply Hkeep; [now right|].
      intros e He. cbn in He. rewrite in_app_iff in He. cbn in He.
      destruct He as [<-|[<-|[He|[<-|[]]]]]; auto.
    - exists ([EvFetchDetails (ad_id a)] ++ [EvDispatch chat_id (ad_id a)]
              ++ evs ++ [EvPrint "[WARN] send/save failed"]).
      split; [now rewrite <- app_assoc|]. apply Hkeep; [now left|].
      intros e He. cbn in He. rewrite in_app_iff in He. cbn in He.
      destruct He as [<-|[<-|[He|[<-|[]]]]]; auto. }
  destruct (0 <=? Autoru.fresh_days cfg); [|exact Hsend].
  destruct (Autoru.is_fresh _ _ _) as [[|]|]; [exact Hsend| |].
  - exists ([EvFetchDetails (ad_id a)]
            ++ [EvPrint "[skip stale]"; EvSaveAd (ad_id a)]).
    cbn [fst snd]. split; [now rewrite <- app_assoc|].
    apply Hkeep; [now right|]. cbn. intuition (subst; auto).
  - exists ([EvFetchDetails (ad_id a)] ++ [EvPrint "[WARN] send/save failed"]).
    cbn [fst snd]. split; [now rewrite <- app_assoc|].
    apply Hkeep; [now left|]. cbn. intuition (subst; auto).
Qed.

Lemma autoru_fold_seen (id : string) (cfg : Autoru.Config)
    (env : Autoru.tick_env) (chat_id : option string) (l : list ad) :
  forall (st : Storage) (log : list event),
  exists evs,
    snd (fold_left (Autoru.process_ad cfg env chat_id) l (st, log)) = log ++ evs
    /\ seen_stays id st evs
         (fst (fold_left (Autoru.process_ad cfg env chat_id) l (st, log))).
Proof.
  induction l as [|a l IH]; intros st log; cbn [fold_left].
  - exists []. rewrite app_nil_r. split; [reflexivity|apply seen_stays_refl].
  - destruct (autoru_process_ad_seen id cfg env chat_id a st log)
      as (e1 & Hl1 & H1).
    destruct (Autoru.process_ad cfg env chat_id (st, log) a) as [st1 log1].
    cbn [fst snd] in *. subst log1.
    destruct (IH st1 (log ++ e1)) as (e2 & Hl2 & H2).
    exists (e1 ++ e2). rewrite Hl2, app_assoc. split; [reflexivity|].
    now apply seen_stays_trans with st1.
Qed.

Lemma autoru_loop_body_seen (id : string) (cfg : Autoru.Config)
    (env : Autoru.tick_env) (st : Storage) :
  seen_stays id st (snd (fst (Autoru.loop_body cfg env st)))
    (fst (fst (Autoru.loop_body cfg env st))).
Proof.
  unfold Autoru.loop_body.
  set (idle := negb (Py.truthy (get_kv KEY_WATCH_URL st))
               || negb (Py.truthy (get_kv KEY_CHAT_ID st))).
  destruct (idle && negb (Autoru.te_idle_signal env)).
  { cbn. apply seen_stays_silent. cbn. intuition (subst; reflexivity). }
  set (log0 := (if idle then [EvWait (Autoru.cfg_interval cfg) true] else [])
               ++ [EvCollect (get_kv KEY_WATCH_URL st)]).
  assert (H0 : seen_stays id st log0 st).
  { apply seen_stays_silent. unfold log0. destruct idle; cbn;
      intuition (subst; reflexivity). }
  destruct (Autoru.te_collect env) as [ads|]; [|exact H0].
  unfold Autoru.process_ads.
  destruct (autoru_fold_seen id cfg env (get_kv KEY_CHAT_ID st) (rev ads) st log0)
    as (evs & Hlog & HR).
  destruct (fold_left _ _ _) as [st1 log1]. cbn [fst snd] in *. subst log1.
  eapply seen_stays_trans; [eapply seen_stays_trans; eauto|].
  apply seen_stays_silent. cbn. intuition (subst; reflexivity).
Qed.

(** Once an id is in the table, no later pass of the autoru loop
    dispatches it. *)
Lemma autoru_seen_never_dispatched (id : string) (cfg : Autoru.Config)
    (envs : list Autoru.tick_env) (b : bool) (st : Storage)
    (log : list event) :
  is_new_ad id st = false ->
  dispatch_count id (run_log (Autoru.loop cfg envs b st log))
  = dispatch_count id log
  /\ is_new_ad id (run_store (Autoru.loop cfg envs b st log)) = false.
Proof.
  intros Hseen. unfold Autoru.loop.
  destruct (while_invariant (Autoru.loop_body cfg) (seen_stays id)
              (seen_stays_refl id)
              (fun s1 e1 s2 e2 s3 => seen_stays_trans id s1 s2 s3 e1 e2)
              (fun st line => seen_stays_silent id st [EvPrint line]
                 ltac:(cbn; intuition (subst; reflexivity)))
              (autoru_loop_body_seen id cfg) envs b st log)
    as (evs & Hlog & HR).
  destruct (HR Hseen) as [Hs Hc]. rewrite Hlog, dispatch_count_app, Hc.
  split; [lia|exact Hs].
Qed.

(** ** Freshness (autoru.py) *)

(** C10, as worded, fails: with [fresh_days] beyond the range of
    [timedelta] the predicate raises for an ad posted today instead of
    answering true. *)
Lemma is_fresh_overflow :
  0 <= 1000000000
  /\ 0 <= 100 - 100 <= 1000000000
  /\ Autoru.is_fresh 100 (Some 100) 1000000000 = None.
Proof. repeat split; try discriminate; reflexivity. Qed.

(** C10 (amended): for [0 <= fresh_days], with the bound
    [fresh_days <= 999999999] of [timedelta], [is_fresh] returns and
    answers true exactly when [created] is a date with
    [0 <= today - created <= fresh_days]. For every [fresh_days >= 0], a
    new candidate whose date is missing or in the future is saved by the
    pass without being dispatched, and no later pass dispatches it. *)
Theorem is_fresh_iff_and_stale_recorded (cfg : Autoru.Config)
    (env : Autoru.tick_env) (chat_id : option string) (st : Storage)
    (log : list event) (a : ad) (today : Z) (created : option Z) :
  0 <= Autoru.fresh_days cfg ->
  (Autoru.fresh_days cfg <= Autoru.TIMEDELTA_MAX_DAYS ->
     Autoru.is_fresh today created (Autoru.fresh_days cfg) <> None
     /\ (Autoru.is_fresh today created (Autoru.fresh_days cfg) = Some true
         <-> exists c, created = Some c
                       /\ 0 <= today - c <= Autoru.fresh_days cfg))
  /\ (is_new_ad (ad_id a) st = true ->
      snd (Autoru.te_details env a) = created ->
      Autoru.te_today env a = today ->
      (created = None \/ exists c, created = Some c /\ today < c) ->
      let r := Autoru.process_ad cfg env chat_id (st, log) a in
      is_new_ad (ad_id a) (fst r) = false
      /\ dispatched (snd r) = dispatched log
      /\ forall envs b log',
           dispatch_count (ad_id a)
             (run_log (Autoru.loop cfg envs b (fst r) log'))
           = dispatch_count (ad_id a) log').
Proof.
  intros Hfd. split.
  - intros Hmax. unfold Autoru.is_fresh, Autoru.timedelta_days.
    destruct created as [c|].
    + destruct (0 <=? today - c) eqn:Hd.
      * apply Z.leb_le in Hd.
        destruct (Z.abs (Autoru.fresh_days cfg) <=? Autoru.TIMEDELTA_MAX_DAYS)
          eqn:Habs; [|apply Z.leb_gt in Habs; lia].
        split; [discriminate|]. split.
        -- intros [= Hle]. apply Z.leb_le in Hle. exists c. split; [reflexivity|lia].
        -- intros (c' & [= <-] & H0 & Hle). f_equal. now apply Z.leb_le.
      * apply Z.leb_gt in Hd. split; [discriminate|]. split; [discriminate|].
        intros (c' & [= <-] & H0 & _). lia.
    + split; [discriminate|]. split; [discriminate|].
      intros (c' & Hc & _). discriminate.
  - intros Hnew Hdet Htoday Hstale r.
    assert (Hfresh : Autoru.is_fresh today created (Autoru.fresh_days cfg)
                     = Some false).
    { unfold Autoru.is_fresh. destruct Hstale as [->|(c & -> & Hlt)];
        [reflexivity|].
      destruct (0 <=? today - c) eqn:Hd; [apply Z.leb_le in Hd; lia|reflexivity]. }
    assert (Hr : r = (save_ad (Autoru.te_now env) a st,
                      (log ++ [EvFetchDetails (ad_id a)])
                      ++ [EvPrint "[skip stale]"; EvSaveAd (ad_id a)])).
    { unfold r. cbn [Autoru.process_ad]. rewrite Hnew. cbn [negb].
      destruct (Autoru.te_details env a) as [sp cr]. cbn [snd] in Hdet.
      subst cr. rewrite Htoday, Hfresh.
      destruct (0 <=? Autoru.fresh_days cfg) eqn:H0;
        [reflexivity|apply Z.leb_gt in H0; lia]. }
    rewrite Hr. cbn [fst snd]. split; [apply is_new_ad_save_same|].
    split; [rewrite !dispatched_app; cbn; now rewrite !app_nil_r|].
    intros envs b log'.
    apply autoru_seen_never_dispatched, is_new_ad_save_same.
Qed.

Lemma is_fresh_iff_and_stale_recorded_witness :
  (Autoru.fresh_days autoru_cfg <= Autoru.TIMEDELTA_MAX_DAYS ->
     Autoru.is_fresh 100 None (Autoru.fresh_days autoru_cfg) <> None
     /\ (Autoru.is_fresh 100 None (Autoru.fresh_days autoru_cfg) = Some true
         <-> exists c, @None Z = Some c
                       /\ 0 <= 100 - c <= Autoru.fresh_days autoru_cfg))
  /\ (is_new_ad (ad_id (sample_ad "1" "")) configured_storage = true ->
      snd (Autoru.te_details (autoru_tick true None) (sample_ad "1" "")) = None ->
      Autoru.te_today (autoru_tick true None) (sample_ad "1" "") = 100 ->
      (@None Z = None \/ exists c, @None Z = Some c /\ 100 < c) ->
      let r := Autoru.process_ad autoru_cfg (autoru_tick true None) (Some "42")
                 (configured_storage, []) (sample_ad "1" "") in
      is_new_ad (ad_id (sample_ad "1" "")) (fst r) = false
      /\ dispatched (snd r) = dispatched []
      /\ forall envs b log',
           dispatch_count (ad_id (sample_ad "1" ""))
             (run_log (Autoru.loop autoru_cfg envs b (fst r) log'))
           = dispatch_count (ad_id (sample_ad "1" "")) log').
Proof.
  apply (is_fresh_iff_and_stale_recorded autoru_cfg (autoru_tick true None)
           (Some "42") configured_storage [] (sample_ad "1" "") 100 None).
  vm_compute. discriminate.
Defined.

(** ** Delivery failures (autoru.py) *)

(** C3 at its failing input: a new, fresh ad whose [send_message] raises
    is dispatched and the pass ends without saving it. *)
Theorem autoru_failed_send_not_recorded :
  Autoru.loop_body autoru_cfg (autoru_tick false (Some 100)) configured_storage
  = (configured_storage,
     [EvCollect (Some "https://auto.drom.ru/region43/all/");
      EvFetchDetails "1"; EvDispatch (Some "42") "1";
      EvSendMessage "1" false; EvPrint "[WARN] send/save failed";
      EvWait 60 false],
     BodyNext false)
  /\ is_new_ad "1" configured_storage = true.
Proof. split; reflexivity. Qed.

(** C2 at its failing input: the ad of the failed pass is dispatched
    again by the next pass. *)
Theorem autoru_failed_send_dispatched_twice :
  let r := Autoru.loop autoru_cfg
             [autoru_tick false (Some 100); autoru_tick true (Some 100)]
             false configured_storage [] in
  dispatched (run_log r) = ["1"; "1"]
  /\ dispatch_count "1" (run_log r) = 2%nat
  /\ run_status r = TaskAlive.
Proof. repeat split. Qed.

(** The same script on Drom.py: the failed send is caught inside
    [_send_ad], the ad is saved, the next pass skips it. *)
Lemma drom_failed_send_recorded :
  let r := Drom.loop 5 [drom_tick (Some [sample_ad "1" ""]) false false;
                        drom_tick (Some [sample_ad "1" ""]) false true]
             false configured_storage [] in
  dispatched (run_log r) = ["1"]
  /\ is_new_ad "1" (run_store r) = false.
Proof. split; reflexivity. Qed.

(** ** The idle wait *)

(** With the URL or the chat unset and no stop during the wait, the pass
    is the timed wait and nothing else: the adapter is not called. *)
Lemma idle_timeout_skips_adapter (interval : Z) (env : Drom.tick_env)
    (st : Storage) :
  Py.truthy (get_kv KEY_WATCH_URL st) = false
  \/ Py.truthy (get_kv KEY_CHAT_ID st) = false ->
  Drom.te_idle_signal env = false ->
  Drom.loop_body interval env st = (st, [EvWait interval false], BodyNext false).
Proof.
  intros Hidle Hsig. unfold Drom.loop_body. rewrite Hsig.
  destruct Hidle as [-> | ->]; cbn [negb orb andb]; [reflexivity|].
  now rewrite orb_true_r.
Qed.

(** When the stop arrives during the idle wait, [wait_for] returns
    normally, no [continue] is reached, and the pass goes on to the
    adapter with the unset configuration. *)
Lemma idle_signal_reaches_adapter (interval : Z) (env : Drom.tick_env)
    (st : Storage) :
  Py.truthy (get_kv KEY_WATCH_URL st) = false
  \/ Py.truthy (get_kv KEY_CHAT_ID st) = false ->
  Drom.te_idle_signal env = true ->
  exists rest,
    snd (fst (Drom.loop_body interval env st))
    = [EvWait interval true; EvCollect (get_kv KEY_WATCH_URL st)] ++ rest.
Proof.
  intros Hidle Hsig. unfold Drom.loop_body. rewrite Hsig.
  assert (Hi : negb (Py.truthy (get_kv KEY_WATCH_URL st))
               || negb (Py.truthy (get_kv KEY_CHAT_ID st)) = true).
  { destruct Hidle as [-> | ->]; cbn [negb orb]; [reflexivity|apply orb_true_r]. }
  rewrite Hi. cbn [negb andb].
  destruct (Drom.te_collect env) as [ads|]; [|now exists []].
  unfold Drom.process_ads.
  destruct (drom_fold_once "" env (get_kv KEY_CHAT_ID st) (rev ads) st
              ([EvWait interval true] ++ [EvCollect (get_kv KEY_WATCH_URL st)]))
    as (evs & Hlog & _).
  destruct (fold_left _ _ _) as [st1 log1]. cbn [fst snd] in *. subst log1.
  eexists. rewrite <- !app_assoc. reflexivity.
Qed.


Lemma adapter_calls_app (l1 l2 : list event) :
  adapter_calls (l1 ++ l2) = (adapter_calls l1 + adapter_calls l2)%nat.
Proof. unfold adapter_calls. now rewrite filter_app, length_app. Qed.

Lemma adapter_calls_none (l : list event) :
  (forall e, In e l -> is_collect e = false) -> adapter_calls l = 0%nat.
Proof.
  induction l as [|e l IH]; intros H; [reflexivity|].
  unfold adapter_calls in *. rewrite filter_cons, decide_False.
  - apply IH. intros e' He'. apply H. now right.
  - rewrite (H e) by now left. discriminate.
Qed.

Lemma drom_fold_no_adapter_call (env : Drom.tick_env)
    (chat_id : option string) (l : list ad) :
  forall (st : Storage) (log : list event),
  exists evs,
    snd (fold_left (Drom.process_ad env chat_id) l (st, log)) = log ++ evs
    /\ adapter_calls evs = 0%nat.
Proof.
  induction l as [|a l IH]; intros st log; cbn [fold_left].
  - exists []. now rewrite app_nil_r.
  - cbn [Drom.process_ad]. destruct (is_new_ad (ad_id a) st); [|apply IH].
    destruct (IH (save_ad (Drom.te_now env) a st)
                (log ++ [EvDispatch chat_id (ad_id a)] ++ Drom._send_ad env a
                     ++ [EvSaveAd (ad_id a)])) as (evs & Hlog & Hc).
    exists (([EvDispatch chat_id (ad_id a)] ++ Drom._send_ad env a
             ++ [EvSaveAd (ad_id a)]) ++ evs).
    rewrite Hlog. split; [now rewrite <- !app_assoc|].
    rewrite adapter_calls_app, Hc, Nat.add_0_r.
    apply adapter_calls_none. intros e He.
    apply in_app_or in He as [He|He];
      [|apply in_app_or in He as [He|He]].
    + destruct He as [<-|[]]. reflexivity.
    + revert He. unfold Drom._send_ad.
      destruct (Py.truthy _), (Drom.te_photo_ok env a),
        (Drom.te_message_ok env a); cbn; intuition (subst; reflexivity).
    + destruct He as [<-|[]]. reflexivity.
Qed.

Lemma while_stop_set {Env : Type}
    (body : Env -> Storage -> Storage * list event * body_end)
    (envs : list Env) (st : Storage) (log : list event) :
  while_not_stopped body envs true st log = mk_run st log TaskReturned.
Proof. now destruct envs. Qed.



(** ** Exceptions that leave the loop body *)

Lemma while_alive_app {Env : Type}
    (body : Env -> Storage -> Storage * list event * body_end)
    (pre post : list Env) :
  forall (b : bool) (st : Storage) (log : list event),
    run_status (while_not_stopped body pre b st log) = TaskAlive ->
    while_not_stopped body (pre ++ post) b st log
    = while_not_stopped body post false
        (run_store (while_not_stopped body pre b st log))
        (run_log (while_not_stopped body pre b st log)).
Proof.
  induction pre as [|env pre IH]; intros b st log Halive.
  - destruct b; [discriminate|reflexivity].
  - destruct b; [discriminate|]. cbn [while_not_stopped app] in *.
    destruct (body env st) as [[st' evs] [stop'|]]; [|discriminate].
    now apply IH.
Qed.

Lemma while_raise_ends {Env : Type}
    (body : Env -> Storage -> Storage * list event * body_end)
    (pre post : list Env) (env : Env) (st : Storage) (log : list event) :
  let r1 := while_not_stopped body pre false st log in
  run_status r1 = TaskAlive ->
  snd (body env (run_store r1)) = BodyRaised ->
  while_not_stopped body (pre ++ env :: post) false st log
  = mk_run (fst (fst (body env (run_store r1))))
      (run_log r1 ++ snd (fst (body env (run_store r1)))
       ++ [EvPrint "[ERROR] parser loop"])
      TaskFailed.
Proof.
  intros r1 Halive Hraise. rewrite while_alive_app by exact Halive.
  fold r1. cbn [while_not_stopped].
  destruct (body env (run_store r1)) as [[st' evs] e]. cbn in Hraise. now subst e.
Qed.

Lemma while_returned_stop {Env : Type}
    (body : Env -> Storage -> Storage * list event * body_end)
    (envs : list Env) :
  forall (st : Storage) (log : list event),
    run_status (while_not_stopped body envs false st log) = TaskReturned ->
    exists env st', In env envs /\ snd (body env st') = BodyNext true.
Proof.
  induction envs as [|env envs IH]; intros st log H; [discriminate|].
  cbn [while_not_stopped] in H.
  destruct (body env st) as [[st' evs] [stop'|]] eqn:E; [|discriminate].
  destruct stop'.
  - exists env, st. split; [now left|]. now rewrite E.
  - destruct (IH _ _ H) as (env' & st'' & Hin & Hb).
    exists env', st''. split; [now right|exact Hb].
Qed.

Lemma drom_body_raised (interval : Z) (env : Drom.tick_env) (st : Storage) :
  snd (Drom.loop_body interval env st) = BodyRaised ->
  Drom.te_collect env = None
  /\ fst (fst (Drom.loop_body interval env st)) = st
  /\ dispatched (snd (fst (Drom.loop_body interval env st))) = [].
Proof.
  unfold Drom.loop_body.
  destruct (_ && negb (Drom.te_idle_signal env)); [discriminate|].
  destruct (Drom.te_collect env) as [ads|].
  - destruct (Drom.process_ads _ _ _ _). discriminate.
  - intros _. repeat split. cbn [fst snd]. rewrite dispatched_app.
    now destruct (_ || _).
Qed.

Lemma drom_body_stop (interval : Z) (env : Drom.tick_env) (st : Storage) :
  snd (Drom.loop_body interval env st) = BodyNext true ->
  Drom.te_idle_signal env = true \/ Drom.te_sleep_signal env = true.
Proof.
  unfold Drom.loop_body.
  destruct (Drom.te_idle_signal env); [now left|]. rewrite andb_true_r.
  destruct (_ || _); [discriminate|]. cbn [negb andb orb].
  destruct (Drom.te_collect env) as [ads|]; [|discriminate].
  destruct (Drom.process_ads _ _ _ _). cbn. intros [= ->]. now right.
Qed.

(** C4, as worded, fails: [collect_ads] raises in the first pass, no
    stop is ever requested, and the task is over; the second pass, with
    its new ad, is never run. *)
Lemma loop_does_not_survive_exception :
  Drom.loop 5 [drom_tick None false true;
               drom_tick (Some [sample_ad "1" ""]) false true]
    false configured_storage []
  = mk_run configured_storage
      [EvCollect (Some "https://auto.drom.ru/region43/all/");
       EvPrint "[ERROR] parser loop"]
      TaskFailed.
Proof. reflexivity. Qed.

(** C4 (amended): an exception that leaves one pass of the loop body is
    caught by the handler around the whole while loop and printed, and
    the task is over: the passes after it are not run, nothing is
    dispatched or saved by the failing pass. A task that returned has
    seen the stop event set in one of its waits. *)
Theorem exception_ends_polling_task (interval : Z)
    (pre post : list Drom.tick_env) (env : Drom.tick_env)
    (st : Storage) (log : list event) :
  let r1 := Drom.loop interval pre false st log in
  run_status r1 = TaskAlive ->
  snd (Drom.loop_body interval env (run_store r1)) = BodyRaised ->
  let r := Drom.loop interval (pre ++ env :: post) false st log in
  run_status r = TaskFailed
  /\ run_store r = run_store r1
  /\ run_log r = run_log r1
                 ++ snd (fst (Drom.loop_body interval env (run_store r1)))
                 ++ [EvPrint "[ERROR] parser loop"]
  /\ dispatched (run_log r) = dispatched (run_log r1)
  /\ forall envs st0 log0,
       run_status (Drom.loop interval envs false st0 log0) = TaskReturned ->
       exists e, In e envs
                 /\ (Drom.te_idle_signal e = true \/ Drom.te_sleep_signal e = true).
Proof.
  intros r1 Halive Hraise r. subst r r1. unfold Drom.loop in *.
  destruct (drom_body_raised interval env _ Hraise) as (_ & Hst & Hdisp).
  rewrite (while_raise_ends (Drom.loop_body interval) pre post env st log
             Halive Hraise).
  cbn [run_status run_store run_log].
  split; [reflexivity|]. split; [exact Hst|]. split; [reflexivity|].
  split.
  - rewrite !dispatched_app, Hdisp. cbn. now rewrite app_nil_r.
  - intros envs st0 log0 Hret.
    destruct (while_returned_stop _ envs st0 log0 Hret) as (e & st' & Hin & Hb).
    exists e. split; [exact Hin|]. eapply drom_body_stop; eauto.
Qed.

Lemma exception_ends_polling_task_witness :
  let r := Drom.loop 5 ([] ++ drom_tick None false true
                           :: [drom_tick (Some [sample_ad "1" ""]) false true])
             false configured_storage [] in
  run_status r = TaskFailed
  /\ run_store r = configured_storage
  /\ run_log r = [EvCollect (Some "https://auto.drom.ru/region43/all/");
                  EvPrint "[ERROR] parser loop"]
  /\ dispatched (run_log r) = []
  /\ forall envs st0 log0,
       run_status (Drom.loop 5 envs false st0 log0) = TaskReturned ->
       exists e, In e envs
                 /\ (Drom.te_idle_signal e = true \/ Drom.te_sleep_signal e = true).
Proof.
  apply (exception_ends_polling_task 5 []
           [drom_tick (Some [sample_ad "1" ""]) false true]
           (drom_tick None false true) configured_storage []).
  - reflexivity.
  - reflexivity.
Defined.

(** The same holds of the loop of autoru.py. *)
Lemma autoru_exception_ends_polling_task (cfg : Autoru.Config)
    (pre post : list Autoru.tick_env) (env : Autoru.tick_env)
    (st : Storage) (log : list event) :
  let r1 := Autoru.loop cfg pre false st log in
  run_status r1 = TaskAlive ->
  snd (Autoru.loop_body cfg env (run_store r1)) = BodyRaised ->
  let r := Autoru.loop cfg (pre ++ env :: post) false st log in
  run_status r = TaskFailed
  /\ run_log r = run_log r1
                 ++ snd (fst (Autoru.loop_body cfg env (run_store r1)))
                 ++ [EvPrint "[ERROR] parser loop"].
Proof.
  intros r1 Halive Hraise r. unfold r, Autoru.loop.
  rewrite (while_raise_ends (Autoru.loop_body cfg) pre post env st log
             Halive Hraise).
  split; reflexivity.
Qed.

(** ** start and stop *)

Lemma live_tasks_app (w : World) (l : list bool) :
  length (filter (fun d => d = false) (tasks w ++ l))
  = (live_tasks w + length (filter (fun d => d = false) l))%nat.
Proof. unfold live_tasks. now rewrite filter_app, length_app. Qed.

Lemma live_insert_done (l : list bool) :
  forall t, l !! t = Some false ->
    S (length (filter (fun d => d = false) (<[t := true]> l)))
    = length (filter (fun d => d = false) l).
Proof.
  induction l as [|x l IH]; intros [|t] H; try discriminate.
  - cbn in H. injection H as ->.
    change (<[0%nat := true]> (false :: l)) with (true :: l).
    rewrite !filter_cons, decide_False, decide_True by done. reflexivity.
  - cbn in H. change (<[S t := true]> (x :: l)) with (x :: <[t := true]> l).
    rewrite !filter_cons.
    destruct (decide (x = false)); cbn [length]; now rewrite <- (IH t H).
Qed.

Lemma insert_done_id (l : list bool) (t : nat) :
  default true (l !! t) = true -> <[t := true]> l = l.
Proof.
  intros H. destruct (l !! t) as [x|] eqn:E.
  - cbn in H. subst x. now apply list_insert_id.
  - apply list_insert_ge. now apply lookup_ge_None.
Qed.

Lemma is_running_task (w : World) :
  is_running w = true ->
  exists t, _task (svc w) = Some t /\ tasks w !! t = Some false.
Proof.
  unfold is_running, task_done. destruct (_task (svc w)) as [t|]; [|discriminate].
  intros H. exists t. split; [reflexivity|].
  destruct (tasks w !! t) as [[|]|]; cbn in H; congruence.
Qed.

Lemma start_running (w : World) : is_running w = true -> start w = w.
Proof. intros H. unfold start. now rewrite H. Qed.

Lemma stop_idle (d : option Z) (w : World) :
  is_running w = false -> stop d w = (w, (false, 0)).
Proof. intros H. unfold stop. now rewrite H. Qed.

Lemma wait_for_bounded (d : option Z) (timeout : Z) :
  0 <= snd (wait_for d timeout) <= Z.max 0 timeout
  /\ (fst (wait_for d timeout) = true
      <-> timeout <= 0
          \/ match d with Some t => timeout < t | None => True end).
Proof.
  unfold wait_for. destruct d as [t|]; cbn; [|split; [lia|tauto]].
  destruct (0 <? timeout) eqn:E0; destruct (t <=? timeout) eqn:E; cbn;
    try apply Z.ltb_lt in E0; try apply Z.ltb_ge in E0;
    try apply Z.leb_le in E; try apply Z.leb_gt in E;
    (split; [lia|]); (split; [try discriminate; intros _; lia|]);
    try reflexivity; lia.
Qed.

Lemma stop_running (d : option Z) (w : World) :
  svc_consistent w -> is_running w = true ->
  is_running (fst (stop d w)) = false
  /\ _task (svc (fst (stop d w))) = None
  /\ _stop_event (svc (fst (stop d w))) = None
  /\ (exists e, _stop_event (svc w) = Some e
                /\ events (fst (stop d w)) !! e = Some true)
  /\ 0 <= snd (snd (stop d w)) <= Z.max 0 (interval (svc w) + FIXED_GRACE)
  /\ (fst (snd (stop d w)) = true
      <-> interval (svc w) + FIXED_GRACE <= 0
          \/ match d with
             | Some t => interval (svc w) + FIXED_GRACE < t
             | None => True
             end)
  /\ live_tasks (fst (stop d w)) = 0%nat
  /\ store (fst (stop d w)) = store w
  /\ interval (svc (fst (stop d w))) = interval (svc w).
Proof.
  intros [Hlive Hev] Hrun.
  destruct (is_running_task w Hrun) as (t & Ht & Hlook).
  destruct (Hev t Ht) as (e & He & Hlt).
  unfold stop. rewrite Hrun, Ht, He. cbn [negb fst snd].
  pose proof (wait_for_bounded d (interval (svc w) + FIXED_GRACE))
    as [Hb Hto].
  repeat split; try tauto; try lia.
  - exists e. split; [reflexivity|]. cbn. now apply list_lookup_insert_eq.
  - unfold live_tasks. cbn [tasks].
    pose proof (live_insert_done (tasks w) t Hlook) as Hs.
    rewrite Hrun in Hlive. unfold live_tasks in Hlive. lia.
Qed.

(** [stop] of autoru.py on a running service. *)
Lemma autoru_stop_running (f : Autoru.task_fate) (w : World) :
  svc_consistent w -> is_running w = true ->
  let timeout := interval (svc w) + FIXED_GRACE in
  let w' := fst (Autoru.stop f w) in
  is_running w' = false
  /\ live_tasks w' = 0%nat
  /\ store w' = store w
  /\ interval (svc w') = interval (svc w)
  /\ (exists e, _stop_event (svc w) = Some e /\ events w' !! e = Some true)
  /\ match snd (Autoru.stop f w) with
     | Autoru.StopNothing => False
     | Autoru.StopReturned timed_out waited =>
         _task (svc w') = None /\ _stop_event (svc w') = None
         /\ 0 <= waited <= Z.max 0 timeout
         /\ (timed_out = true
             <-> timeout <= 0
                 \/ match Autoru.fate_time f with
                    | Some t => timeout < t
                    | None => True
                    end)
         /\ (timed_out = false -> forall t, f <> Autoru.FateRaises t false)
     | Autoru.StopRaised waited =>
         svc w' = svc w
         /\ 0 <= waited <= timeout
         /\ exists t, f = Autoru.FateRaises t false /\ t <= timeout
     end.
Proof.
  intros [Hlive Hev] Hrun timeout w'.
  destruct (is_running_task w Hrun) as (t & Ht & Hlook).
  destruct (Hev t Ht) as (e & He & Hlt).
  pose proof (live_insert_done (tasks w) t Hlook) as Hs.
  rewrite Hrun in Hlive. unfold live_tasks in Hlive.
  pose proof (wait_for_bounded (Autoru.fate_time f) timeout) as [Hb Hto].
  assert (Hdone : default true (<[t := true]> (tasks w) !! t) = true).
  { rewrite list_lookup_insert_eq by (now apply lookup_lt_Some with false).
    reflexivity. }
  assert (Hset : <[e := true]> (events w) !! e = Some true)
    by now apply list_lookup_insert_eq.
  unfold w', Autoru.stop. rewrite Hrun, Ht, He. cbn [negb].
  fold timeout.
  destruct (wait_for (Autoru.fate_time f) timeout) as [timed_out waited].
  cbn [fst snd] in Hb, Hto.
  destruct f as [a|a [|]|]; destruct timed_out; cbn [fst snd];
    unfold is_running, task_done, live_tasks;
    cbn [svc _task _stop_event tasks events store interval];
    rewrite ?Ht, ?Hdone; cbn [negb];
    (split; [reflexivity|]); (split; [lia|]); (split; [reflexivity|]);
    (split; [reflexivity|]); (split; [now exists e|]);
    cbn [Autoru.fate_time] in Hto.
  - repeat split; try lia; try tauto; discriminate.
  - repeat split; try lia; try tauto; discriminate.
  - repeat split; try lia; try tauto; discriminate.
  - repeat split; try lia; try tauto; discriminate.
  - repeat split; try lia; try tauto; discriminate.
  - assert (Hn : ~ (timeout <= 0 \/ timeout < a)).
    { intros Hc. apply Hto in Hc. discriminate. }
    split; [reflexivity|].
    split; [lia|]. exists a. split; [reflexivity|lia].
  - repeat split; try lia; try tauto; discriminate.
  - exfalso.
    assert (Hc : false = true) by (apply Hto; now right). discriminate.
Qed.

Lemma svc_consistent_same (w w' : World) :
  svc w' = svc w -> tasks w' = tasks w -> events w' = events w ->
  svc_consistent w -> svc_consistent w'.
Proof.
  intros Hs Ht He [Hlive Hev].
  unfold svc_consistent, live_tasks, is_running, task_done in *.
  rewrite Hs, Ht, He. now split.
Qed.

Lemma svc_consistent_start (w : World) :
  svc_consistent w -> svc_consistent (start w).
Proof.
  intros Hc. unfold start. destruct (is_running w) eqn:Hrun; [exact Hc|].
  destruct Hc as [Hlive Hev]. rewrite Hrun in Hlive. split.
  - unfold live_tasks at 1. cbn [tasks]. rewrite live_tasks_app, Hlive.
    unfold is_running, task_done. cbn [svc _task tasks].
    rewrite lookup_app_r by lia. rewrite Nat.sub_diag. reflexivity.
  - cbn [svc _task _stop_event events]. intros t _. eexists. split; [reflexivity|].
    rewrite length_app. cbn. lia.
Qed.

Lemma svc_consistent_stop (d : option Z) (w : World) :
  svc_consistent w -> svc_consistent (fst (stop d w)).
Proof.
  intros Hc. destruct (is_running w) eqn:Hrun.
  - destruct (is_running_task w Hrun) as (t & Ht & Hlook).
    destruct Hc as [Hlive Hev]. rewrite Hrun in Hlive.
    unfold stop. rewrite Hrun, Ht. cbn [negb fst]. split.
    + unfold is_running, live_tasks. cbn [svc _task tasks].
      pose proof (live_insert_done (tasks w) t Hlook).
      unfold live_tasks in Hlive. lia.
    + cbn [svc _task]. discriminate.
  - now rewrite stop_idle.
Qed.

Lemma svc_consistent_task_ends (w : World) :
  svc_consistent w -> svc_consistent (task_ends w).
Proof.
  intros Hc. unfold task_ends. destruct (_task (svc w)) as [t|] eqn:Ht;
    [|exact Hc].
  destruct (is_running w) eqn:Hrun.
  - destruct (is_running_task w Hrun) as (t' & Ht' & Hlook).
    assert (t' = t) by congruence. subst t'.
    destruct Hc as [Hlive Hev]. rewrite Hrun in Hlive. split.
    + unfold is_running, task_done, live_tasks. cbn [svc tasks]. rewrite Ht.
      rewrite list_lookup_insert_eq by (now apply lookup_lt_Some with false).
      cbn. pose proof (live_insert_done (tasks w) t Hlook).
      unfold live_tasks in Hlive. lia.
    + cbn [svc events]. exact Hev.
  - assert (Hid : <[t := true]> (tasks w) = tasks w).
    { apply insert_done_id. unfold is_running, task_done in Hrun.
      rewrite Ht in Hrun. now apply negb_false_iff. }
    rewrite Hid. eapply svc_consistent_same; eauto.
Qed.

Lemma svc_consistent_with_store (st : Storage) (w : World) :
  svc_consistent w -> svc_consistent (with_store st w).
Proof. now apply svc_consistent_same. Qed.

Lemma svc_consistent_with_mode (m : option string) (w : World) :
  svc_consistent w -> svc_consistent (with_mode m w).
Proof. now apply svc_consistent_same. Qed.

Lemma interval_start (w : World) : interval (svc (start w)) = interval (svc w).
Proof. unfold start. now destruct (is_running w). Qed.

Lemma interval_stop (d : option Z) (w : World) :
  interval (svc (fst (stop d w))) = interval (svc w).
Proof. unfold stop. now destruct (is_running w). Qed.

Lemma interval_task_ends (w : World) :
  interval (svc (task_ends w)) = interval (svc w).
Proof. unfold task_ends. now destruct (_task (svc w)). Qed.

Create HintDb svc.

#[local] Hint Resolve svc_consistent_start svc_consistent_stop
  svc_consistent_task_ends svc_consistent_with_store
  svc_consistent_with_mode : svc.

Section Handlers.
Context `{DateTimeLib}.
Variable cfg : Config.

Lemma apply_op_consistent (w : World) (o : Drom.op) :
  svc_consistent w ->
  svc_consistent (Drom.apply_op cfg w o)
  /\ interval (svc (Drom.apply_op cfg w o)) = interval (svc w).
Proof.
  intros Hc. destruct o; cbn [Drom.apply_op].
  - split; [auto with svc|reflexivity].
  - split; [auto with svc|reflexivity].
  - split; [auto with svc|reflexivity].
  - (* show_menu *)
    unfold Drom.show_menu. cbn [fst]. split; [auto with svc|reflexivity].
  - (* menu_button *)
    unfold Drom.menu_button.
    repeat match goal with
           | |- context [if ?b then _ else _] => destruct b
           end; cbn [fst];
      rewrite ?interval_start, ?interval_stop; cbn [with_store with_mode svc];
      rewrite ?interval_stop; (split; [auto 6 with svc|reflexivity]).
  - (* text_message *)
    unfold Drom.text_message, Drom.show_menu.
    destruct (_ || _); [split; [exact Hc|reflexivity]|].
    destruct (bool_decide _).
    + destruct (Drom.set_watch_url _ _ _) as [st2 [ok msg]]. cbn [fst].
      split; [auto with svc|reflexivity].
    + cbn [fst]. split; [auto with svc|reflexivity].
  - (* expiry_job *)
    unfold Drom.expiry_job, Drom.expiry_job_trace.
    destruct (_ && _); [|split; [exact Hc|reflexivity]].
    cbn [List.last]. destruct (is_running w); cbn [with_store svc];
      rewrite ?interval_stop; (split; [auto with svc|reflexivity]).
  - split; [auto with svc|apply interval_start].
  - split; [auto with svc|apply interval_stop].
  - split; [auto with svc|apply interval_task_ends].
  - split; [auto with svc|reflexivity].
Qed.

Lemma run_ops_consistent (ops : list Drom.op) :
  forall w : World,
    svc_consistent w ->
    svc_consistent (Drom.run_ops cfg ops w)
    /\ interval (svc (Drom.run_ops cfg ops w)) = interval (svc w).
Proof.
  unfold Drom.run_ops.
  induction ops as [|o ops IH]; intros w Hc; [now split|].
  cbn [fold_left].
  destruct (apply_op_consistent w o Hc) as [Hc' Hi].
  destruct (IH _ Hc') as [Hc'' Hi''].
  split; [exact Hc''|congruence].
Qed.
End Handlers.

Lemma autoru_stop_idle (f : Autoru.task_fate) (w : World) :
  is_running w = false -> Autoru.stop f w = (w, Autoru.StopNothing).
Proof. intros H. unfold Autoru.stop. now rewrite H. Qed.

Lemma svc_consistent_autoru_stop (f : Autoru.task_fate) (w : World) :
  svc_consistent w -> svc_consistent (fst (Autoru.stop f w)).
Proof.
  intros Hc. destruct (is_running w) eqn:Hrun;
    [|now rewrite autoru_stop_idle].
  destruct (autoru_stop_running f w Hc Hrun)
    as (Hnot & Hlive & _ & _ & _ & Hres).
  split; [now rewrite Hnot|].
  destruct Hc as [_ Hev].
  destruct (is_running_task w Hrun) as (t & Ht & _).
  destruct (Hev t Ht) as (e & He & Hlt).
  revert Hres. unfold Autoru.stop. rewrite Hrun, Ht, He. cbn [negb].
  destruct (wait_for _ _) as [timed_out waited].
  destruct f as [a|a [|]|], timed_out;
    cbn [fst snd svc _task _stop_event events];
    intros _ t'; try discriminate.
  intros _. exists e. split; [exact He|]. now rewrite length_insert.
Qed.

Lemma run_svc_ops_consistent (ops : list Autoru.svc_op) :
  forall w, svc_consistent w -> svc_consistent (Autoru.run_svc_ops ops w).
Proof.
  unfold Autoru.run_svc_ops.
  induction ops as [|o ops IH]; intros w Hc; [exact Hc|].
  cbn [fold_left]. apply IH.
  destruct o; cbn [Autoru.apply_svc_op];
    auto using svc_consistent_autoru_stop with svc.
Qed.



Example started_world_runs :
  is_running started_world = true
  /\ snd (stop None started_world) = (true, 10)
  /\ snd (stop (Some 3) started_world) = (false, 3).
Proof. repeat split. Qed.

(** autoru.py: the task raises one second after the stop signal, and
    [stop] raises with the handle still in place; with [--interval -10]
    the wait is over before it begins. *)
Example autoru_stop_outcomes :
  is_running autoru_started_world = true
  /\ snd (Autoru.stop (Autoru.FateRaises 1 false) autoru_started_world)
     = Autoru.StopRaised 1
  /\ _task (svc (fst (Autoru.stop (Autoru.FateRaises 1 false)
                        autoru_started_world)))
     = Some 0%nat
  /\ is_running (fst (Autoru.stop (Autoru.FateRaises 1 false)
                        autoru_started_world))
     = false
  /\ snd (Autoru.stop (Autoru.FateRaises 1 true) autoru_started_world)
     = Autoru.StopReturned false 1
  /\ snd (Autoru.stop (Autoru.FateReturns 1) autoru_started_world)
     = Autoru.StopReturned false 1
  /\ snd (Autoru.stop (Autoru.FateRaises 70 false) autoru_started_world)
     = Autoru.StopReturned true 65
  /\ snd (Autoru.stop (Autoru.FateReturns 0)
            (Autoru.run_svc_ops [Autoru.SvcStart] (autoru_world (-10))))
     = Autoru.StopReturned true 0.
Proof. repeat split. Qed.

(** ** Expiry and the lock *)

Lemma get_kv_set_kv_ne (k k' v : string) (st : Storage) :
  k <> k' -> get_kv k (set_kv k' v st) = get_kv k st.
Proof. intros Hne. unfold get_kv, set_kv. cbn. now rewrite lookup_insert_ne. Qed.

Lemma get_kv_set_kv_eq (k v : string) (st : Storage) :
  get_kv k (set_kv k v st) = Some v.
Proof. unfold get_kv, set_kv. cbn. now rewrite lookup_insert_eq. Qed.

Lemma is_locked_lock_forever (st : Storage) : is_locked (lock_forever st) = true.
Proof.
  unfold is_locked, lock_forever. rewrite get_kv_set_kv_eq.
  now apply bool_decide_eq_true.
Qed.

Lemma store_stop (d : option Z) (w : World) : store (fst (stop d w)) = store w.
Proof. unfold stop. now destruct (is_running w). Qed.

Lemma is_running_stop (d : option Z) (w : World) :
  is_running (fst (stop d w)) = false.
Proof. unfold stop. destruct (is_running w) eqn:E; [reflexivity|exact E]. Qed.

Lemma store_start (w : World) : store (start w) = store w.
Proof. unfold start. now destruct (is_running w). Qed.

Lemma store_task_ends (w : World) : store (task_ends w) = store w.
Proof. unfold task_ends. now destruct (_task (svc w)). Qed.

Lemma drom_fold_settings (env : Drom.tick_env) (chat_id : option string)
    (l : list ad) :
  forall acc : Storage * list event,
    tbl_settings (fst (fold_left (Drom.process_ad env chat_id) l acc))
    = tbl_settings (fst acc).
Proof.
  induction l as [|a l IH]; intros [st log]; [reflexivity|].
  cbn [fold_left]. rewrite IH. cbn [Drom.process_ad].
  destruct (is_new_ad (ad_id a) st); [apply save_ad_settings|reflexivity].
Qed.

(** The polling task writes to the table of ads only. *)
Lemma drom_loop_body_settings (interval : Z) (env : Drom.tick_env)
    (st : Storage) :
  tbl_settings (fst (fst (Drom.loop_body interval env st))) = tbl_settings st.
Proof.
  unfold Drom.loop_body. destruct (_ && negb _); [reflexivity|].
  destruct (Drom.te_collect env) as [ads|]; [|reflexivity].
  unfold Drom.process_ads.
  pose proof (drom_fold_settings env (get_kv KEY_CHAT_ID st) (rev ads)
                (st, (if negb (Py.truthy (get_kv KEY_WATCH_URL st))
                         || negb (Py.truthy (get_kv KEY_CHAT_ID st))
                      then [EvWait interval true] else [])
                     ++ [EvCollect (get_kv KEY_WATCH_URL st)])) as Hs.
  destruct (fold_left _ _ _) as [st1 log1]. exact Hs.
Qed.

Section Lock.
Context `{DateTimeLib}.
Variable cfg : Config.

Lemma latched_settings (st st' : Storage) :
  tbl_settings st' = tbl_settings st -> latched st -> latched st'.
Proof.
  unfold latched, is_locked, get_kv. now intros ->.
Qed.

Lemma latched_set_other (k v : string) (st : Storage) :
  k <> KEY_EXPIRY_AT -> k <> KEY_EXPIRED_LOCK ->
  latched st -> latched (set_kv k v st).
Proof.
  intros H1 H2 [He Hl]. unfold latched, is_locked.
  now rewrite !get_kv_set_kv_ne by congruence.
Qed.

Lemma menu_button_latched (data : string) (now : Z) (d : option Z)
    (w : World) :
  is_locked (store w) = true ->
  store (fst (Drom.menu_button cfg data now d w)) = store w
  /\ is_running (fst (Drom.menu_button cfg BTN_TOGGLE now d w)) = false
  /\ snd (Drom.menu_button cfg BTN_TOGGLE now d w) = Drom.ReplyExpiredForever.
Proof.
  intros Hl. unfold Drom.menu_button. rewrite Hl. cbn [orb negb].
  split; [|split].
  - destruct (String.eqb data BTN_TOGGLE).
    + cbn [fst]. destruct (is_running w); [apply store_stop|reflexivity].
    + now destruct (String.eqb data BTN_SET_URL).
  - cbn [String.eqb Ascii.eqb Bool.eqb BTN_TOGGLE fst].
    destruct (is_running w) eqn:E; [apply is_running_stop|exact E].
  - reflexivity.
Qed.

Lemma apply_op_latched (w : World) (o : Drom.op) :
  latched (store w) -> latched (store (Drom.apply_op cfg w o)).
Proof.
  intros Hl. pose proof Hl as [Hexp Hlock].
  destruct o; cbn [Drom.apply_op with_store store].
  - (* lock_forever *)
    split; [|apply is_locked_lock_forever].
    unfold lock_forever. now rewrite get_kv_set_kv_ne.
  - (* ensure_expiry_once *)
    unfold ensure_expiry_once. now rewrite Hexp.
  - (* set_watch_url *)
    unfold Drom.set_watch_url, set_watch_url_with.
    destruct (sanitize_url_drom url) as [s|]; [|exact Hl].
    destruct (String.eqb s ""); [exact Hl|]. cbn [fst].
    eapply latched_settings; [|apply (latched_set_other KEY_WATCH_URL s); eauto; done].
    unfold insert_url. now destruct (tbl_urls _ !! s).
  - (* show_menu *)
    unfold Drom.show_menu, Drom.bind_chat. cbn [fst with_store store].
    destruct (negb _); [|exact Hl]. now apply latched_set_other.
  - (* menu_button *)
    destruct (menu_button_latched data now d w Hlock) as (-> & _). exact Hl.
  - (* text_message *)
    unfold Drom.text_message. now rewrite Hlock.
  - (* expiry_job *)
    unfold Drom.expiry_job, Drom.expiry_job_trace. now rewrite Hlock.
  - now rewrite store_start.
  - now rewrite store_stop.
  - now rewrite store_task_ends.
  - (* a pass of the polling loop *)
    eapply latched_settings; [apply drom_loop_body_settings|exact Hl].
Qed.

Lemma run_ops_latched (ops : list Drom.op) :
  forall w : World,
    latched (store w) -> latched (store (Drom.run_ops cfg ops w)).
Proof.
  unfold Drom.run_ops.
  induction ops as [|o ops IH]; intros w Hl; [exact Hl|].
  cbn [fold_left]. apply IH, apply_op_latched, Hl.
Qed.
End Lock.

(** C1, as worded, fails: on a store without expiry, [lock_forever]
    followed by [ensure_expiry_once] leaves the lock flag false. *)
Lemma ensure_expiry_resets_lock :
  is_locked (store (Drom.run_ops (H := seconds_lib) sample_cfg
                      [Drom.OpLockForever] fresh_world)) = true
  /\ is_locked (store (Drom.run_ops (H := seconds_lib) sample_cfg
                         [Drom.OpLockForever; Drom.OpEnsureExpiryOnce 1000 3]
                         fresh_world)) = false.
Proof. split; reflexivity. Qed.

(** C1 (amended): once the lock flag is true on a store whose expiry is
    written (as it is from [main] on), it stays true through any
    sequence of [lock_forever], [ensure_expiry_once], [set_watch_url],
    handler calls, watchdog runs, [start], [stop], task ends and loop
    passes; and a press of the toggle button then is refused and leaves
    the service not running. *)
Theorem lock_is_permanent `{DateTimeLib} (cfg : Config)
    (ops : list Drom.op) (w : World) :
  Py.truthy (get_kv KEY_EXPIRY_AT (store w)) = true ->
  is_locked (store w) = true ->
  let w' := Drom.run_ops cfg ops w in
  is_locked (store w') = true
  /\ Py.truthy (get_kv KEY_EXPIRY_AT (store w')) = true
  /\ forall now d,
       snd (Drom.menu_button cfg BTN_TOGGLE now d w') = Drom.ReplyExpiredForever
       /\ is_running (fst (Drom.menu_button cfg BTN_TOGGLE now d w')) = false
       /\ store (fst (Drom.menu_button cfg BTN_TOGGLE now d w')) = store w'.
Proof.
  intros Hexp Hlock w'.
  destruct (run_ops_latched cfg ops w (conj Hexp Hlock)) as [He Hl].
  fold w' in He, Hl. split; [exact Hl|]. split; [exact He|].
  intros now d.
  destruct (menu_button_latched cfg BTN_TOGGLE now d w' Hl) as (Hs & Hr & Hrep).
  auto.
Qed.



Lemma lock_is_permanent_witness :
  let w := Drom.expiry_job (H := seconds_lib) 300000 None started_world in
  let w' := Drom.run_ops (H := seconds_lib) sample_cfg
              [Drom.OpEnsureExpiryOnce 400000 3; Drom.OpStart;
               Drom.OpTextMessage "42" "https://drom.ru/x" 400000] w in
  is_locked (store w') = true
  /\ Py.truthy (get_kv KEY_EXPIRY_AT (store w')) = true
  /\ forall now d,
       snd (Drom.menu_button (H := seconds_lib) sample_cfg BTN_TOGGLE now d w')
       = Drom.ReplyExpiredForever
       /\ is_running (fst (Drom.menu_button (H := seconds_lib) sample_cfg
                             BTN_TOGGLE now d w')) = false
       /\ store (fst (Drom.menu_button (H := seconds_lib) sample_cfg
                        BTN_TOGGLE now d w')) = store w'.
Proof.
  apply (lock_is_permanent (H := seconds_lib) sample_cfg
           [Drom.OpEnsureExpiryOnce 400000 3; Drom.OpStart;
            Drom.OpTextMessage "42" "https://drom.ru/x" 400000]
           (Drom.expiry_job (H := seconds_lib) 300000 None started_world)).
  - reflexivity.
  - reflexivity.
Defined.

(** ** Further facts about the sibling paths *)

(** Drom.py and youla.py: a new ad is saved by the pass that dispatches
    it, whatever the bot answers. *)
Lemma drom_new_ad_always_recorded (env : Drom.tick_env)
    (chat_id : option string) (st : Storage) (log : list event) (a : ad) :
  is_new_ad (ad_id a) st = true ->
  fst (Drom.process_ad env chat_id (st, log) a) = save_ad (Drom.te_now env) a st
  /\ dispatched (snd (Drom.process_ad env chat_id (st, log) a))
     = dispatched log ++ [ad_id a].
Proof.
  intros Hnew. cbn [Drom.process_ad]. rewrite Hnew. cbn [fst snd].
  split; [reflexivity|].
  rewrite !dispatched_app, drom_send_ad_no_dispatch. reflexivity.
Qed.

(** autoru.py: when the filter lets a new ad through and [send_message]
    raises (no photo having been sent), the ad is dispatched and the
    store is left as it was. *)
Lemma autoru_failed_send_skips_save (cfg : Autoru.Config)
    (env : Autoru.tick_env) (chat_id : option string) (st : Storage)
    (log : list event) (a : ad) :
  is_new_ad (ad_id a) st = true ->
  Autoru.fresh_days cfg < 0
  \/ Autoru.is_fresh (Autoru.te_today env a) (snd (Autoru.te_details env a))
       (Autoru.fresh_days cfg) = Some true ->
  Autoru.te_message_ok env a = false ->
  Autoru.te_photo_ok env a = false ->
  fst (Autoru.process_ad cfg env chat_id (st, log) a) = st
  /\ dispatched (snd (Autoru.process_ad cfg env chat_id (st, log) a))
     = dispatched log ++ [ad_id a].
Proof.
  intros Hnew Hpass Hmsg Hphoto. cbn [Autoru.process_ad].
  rewrite Hnew. cbn [negb].
  destruct (Autoru.te_details env a) as [sp created]. cbn [snd] in Hpass.
  assert (Hsend : Autoru._send_ad cfg env a sp
                  = (fst (Autoru._send_ad cfg env a sp), false)).
  { unfold Autoru._send_ad. rewrite Hmsg, Hphoto.
    now destruct (_ && _ && _). }
  assert (Hsil : dispatched (fst (Autoru._send_ad cfg env a sp)) = []).
  { unfold Autoru._send_ad. rewrite Hmsg, Hphoto.
    now destruct (_ && _ && _). }
  destruct Hpass as [Hneg|Hfresh].
  - destruct (0 <=? Autoru.fresh_days cfg) eqn:E; [apply Z.leb_le in E; lia|].
    rewrite Hsend. cbn [fst snd]. split; [reflexivity|].
    rewrite !dispatched_app, Hsil. cbn. now rewrite app_nil_r.
  - rewrite Hfresh, Hsend.
    destruct (0 <=? Autoru.fresh_days cfg); cbn [fst snd];
      (split; [reflexivity|]);
      rewrite !dispatched_app, Hsil; cbn; now rewrite app_nil_r.
Qed.

(** [ParserService.start] itself does not look at the lock: the refusal
    of a start while locked is the work of [menu_button]. *)
Example start_has_no_lock_check :
  let w := Drom.expiry_job (H := seconds_lib) 300000 None started_world in
  is_locked (store w) = true
  /\ is_running w = false
  /\ is_running (start w) = true.
Proof. repeat split. Qed.

(** * Further properties of the code *)

(** ** Storage *)

(** X1: [save_ad] is insert-if-absent. A second save under the same id,
    even of an ad with other fields and at another time, changes
    nothing; the id is no longer new; a new id adds exactly its own row
    and a known id leaves the store as it was. *)
Theorem save_ad_first_row_wins (now now' : Z) (a a' : ad) (st : Storage) :
  ad_id a' = ad_id a ->
  save_ad now' a' (save_ad now a st) = save_ad now a st
  /\ is_new_ad (ad_id a) (save_ad now a st) = false
  /\ (is_new_ad (ad_id a) st = true ->
      tbl_ads (save_ad now a st) !! ad_id a = Some (row_of now a)
      /\ size (tbl_ads (save_ad now a st)) = S (size (tbl_ads st)))
  /\ (is_new_ad (ad_id a) st = false -> save_ad now a st = st)
  /\ (forall id, id <> ad_id a ->
        tbl_ads (save_ad now a st) !! id = tbl_ads st !! id).
Proof.
  intros Hid.
  pose proof (is_new_ad_save_same now a st) as Hseen.
  split; [|split; [exact Hseen|split; [|split]]].
  - unfold save_ad at 1. rewrite Hid. unfold is_new_ad in Hseen.
    now destruct (tbl_ads (save_ad now a st) !! ad_id a).
  - unfold is_new_ad, save_ad. destruct (tbl_ads st !! ad_id a) eqn:E;
      [discriminate|]. intros _. cbn [tbl_ads]. split.
    + now rewrite lookup_insert_eq.
    + now apply map_size_insert_None.
  - unfold is_new_ad, save_ad. now destruct (tbl_ads st !! ad_id a).
  - intros id Hne. unfold save_ad. destruct (tbl_ads st !! ad_id a);
      [reflexivity|]. cbn [tbl_ads]. now rewrite lookup_insert_ne.
Qed.

Lemma save_ad_first_row_wins_witness :
  save_ad 2000 (sample_ad "1" "img") (save_ad 1000 (sample_ad "1" "") empty_storage)
  = save_ad 1000 (sample_ad "1" "") empty_storage
  /\ is_new_ad "1" (save_ad 1000 (sample_ad "1" "") empty_storage) = false
  /\ (is_new_ad "1" empty_storage = true ->
      tbl_ads (save_ad 1000 (sample_ad "1" "") empty_storage) !! "1"
      = Some (row_of 1000 (sample_ad "1" ""))
      /\ size (tbl_ads (save_ad 1000 (sample_ad "1" "") empty_storage))
         = S (size (tbl_ads empty_storage)))
  /\ (is_new_ad "1" empty_storage = false ->
      save_ad 1000 (sample_ad "1" "") empty_storage = empty_storage)
  /\ (forall id, id <> "1" ->
        tbl_ads (save_ad 1000 (sample_ad "1" "") empty_storage) !! id
        = tbl_ads empty_storage !! id).
Proof.
  apply (save_ad_first_row_wins 1000 2000 (sample_ad "1" "")
           (sample_ad "1" "img") empty_storage).
  reflexivity.
Defined.

(** X2: on a store without expiry, [ensure_expiry_once] writes
    [now + days] days as the expiry, readable back through [get_expiry]
    as soon as the datetime library prints that instant as a non-empty
    string it parses back, and writes the lock as off; the watched URL,
    the chat, the ads and the urls are untouched; any later call, with
    whatever clock and number of days, changes nothing. *)
Theorem ensure_expiry_once_writes_once `{DateTimeLib}
    (now days now' days' : Z) (st : Storage) :
  Py.truthy (get_kv KEY_EXPIRY_AT st) = false ->
  isoformat (now + days * SECONDS_PER_DAY) <> "" ->
  fromisoformat (isoformat (now + days * SECONDS_PER_DAY))
  = Some (now + days * SECONDS_PER_DAY) ->
  let st1 := ensure_expiry_once now days st in
  get_expiry st1 = Some (now + days * SECONDS_PER_DAY)
  /\ is_locked st1 = false
  /\ ensure_expiry_once now' days' st1 = st1
  /\ (forall k, k <> KEY_EXPIRY_AT -> k <> KEY_EXPIRED_LOCK ->
                get_kv k st1 = get_kv k st)
  /\ tbl_ads st1 = tbl_ads st /\ tbl_urls st1 = tbl_urls st.
Proof.
  intros Hunset Hne Hparse st1.
  assert (Hst1 : st1 = set_kv KEY_EXPIRED_LOCK "false"
                         (set_kv KEY_EXPIRY_AT
                            (isoformat (now + days * SECONDS_PER_DAY)) st)).
  { unfold st1, ensure_expiry_once. now rewrite Hunset. }
  assert (Hraw : get_kv KEY_EXPIRY_AT st1
                 = Some (isoformat (now + days * SECONDS_PER_DAY))).
  { rewrite Hst1, get_kv_set_kv_ne by done. apply get_kv_set_kv_eq. }
  assert (Hneb : String.eqb (isoformat (now + days * SECONDS_PER_DAY)) "" = false).
  { now apply String.eqb_neq. }
  split; [|split; [|split; [|split; [|split]]]].
  - unfold get_expiry. now rewrite Hraw, Hneb.
  - unfold is_locked. rewrite Hst1, get_kv_set_kv_eq.
    now apply bool_decide_eq_false.
  - unfold ensure_expiry_once at 1. rewrite Hraw. cbn [Py.truthy].
    now rewrite Hneb.
  - intros k H1 H2. rewrite Hst1. now rewrite !get_kv_set_kv_ne.
  - now rewrite Hst1.
  - now rewrite Hst1.
Qed.

Lemma ensure_expiry_once_writes_once_witness :
  let st1 := ensure_expiry_once (H := seconds_lib) 1000 3 configured_storage in
  get_expiry (H := seconds_lib) st1 = Some (1000 + 3 * SECONDS_PER_DAY)
  /\ is_locked st1 = false
  /\ ensure_expiry_once (H := seconds_lib) 990000 30 st1 = st1
  /\ (forall k, k <> KEY_EXPIRY_AT -> k <> KEY_EXPIRED_LOCK ->
                get_kv k st1 = get_kv k configured_storage)
  /\ tbl_ads st1 = tbl_ads configured_storage
  /\ tbl_urls st1 = tbl_urls configured_storage.
Proof.
  apply (ensure_expiry_once_writes_once (H := seconds_lib) 1000 3 990000 30
           configured_storage).
  - reflexivity.
  - vm_compute. discriminate.
  - reflexivity.
Defined.

(** ** What the operations write to the settings *)

Lemma get_kv_set_if_ne (k k' : string) (v : option string) (st : Storage) :
  k <> k' -> get_kv k (Drom.set_if k' v st) = get_kv k st.
Proof.
  intros Hne. unfold Drom.set_if. destruct v as [s|]; [|reflexivity].
  destruct (String.eqb s ""); [reflexivity|]. now apply get_kv_set_kv_ne.
Qed.

Lemma get_kv_insert_url (k : string) (now : Z) (u : string) (st : Storage) :
  get_kv k (insert_url now u st) = get_kv k st.
Proof. unfold insert_url. now destruct (tbl_urls st !! u). Qed.

(** [set_watch_url] touches the key [watch_url] only, and writes there
    what the sanitizer returned. *)
Lemma set_watch_url_get_kv (k : string) (now : Z) (url : string)
    (st : Storage) :
  get_kv k (fst (Drom.set_watch_url now url st)) = get_kv k st
  \/ (k = KEY_WATCH_URL
      /\ exists s, sanitize_url_drom url = Some s /\ s <> ""
                   /\ get_kv k (fst (Drom.set_watch_url now url st)) = Some s).
Proof.
  unfold Drom.set_watch_url, set_watch_url_with.
  destruct (sanitize_url_drom url) as [s|] eqn:Hs; [|now left].
  destruct (String.eqb_spec s ""); [now left|]. cbn [fst].
  rewrite get_kv_insert_url.
  destruct (decide (k = KEY_WATCH_URL)) as [->|Hne].
  - right. split; [reflexivity|]. exists s. now rewrite get_kv_set_kv_eq.
  - left. now apply get_kv_set_kv_ne.
Qed.

Lemma bind_chat_get_kv (k chat_id : string) (st : Storage) :
  get_kv k (Drom.bind_chat chat_id st) = get_kv k st
  \/ (k = KEY_CHAT_ID /\ Py.truthy (get_kv KEY_CHAT_ID st) = false).
Proof.
  unfold Drom.bind_chat.
  destruct (Py.truthy (get_kv KEY_CHAT_ID st)) eqn:E; cbn [negb]; [now left|].
  destruct (decide (k = KEY_CHAT_ID)) as [->|Hne]; [now right|].
  left. now apply get_kv_set_kv_ne.
Qed.

Lemma bind_chat_twice (chat_id : string) (st : Storage) :
  Drom.bind_chat chat_id (Drom.bind_chat chat_id st)
  = Drom.bind_chat chat_id st.
Proof.
  unfold Drom.bind_chat.
  destruct (Py.truthy (get_kv KEY_CHAT_ID st)) eqn:E; cbn [negb].
  - now rewrite E.
  - rewrite get_kv_set_kv_eq.
    destruct (negb (Py.truthy (Some chat_id))); [|reflexivity].
    unfold set_kv. cbn. now rewrite insert_insert_eq.
Qed.

Section Writes.
Context `{DateTimeLib}.
Variable cfg : Config.

Lemma apply_op_written (k : string) (w : World) (o : Drom.op) :
  written k w o (Drom.apply_op cfg w o).
Proof.
  unfold written. destruct o; cbn [Drom.apply_op with_store store].
  - (* lock_forever *)
    destruct (decide (k = KEY_EXPIRED_LOCK)); [tauto|left].
    now apply get_kv_set_kv_ne.
  - (* ensure_expiry_once *)
    unfold ensure_expiry_once.
    destruct (Py.truthy (get_kv KEY_EXPIRY_AT (store w))) eqn:E; [now left|].
    destruct (decide (k = KEY_EXPIRED_LOCK)); [tauto|].
    destruct (decide (k = KEY_EXPIRY_AT)); [tauto|left].
    now rewrite !get_kv_set_kv_ne.
  - (* set_watch_url *)
    destruct (set_watch_url_get_kv k now url (store w))
      as [Hsame|(-> & s & Hs & Hne & Hget)]; [now left|].
    do 4 right. left. split; [reflexivity|]. split; [discriminate|]. eauto.
  - (* show_menu *)
    unfold Drom.show_menu. cbn [fst with_store store].
    destruct (bind_chat_get_kv k chat_id (store w)) as [?|[? ?]]; tauto.
  - (* menu_button *)
    unfold Drom.menu_button.
    destruct (String.eqb data BTN_TOGGLE).
    + destruct (is_locked (store w) || Drom.expired now (store w)).
      * cbn [fst]. destruct (negb (is_locked (store w)));
          cbn [with_store store];
          destruct (is_running w); rewrite ?store_stop;
          try (now left);
          (destruct (decide (k = KEY_EXPIRED_LOCK)); [tauto|left];
           now apply get_kv_set_kv_ne).
      * destruct (negb (Py.truthy (get_watch_url (store w)))); [now left|].
        destruct (negb (Py.truthy (get_kv KEY_CHAT_ID (store w)))); [now left|].
        destruct (is_running w); cbn [fst]; [rewrite store_stop; now left|].
        rewrite store_start. cbn [with_store store].
        destruct (decide (k = KEY_PROXY)); [tauto|].
        destruct (decide (k = KEY_CHROMEDRIVER)); [tauto|].
        destruct (decide (k = KEY_PROFILE_PATH)); [tauto|].
        left. now rewrite !get_kv_set_if_ne.
    + destruct (String.eqb data BTN_SET_URL); [|now left].
      destruct (_ || _); now left.
  - (* text_message *)
    unfold Drom.text_message.
    destruct (is_locked (store w)) eqn:Hl; cbn [orb]; [now left|].
    destruct (Drom.expired now (store w)); [now left|].
    destruct (bool_decide _).
    + destruct (Drom.set_watch_url now (Py.strip text)
                  (Drom.bind_chat chat_id (store w))) as [st2 [ok msg]] eqn:E.
      cbn [fst with_mode with_store store].
      pose proof (set_watch_url_get_kv k now (Py.strip text)
                    (Drom.bind_chat chat_id (store w))) as Hu.
      rewrite E in Hu. cbn [fst] in Hu.
      destruct Hu as [Hsame|(-> & s & Hs & Hne & Hget)].
      * rewrite Hsame.
        destruct (bind_chat_get_kv k chat_id (store w)) as [?|[? ?]]; tauto.
      * do 4 right. left. split; [reflexivity|]. split; [reflexivity|]. eauto.
    + unfold Drom.show_menu. cbn [fst with_store store].
      rewrite bind_chat_twice.
      destruct (bind_chat_get_kv k chat_id (store w)) as [?|[? ?]]; tauto.
  - (* expiry_job *)
    unfold Drom.expiry_job, Drom.expiry_job_trace.
    destruct (_ && _); [|now left]. cbn [List.last with_store store].
    destruct (decide (k = KEY_EXPIRED_LOCK)); [tauto|left].
    unfold lock_forever. rewrite get_kv_set_kv_ne by done.
    destruct (is_running w); [now rewrite store_stop|reflexivity].
  - left. now rewrite store_start.
  - left. now rewrite store_stop.
  - left. now rewrite store_task_ends.
  - left. unfold get_kv. now rewrite drom_loop_body_settings.
Qed.
End Writes.

(** ** Invariants of the settings *)

Lemma rstrip_idempotent (s : string) : Py.rstrip (Py.rstrip s) = Py.rstrip s.
Proof.
  induction s as [|c r IH]; [reflexivity|]. cbn [Py.rstrip].
  destruct (Py.rstrip r) as [|c' r'] eqn:E.
  - destruct (Py.isspace c) eqn:Hc; [reflexivity|]. cbn. now rewrite Hc.
  - cbn [Py.rstrip]. cbn [Py.rstrip] in IH.
    destruct (Py.rstrip r') as [|c'' r''] eqn:E'.
    + destruct (Py.isspace c'); [discriminate|]. now inversion IH.
    + now inversion IH.
Qed.

Lemma lstrip_head (s : string) :
  match Py.lstrip s with
  | EmptyString => True
  | String c _ => Py.isspace c = false
  end.
Proof.
  induction s as [|c r IH]; [exact I|]. cbn [Py.lstrip].
  destruct (Py.isspace c) eqn:Hc; [exact IH|exact Hc].
Qed.

Lemma rstrip_keeps_head (c : ascii) (r : string) :
  Py.isspace c = false -> exists r', Py.rstrip (String c r) = String c r'.
Proof.
  intros Hc. cbn [Py.rstrip]. destruct (Py.rstrip r); rewrite ?Hc; eauto.
Qed.

Lemma strip_idempotent (s : string) : Py.strip (Py.strip s) = Py.strip s.
Proof.
  unfold Py.strip. pose proof (lstrip_head s) as Hh.
  destruct (Py.lstrip s) as [|c r]; [reflexivity|].
  destruct (rstrip_keeps_head c r Hh) as (r' & Hr). rewrite Hr.
  cbn [Py.lstrip]. rewrite Hh, <- Hr. apply rstrip_idempotent.
Qed.

(** What the sanitizer returns it returns again when fed with it. *)
Lemma sanitize_url_drom_fixpoint (url s : string) :
  sanitize_url_drom url = Some s -> sanitize_url_drom s = Some s.
Proof.
  unfold sanitize_url_drom.
  destruct (negb (Py.truthy (Some url))); [discriminate|].
  destruct (2000 <? Py.len (Py.strip url)) eqn:Hlen; [discriminate|].
  destruct (negb _) eqn:Hpre; [discriminate|].
  destruct (Py.search_class forbidden_char (Py.strip url)) eqn:Hf;
    [discriminate|].
  intros [= <-]. rewrite strip_idempotent, Hlen, Hpre, Hf.
  assert (Hne : Py.strip url <> "").
  { intros Hs. rewrite Hs in Hpre. discriminate. }
  unfold Py.truthy. apply String.eqb_neq in Hne. now rewrite Hne.
Qed.

Lemma key_cases (k : string) (w : World) (o : Drom.op) (w' : World) :
  written k w o w' ->
  k <> KEY_EXPIRED_LOCK -> k <> KEY_PROXY -> k <> KEY_CHROMEDRIVER ->
  k <> KEY_PROFILE_PATH ->
  get_kv k (store w') = get_kv k (store w)
  \/ (k = KEY_EXPIRY_AT /\ Py.truthy (get_kv KEY_EXPIRY_AT (store w)) = false)
  \/ (k = KEY_CHAT_ID /\ Py.truthy (get_kv KEY_CHAT_ID (store w)) = false)
  \/ (k = KEY_WATCH_URL
      /\ (handler_op o = true -> is_locked (store w) = false)
      /\ exists url s, sanitize_url_drom url = Some s /\ s <> ""
                       /\ get_kv k (store w') = Some s).
Proof. unfold written. intuition congruence. Qed.

(** X3: once the expiry is written, no sequence of operations on the
    store and the service rewrites it: the stored string, and with it
    the instant [get_expiry] reads, stay what they were. *)
Theorem expiry_never_rewritten `{DateTimeLib} (cfg : Config)
    (ops : list Drom.op) (w : World) :
  Py.truthy (get_kv KEY_EXPIRY_AT (store w)) = true ->
  get_kv KEY_EXPIRY_AT (store (Drom.run_ops cfg ops w))
  = get_kv KEY_EXPIRY_AT (store w)
  /\ get_expiry (store (Drom.run_ops cfg ops w)) = get_expiry (store w).
Proof.
  intros Hset.
  assert (Hraw : get_kv KEY_EXPIRY_AT (store (Drom.run_ops cfg ops w))
                 = get_kv KEY_EXPIRY_AT (store w)).
  { unfold Drom.run_ops. revert w Hset.
    induction ops as [|o ops IH]; intros w Hset; [reflexivity|].
    cbn [fold_left].
    destruct (key_cases KEY_EXPIRY_AT w o _ (apply_op_written cfg _ w o))
      as [Hsame|[[_ Hf]|[[Hk _]|[Hk _]]]]; try done; try congruence.
    rewrite IH; [exact Hsame|]. now rewrite Hsame. }
  split; [exact Hraw|]. unfold get_expiry. now rewrite Hraw.
Qed.

Lemma expiry_never_rewritten_witness :
  get_kv KEY_EXPIRY_AT
    (store (Drom.run_ops (H := seconds_lib) sample_cfg
              [Drom.OpEnsureExpiryOnce 500000 30; Drom.OpExpiryJob 300000 None;
               Drom.OpLockForever]
              started_world))
  = get_kv KEY_EXPIRY_AT (store started_world)
  /\ get_expiry (H := seconds_lib)
       (store (Drom.run_ops (H := seconds_lib) sample_cfg
                 [Drom.OpEnsureExpiryOnce 500000 30;
                  Drom.OpExpiryJob 300000 None; Drom.OpLockForever]
                 started_world))
     = get_expiry (H := seconds_lib) (store started_world).
Proof.
  apply (expiry_never_rewritten (H := seconds_lib) sample_cfg
           [Drom.OpEnsureExpiryOnce 500000 30; Drom.OpExpiryJob 300000 None;
            Drom.OpLockForever] started_world).
  reflexivity.
Defined.

(** X4: the chat is bound to the first user: once [chat_id] holds a
    non-empty string, [/start], buttons and messages of any other chat,
    and every other operation, leave it as it is. *)
Theorem chat_bound_once `{DateTimeLib} (cfg : Config)
    (ops : list Drom.op) (w : World) :
  Py.truthy (get_kv KEY_CHAT_ID (store w)) = true ->
  get_kv KEY_CHAT_ID (store (Drom.run_ops cfg ops w))
  = get_kv KEY_CHAT_ID (store w).
Proof.
  unfold Drom.run_ops. revert w.
  induction ops as [|o ops IH]; intros w Hset; [reflexivity|].
  cbn [fold_left].
  destruct (key_cases KEY_CHAT_ID w o _ (apply_op_written cfg _ w o))
    as [Hsame|[[Hk _]|[[_ Hf]|[Hk _]]]]; try done; try congruence.
  rewrite IH; [exact Hsame|]. now rewrite Hsame.
Qed.

Lemma chat_bound_once_witness :
  get_kv KEY_CHAT_ID
    (store (Drom.run_ops (H := seconds_lib) sample_cfg
              [Drom.OpShowMenu "777"; Drom.OpTextMessage "777" "hello" 2000]
              started_world))
  = get_kv KEY_CHAT_ID (store started_world).
Proof.
  apply (chat_bound_once (H := seconds_lib) sample_cfg
           [Drom.OpShowMenu "777"; Drom.OpTextMessage "777" "hello" 2000]
           started_world).
  reflexivity.
Defined.

(** X5: the watched URL in the store is always one the sanitizer
    accepts as it stands: whatever users send and whatever else happens,
    [watch_url] is unset or a fixed point of [sanitize_url_drom]. *)
Theorem watch_url_always_sanitized `{DateTimeLib} (cfg : Config)
    (ops : list Drom.op) (w : World) :
  url_clean (store w) -> url_clean (store (Drom.run_ops cfg ops w)).
Proof.
  unfold Drom.run_ops. revert w.
  induction ops as [|o ops IH]; intros w Hclean; [exact Hclean|].
  cbn [fold_left]. apply IH. unfold url_clean in *.
  destruct (key_cases KEY_WATCH_URL w o _ (apply_op_written cfg _ w o))
    as [Hsame|[[Hk _]|[[Hk _]|(_ & _ & url & s & Hs & _ & Hget)]]];
    try done.
  - now rewrite Hsame.
  - rewrite Hget. eapply sanitize_url_drom_fixpoint, Hs.
Qed.

Lemma watch_url_always_sanitized_witness :
  url_clean
    (store (Drom.run_ops (H := seconds_lib) sample_cfg
              [Drom.OpMenuButton BTN_SET_URL 2000 None;
               Drom.OpTextMessage "42" "  https://DROM.ru/moscow/  " 2000]
              started_world)).
Proof.
  apply (watch_url_always_sanitized (H := seconds_lib) sample_cfg
           [Drom.OpMenuButton BTN_SET_URL 2000 None;
            Drom.OpTextMessage "42" "  https://DROM.ru/moscow/  " 2000]
           started_world).
  reflexivity.
Defined.

Example url_set_through_handlers :
  get_watch_url
    (store (Drom.run_ops (H := seconds_lib) sample_cfg
              [Drom.OpMenuButton BTN_SET_URL 2000 None;
               Drom.OpTextMessage "42" "  https://DROM.ru/moscow/  " 2000]
              started_world))
  = Some "https://DROM.ru/moscow/".
Proof. reflexivity. Qed.

(** X6: once the lock is latched, the handlers, the watchdog and the
    polling task never change the watched URL again. *)
Theorem watch_url_frozen_when_locked `{DateTimeLib} (cfg : Config)
    (ops : list Drom.op) (w : World) :
  forallb handler_op ops = true ->
  latched (store w) ->
  get_kv KEY_WATCH_URL (store (Drom.run_ops cfg ops w))
  = get_kv KEY_WATCH_URL (store w).
Proof.
  unfold Drom.run_ops. revert w.
  induction ops as [|o ops IH]; intros w Hops Hl; [reflexivity|].
  cbn [forallb] in Hops. apply andb_true_iff in Hops as [Ho Hops].
  cbn [fold_left]. rewrite IH; [|exact Hops|now apply apply_op_latched].
  destruct (key_cases KEY_WATCH_URL w o _ (apply_op_written cfg _ w o))
    as [Hsame|[[Hk _]|[[Hk _]|(_ & Hgate & _)]]]; try done.
  destruct Hl as [_ Hlock]. specialize (Hgate Ho). congruence.
Qed.

Lemma watch_url_frozen_when_locked_witness :
  let w := Drom.expiry_job (H := seconds_lib) 300000 None started_world in
  get_kv KEY_WATCH_URL
    (store (Drom.run_ops (H := seconds_lib) sample_cfg
              [Drom.OpMenuButton BTN_SET_URL 300001 None;
               Drom.OpTextMessage "42" "https://drom.ru/other/" 300002]
              w))
  = get_kv KEY_WATCH_URL (store w).
Proof.
  apply (watch_url_frozen_when_locked (H := seconds_lib) sample_cfg
           [Drom.OpMenuButton BTN_SET_URL 300001 None;
            Drom.OpTextMessage "42" "https://drom.ru/other/" 300002]
           (Drom.expiry_job (H := seconds_lib) 300000 None started_world)).
  - reflexivity.
  - split; reflexivity.
Defined.

(** ** The service runs only while it may *)

Lemma is_running_task_ends (w : World) : is_running (task_ends w) = false.
Proof.
  unfold task_ends. destruct (_task (svc w)) as [t|] eqn:Ht.
  - unfold is_running, task_done. cbn [svc tasks]. rewrite Ht.
    destruct (decide (t < length (tasks w))%nat) as [Hlt|Hge].
    + now rewrite list_lookup_insert_eq.
    + rewrite list_insert_ge by lia.
      destruct (tasks w !! t) as [x|] eqn:E; [|reflexivity].
      apply lookup_lt_Some in E. lia.
  - unfold is_running. now rewrite Ht.
Qed.

Lemma bind_chat_keeps (chat_id : string) (st : Storage) :
  Py.truthy (get_kv KEY_CHAT_ID st) = true -> Drom.bind_chat chat_id st = st.
Proof. intros Hc. unfold Drom.bind_chat. now rewrite Hc. Qed.

Section RunningOk.
Context `{DateTimeLib}.
Variable cfg : Config.

Lemma running_ok_same_settings (w w' : World) :
  (is_running w' = true -> is_running w = true) ->
  tbl_settings (store w') = tbl_settings (store w) ->
  running_ok w -> running_ok w'.
Proof.
  intros Hrun Hset Hok Hr. unfold is_locked, get_kv in *. rewrite Hset.
  now apply Hok, Hrun.
Qed.

Lemma apply_op_running_ok (w : World) (o : Drom.op) :
  handler_op o = true -> running_ok w -> running_ok (Drom.apply_op cfg w o).
Proof.
  intros Ho Hok. destruct o; try discriminate Ho; cbn [Drom.apply_op].
  - (* show_menu *)
    unfold Drom.show_menu. cbn [fst]. intros Hr.
    change (is_running (with_store (Drom.bind_chat chat_id (store w)) w))
      with (is_running w) in Hr.
    destruct (Hok Hr) as (Hl & Hu & Hc). cbn [with_store store].
    now rewrite bind_chat_keeps.
  - (* menu_button *)
    unfold Drom.menu_button.
    destruct (String.eqb data BTN_TOGGLE).
    + destruct (is_locked (store w) || Drom.expired now (store w)) eqn:Hgate.
      * intros Hr. exfalso. cbn [fst] in Hr.
        destruct (negb (is_locked (store w)));
          destruct (is_running w) eqn:E;
          try (change (is_running (with_store ?s ?x)) with (is_running x) in Hr);
          rewrite ?is_running_stop in Hr; congruence.
      * apply orb_false_iff in Hgate as [Hlock _].
        destruct (negb (Py.truthy (get_watch_url (store w)))) eqn:Hu;
          [exact Hok|].
        destruct (negb (Py.truthy (get_kv KEY_CHAT_ID (store w)))) eqn:Hc;
          [exact Hok|].
        destruct (is_running w) eqn:E; cbn [fst].
        -- intros Hr. rewrite is_running_stop in Hr. discriminate.
        -- intros _. rewrite store_start. cbn [with_store store].
           apply negb_false_iff in Hu, Hc. unfold get_watch_url in Hu.
           unfold is_locked in *.
           now rewrite !get_kv_set_if_ne by done.
    + destruct (String.eqb data BTN_SET_URL); [|exact Hok].
      destruct (_ || _); exact Hok.
  - (* text_message *)
    unfold Drom.text_message.
    destruct (is_locked (store w) || Drom.expired now (store w)); [exact Hok|].
    destruct (bool_decide _).
    + destruct (Drom.set_watch_url now (Py.strip text)
                  (Drom.bind_chat chat_id (store w))) as [st2 [ok msg]] eqn:E.
      cbn [fst]. intros Hr.
      change (is_running (with_mode None (with_store st2 w)))
        with (is_running w) in Hr.
      destruct (Hok Hr) as (Hl & Hu & Hc).
      cbn [with_mode with_store store].
      rewrite bind_chat_keeps in E by exact Hc.
      assert (Hst2 : st2 = fst (Drom.set_watch_url now (Py.strip text) (store w)))
        by now rewrite E.
      assert (Hk : forall k, k <> KEY_WATCH_URL -> get_kv k st2 = get_kv k (store w)).
      { intros k Hk. rewrite Hst2.
        destruct (set_watch_url_get_kv k now (Py.strip text) (store w))
          as [Hs|[Hs _]]; [exact Hs|contradiction]. }
      unfold is_locked in *.
      rewrite (Hk KEY_EXPIRED_LOCK), (Hk KEY_CHAT_ID) by done.
      split; [exact Hl|].
      split; [|exact Hc].
      destruct (set_watch_url_get_kv KEY_WATCH_URL now (Py.strip text) (store w))
        as [Hs|(_ & s & _ & Hne & Hget)]; rewrite Hst2.
      * now rewrite Hs.
      * rewrite Hget. cbn. apply String.eqb_neq in Hne. now rewrite Hne.
    + unfold Drom.show_menu. cbn [fst with_store store]. intros Hr.
      change (is_running
                (with_store (Drom.bind_chat chat_id
                               (Drom.bind_chat chat_id (store w)))
                   (with_store (Drom.bind_chat chat_id (store w)) w)))
        with (is_running w) in Hr.
      destruct (Hok Hr) as (Hl & Hu & Hc).
      rewrite bind_chat_twice, bind_chat_keeps by exact Hc. auto.
  - (* expiry_job *)
    unfold Drom.expiry_job, Drom.expiry_job_trace.
    destruct (_ && _); [|exact Hok]. cbn [List.last]. intros Hr. exfalso.
    change (is_running (with_store ?s ?x)) with (is_running x) in Hr.
    destruct (is_running w) eqn:E; rewrite ?is_running_stop in Hr; congruence.
  - (* the task ends *)
    intros Hr. rewrite is_running_task_ends in Hr. discriminate.
  - (* a pass of the polling loop *)
    apply running_ok_same_settings with w; [tauto| |exact Hok].
    apply drom_loop_body_settings.
Qed.
End RunningOk.

(** X7: in the running application (handlers, watchdog, loop passes,
    task ends, in any order and at any clock) the service is never
    running while the lock is on, and whenever it runs both the watched
    URL and the chat are set: the polling task started by the menu never
    meets the unset-configuration branch of its loop. *)
Theorem running_implies_unlocked_and_configured `{DateTimeLib}
    (cfg : Config) (ops : list Drom.op) (w : World) :
  forallb handler_op ops = true ->
  running_ok w ->
  running_ok (Drom.run_ops cfg ops w).
Proof.
  unfold Drom.run_ops. revert w.
  induction ops as [|o ops IH]; intros w Hops Hok; [exact Hok|].
  cbn [forallb] in Hops. apply andb_true_iff in Hops as [Ho Hops].
  cbn [fold_left]. apply IH; [exact Hops|].
  now apply apply_op_running_ok.
Qed.

Lemma running_implies_unlocked_and_configured_witness :
  running_ok
    (Drom.run_ops (H := seconds_lib) sample_cfg
       [Drom.OpShowMenu "42"; Drom.OpMenuButton BTN_TOGGLE 2000 None;
        Drom.OpTick three_ads_tick]
       (Drom.main (H := seconds_lib) sample_cfg 5 1000 chatless_storage)).
Proof.
  apply (running_implies_unlocked_and_configured (H := seconds_lib) sample_cfg
           [Drom.OpShowMenu "42"; Drom.OpMenuButton BTN_TOGGLE 2000 None;
            Drom.OpTick three_ads_tick]
           (Drom.main (H := seconds_lib) sample_cfg 5 1000 chatless_storage)).
  - reflexivity.
  - intros Hr. discriminate Hr.
Defined.

Example menu_start_after_binding :
  is_running
    (Drom.run_ops (H := seconds_lib) sample_cfg
       [Drom.OpShowMenu "42"; Drom.OpMenuButton BTN_TOGGLE 2000 None;
        Drom.OpTick three_ads_tick]
       (Drom.main (H := seconds_lib) sample_cfg 5 1000 chatless_storage))
  = true.
Proof. reflexivity. Qed.

(** ** Restart *)

(** X8: stopping a running service and starting it again gives the new
    task an event of its own that is not set, while the event and the
    task of the old run stay set and done; one task is live and the
    store is untouched. *)
Theorem restart_gets_fresh_event (d : option Z) (w : World) :
  svc_consistent w ->
  is_running w = true ->
  let w2 := start (fst (stop d w)) in
  is_running w2 = true
  /\ store w2 = store w
  /\ live_tasks w2 = 1%nat
  /\ exists e e' t t',
       _stop_event (svc w) = Some e /\ _stop_event (svc w2) = Some e'
       /\ e <> e'
       /\ events w2 !! e = Some true /\ events w2 !! e' = Some false
       /\ _task (svc w) = Some t /\ _task (svc w2) = Some t'
       /\ t <> t'
       /\ tasks w2 !! t = Some true /\ tasks w2 !! t' = Some false.
Proof.
  intros Hc Hrun w2.
  destruct (is_running_task w Hrun) as (t & Ht & Hlook).
  pose proof Hc as [Hlive Hev]. destruct (Hev t Ht) as (e & He & Hlt).
  pose proof (lookup_lt_Some _ _ _ Hlook) as Htlt.
  assert (Hw2 : w2 = {| store := store w;
                        svc := {| interval := interval (svc w);
                                  _task := Some (length (tasks w));
                                  _stop_event := Some (length (events w)) |};
                        tasks := <[t := true]> (tasks w) ++ [false];
                        events := <[e := true]> (events w) ++ [false];
                        user_mode := user_mode w |}).
  { unfold w2, start. rewrite is_running_stop. unfold stop.
    rewrite Hrun, Ht, He. cbn [negb fst store svc interval tasks events user_mode].
    now rewrite !length_insert. }
  pose proof (svc_consistent_start _ (svc_consistent_stop d w Hc)) as [Hl2 _].
  fold w2 in Hl2.
  assert (Hr2 : is_running w2 = true).
  { rewrite Hw2. unfold is_running, task_done. cbn [svc _task tasks].
    rewrite lookup_app_r by (rewrite length_insert; lia).
    rewrite length_insert, Nat.sub_diag. reflexivity. }
  split; [exact Hr2|]. split; [now rewrite Hw2|].
  split; [now rewrite Hl2, Hr2|].
  exists e, (length (events w)), t, (length (tasks w)). rewrite Hw2.
  cbn [svc _task _stop_event tasks events].
  repeat split; try assumption; try lia.
  - rewrite lookup_app_l by (rewrite length_insert; lia).
    now apply list_lookup_insert_eq.
  - rewrite lookup_app_r by (rewrite length_insert; lia).
    now rewrite length_insert, Nat.sub_diag.
  - rewrite lookup_app_l by (rewrite length_insert; lia).
    now apply list_lookup_insert_eq.
  - rewrite lookup_app_r by (rewrite length_insert; lia).
    now rewrite length_insert, Nat.sub_diag.
Qed.

Lemma restart_gets_fresh_event_witness :
  let w2 := start (fst (stop (Some 3) started_world)) in
  is_running w2 = true
  /\ store w2 = store started_world
  /\ live_tasks w2 = 1%nat
  /\ exists e e' t t',
       _stop_event (svc started_world) = Some e
       /\ _stop_event (svc w2) = Some e'
       /\ e <> e'
       /\ events w2 !! e = Some true /\ events w2 !! e' = Some false
       /\ _task (svc started_world) = Some t /\ _task (svc w2) = Some t'
       /\ t <> t'
       /\ tasks w2 !! t = Some true /\ tasks w2 !! t' = Some false.
Proof.
  apply (restart_gets_fresh_event (Some 3) started_world).
  - split; [reflexivity|]. intros t Ht. exists 0%nat.
    split; [reflexivity|]. vm_compute. lia.
  - reflexivity.
Defined.

(** ** One pass of the Drom loop *)

Lemma drom_fold_seen_stays (env : Drom.tick_env) (chat_id : option string)
    (l : list ad) (id : string) :
  forall (st : Storage) (log : list event),
    is_new_ad id st = false ->
    is_new_ad id (fst (fold_left (Drom.process_ad env chat_id) l (st, log)))
    = false.
Proof.
  intros st log Hseen.
  destruct (drom_fold_once id env chat_id l st log) as (evs & _ & (Hs & _)).
  now destruct (Hs Hseen).
Qed.

Lemma drom_fold_records_all (env : Drom.tick_env) (chat_id : option string)
    (l : list ad) :
  forall (st : Storage) (log : list event) (a : ad),
    In a l ->
    is_new_ad (ad_id a)
      (fst (fold_left (Drom.process_ad env chat_id) l (st, log))) = false.
Proof.
  induction l as [|b l IH]; intros st log a Hin; [destruct Hin|].
  cbn [fold_left].
  destruct (Drom.process_ad env chat_id (st, log) b) as [st1 log1] eqn:E.
  destruct Hin as [->|Hin]; [|now apply IH].
  apply drom_fold_seen_stays.
  cbn [Drom.process_ad] in E.
  destruct (is_new_ad (ad_id a) st) eqn:Hnew; injection E as <- <-;
    [apply is_new_ad_save_same|exact Hnew].
Qed.

Lemma drom_fold_seen_noop (env : Drom.tick_env) (chat_id : option string)
    (l : list ad) :
  forall (st : Storage) (log : list event),
    (forall a, In a l -> is_new_ad (ad_id a) st = false) ->
    fold_left (Drom.process_ad env chat_id) l (st, log) = (st, log).
Proof.
  induction l as [|b l IH]; intros st log Hseen; [reflexivity|].
  cbn [fold_left Drom.process_ad]. rewrite (Hseen b) by now left.
  apply IH. intros a Ha. apply Hseen. now right.
Qed.

(** X9: when the adapter has been called and has answered, every ad it
    returned is in the table after the pass, dispatched or not; and a
    pass that follows and brings only ads with those ids dispatches
    nothing and leaves the store as it is, whatever else it meets. *)
Theorem pass_records_every_candidate (interval : Z)
    (env env2 : Drom.tick_env) (st : Storage) (ads : list ad) :
  Py.truthy (get_kv KEY_WATCH_URL st) = true ->
  Py.truthy (get_kv KEY_CHAT_ID st) = true ->
  Drom.te_collect env = Some ads ->
  let st1 := fst (fst (Drom.loop_body interval env st)) in
  (forall a, In a ads -> is_new_ad (ad_id a) st1 = false)
  /\ ((forall ads2 a2, Drom.te_collect env2 = Some ads2 -> In a2 ads2 ->
                       exists a, In a ads /\ ad_id a2 = ad_id a) ->
      dispatched (snd (fst (Drom.loop_body interval env2 st1))) = []
      /\ fst (fst (Drom.loop_body interval env2 st1)) = st1).
Proof.
  intros Hurl Hchat Hcol st1.
  assert (Hrec : forall a, In a ads -> is_new_ad (ad_id a) st1 = false).
  { intros a Ha. unfold st1, Drom.loop_body.
    rewrite Hurl, Hchat, Hcol. cbn [negb orb andb]. unfold Drom.process_ads.
    pose proof (drom_fold_records_all env (get_kv KEY_CHAT_ID st) (rev ads) st
                  ([] ++ [EvCollect (get_kv KEY_WATCH_URL st)]) a
                  (proj1 (in_rev ads a) Ha)) as Hr.
    now destruct (fold_left _ _ _). }
  split; [exact Hrec|]. intros Hsub.
  unfold Drom.loop_body.
  destruct (_ && negb (Drom.te_idle_signal env2)); [now split|].
  destruct (Drom.te_collect env2) as [ads2|] eqn:Hcol2.
  - unfold Drom.process_ads. rewrite drom_fold_seen_noop.
    + cbn [fst snd]. rewrite !dispatched_app. split; [|reflexivity].
      now destruct (_ || _).
    + intros a2 Ha2. apply in_rev in Ha2.
      destruct (Hsub ads2 a2 eq_refl Ha2) as (a & Ha & ->). now apply Hrec.
  - cbn [fst snd]. rewrite dispatched_app. split; [|reflexivity].
    now destruct (_ || _).
Qed.

Lemma pass_records_every_candidate_witness :
  let st1 := fst (fst (Drom.loop_body 5 three_ads_tick configured_storage)) in
  (forall a, In a three_ads -> is_new_ad (ad_id a) st1 = false)
  /\ ((forall ads2 a2,
         Drom.te_collect (drom_tick (Some [sample_ad "2" "new image"]) false true)
         = Some ads2 ->
         In a2 ads2 -> exists a, In a three_ads /\ ad_id a2 = ad_id a) ->
      dispatched (snd (fst (Drom.loop_body 5
                              (drom_tick (Some [sample_ad "2" "new image"])
                                 false true) st1))) = []
      /\ fst (fst (Drom.loop_body 5
                     (drom_tick (Some [sample_ad "2" "new image"]) false true)
                     st1)) = st1).
Proof.
  apply (pass_records_every_candidate 5 three_ads_tick
           (drom_tick (Some [sample_ad "2" "new image"]) false true)
           configured_storage three_ads); reflexivity.
Defined.

(** The store and the dispatched ids after the fold do not depend on
    what the bot answers. *)
Lemma drom_fold_outcome_blind (env env' : Drom.tick_env)
    (chat_id : option string) (l : list ad) :
  Drom.te_now env' = Drom.te_now env ->
  forall (st : Storage) (log log' : list event),
    dispatched log' = dispatched log ->
    fst (fold_left (Drom.process_ad env' chat_id) l (st, log'))
    = fst (fold_left (Drom.process_ad env chat_id) l (st, log))
    /\ dispatched (snd (fold_left (Drom.process_ad env' chat_id) l (st, log')))
       = dispatched (snd (fold_left (Drom.process_ad env chat_id) l (st, log))).
Proof.
  intros Hnow. induction l as [|a l IH]; intros st log log' Hd; [now split|].
  cbn [fold_left Drom.process_ad].
  destruct (is_new_ad (ad_id a) st); [|now apply IH].
  rewrite Hnow. apply IH.
  rewrite !dispatched_app, !drom_send_ad_no_dispatch. now rewrite Hd.
Qed.

(** X10: delivery failures are isolated. Two passes that differ only in
    what [send_photo] and [send_message] answer record the same ads,
    dispatch the same ids in the same order and end the same way: no
    failure of the bot drops, repeats or reorders another ad of the
    batch, or stops the loop. *)
Theorem delivery_failures_isolated (interval : Z) (env env' : Drom.tick_env)
    (st : Storage) :
  Drom.te_now env' = Drom.te_now env ->
  Drom.te_collect env' = Drom.te_collect env ->
  Drom.te_idle_signal env' = Drom.te_idle_signal env ->
  Drom.te_sleep_signal env' = Drom.te_sleep_signal env ->
  fst (fst (Drom.loop_body interval env' st))
  = fst (fst (Drom.loop_body interval env st))
  /\ dispatched (snd (fst (Drom.loop_body interval env' st)))
     = dispatched (snd (fst (Drom.loop_body interval env st)))
  /\ snd (Drom.loop_body interval env' st) = snd (Drom.loop_body interval env st).
Proof.
  intros Hnow Hcol Hidle Hsleep. unfold Drom.loop_body.
  rewrite Hcol, Hidle, Hsleep.
  destruct (_ && negb (Drom.te_idle_signal env)); [now repeat split|].
  destruct (Drom.te_collect env) as [ads|]; [|now repeat split].
  unfold Drom.process_ads.
  set (log0 := (if negb (Py.truthy (get_kv KEY_WATCH_URL st))
                   || negb (Py.truthy (get_kv KEY_CHAT_ID st))
                then [EvWait interval true] else [])
               ++ [EvCollect (get_kv KEY_WATCH_URL st)]).
  destruct (drom_fold_outcome_blind env env' (get_kv KEY_CHAT_ID st) (rev ads)
              Hnow st log0 log0 eq_refl) as [Hst Hd].
  destruct (fold_left (Drom.process_ad env' _) _ _) as [st1' log1'].
  destruct (fold_left (Drom.process_ad env _) _ _) as [st1 log1].
  cbn [fst snd] in *. rewrite !dispatched_app, Hd. now repeat split.
Qed.

Lemma delivery_failures_isolated_witness :
  fst (fst (Drom.loop_body 5 (drom_tick (Some three_ads) false false)
              configured_storage))
  = fst (fst (Drom.loop_body 5 (drom_tick (Some three_ads) false true)
                configured_storage))
  /\ dispatched (snd (fst (Drom.loop_body 5
                             (drom_tick (Some three_ads) false false)
                             configured_storage)))
     = dispatched (snd (fst (Drom.loop_body 5
                               (drom_tick (Some three_ads) false true)
                               configured_storage)))
  /\ snd (Drom.loop_body 5 (drom_tick (Some three_ads) false false)
            configured_storage)
     = snd (Drom.loop_body 5 (drom_tick (Some three_ads) false true)
              configured_storage).
Proof.
  apply (delivery_failures_isolated 5 (drom_tick (Some three_ads) false true)
           (drom_tick (Some three_ads) false false) configured_storage);
    reflexivity.
Defined.

(** *** Cancellation inside [_send_ad] *)

Lemma cut_count_app (id : string) (l1 l2 : list string) :
  cut_count id (l1 ++ l2) = (cut_count id l1 + cut_count id l2)%nat.
Proof. unfold cut_count. now rewrite filter_app, length_app. Qed.

Lemma cut_count_one (id x : string) :
  cut_count id [x] = if String.eqb id x then 1%nat else 0%nat.
Proof.
  unfold cut_count. rewrite filter_cons.
  destruct (String.eqb id x).
  - now rewrite decide_True.
  - now rewrite decide_False.
Qed.

Lemma once_or_cut_complete (id : string) (st st' : Storage)
    (evs : list event) :
  once_only id st evs st' -> once_or_cut id st evs [] st'.
Proof.
  intros (Hs & Hle & Hone). unfold once_or_cut.
  change (cut_count id []) with 0%nat.
  split; [intros Hseen; destruct (Hs Hseen); auto|].
  split; [lia|]. split; [lia|].
  intros Hnew. destruct (dispatch_count id evs) as [|[|n]]; [lia| |lia].
  rewrite (Hone eq_refl) in Hnew. discriminate.
Qed.

Lemma once_or_cut_trans (id : string) (st1 st2 st3 : Storage)
    (e1 e2 : list event) (c1 c2 : list string) :
  once_or_cut id st1 e1 c1 st2 -> once_or_cut id st2 e2 c2 st3 ->
  once_or_cut id st1 (e1 ++ e2) (c1 ++ c2) st3.
Proof.
  intros (Hs1 & Hle1 & Hge1 & Hnew1) (Hs2 & Hle2 & Hge2 & Hnew2).
  unfold once_or_cut. rewrite dispatch_count_app, cut_count_app.
  split; [|split; [|split]].
  - intros Hseen. destruct (Hs1 Hseen) as (H2 & Hd1 & Hc1).
    destruct (Hs2 H2) as (H3 & Hd2 & Hc2). split; [exact H3|lia].
  - destruct (is_new_ad id st2) eqn:E2.
    + specialize (Hnew1 eq_refl). lia.
    + destruct (Hs2 eq_refl) as (_ & Hd2 & Hc2). lia.
  - lia.
  - intros Hnew3. destruct (is_new_ad id st2) eqn:E2.
    + specialize (Hnew1 eq_refl). specialize (Hnew2 Hnew3). lia.
    + destruct (Hs2 eq_refl) as (H3 & _). congruence.
Qed.

Lemma once_or_cut_silent (id : string) (st : Storage) (evs : list event) :
  (forall e, In e evs -> is_dispatch_of id e = false) ->
  once_or_cut id st evs [] st.
Proof. intros H. now apply once_or_cut_complete, once_only_silent. Qed.

Lemma send_ad_cancelled_silent (id : string) (env : Drom.tick_env)
    (fb : bool) (a : ad) :
  forall e, In e (_send_ad_cancelled env fb a) -> is_dispatch_of id e = false.
Proof.
  unfold _send_ad_cancelled. intros e.
  destruct (_ && _); cbn; intuition (subst; reflexivity).
Qed.

Lemma process_ads_cancelled_once (id : string) (env : Drom.tick_env)
    (chat_id : option string) (fb : bool) (l : list ad) :
  forall (after : nat) (st : Storage) (log : list event),
  exists evs,
    snd (fst (process_ads_cancelled env chat_id after fb l (st, log)))
    = log ++ evs
    /\ once_or_cut id st evs
         (cuts_of (snd (process_ads_cancelled env chat_id after fb l (st, log))))
         (fst (fst (process_ads_cancelled env chat_id after fb l (st, log)))).
Proof.
  induction l as [|a l IH]; intros after st log.
  - exists []. cbn. rewrite app_nil_r. split; [reflexivity|].
    now apply once_or_cut_silent.
  - assert (Hgo : forall n,
              exists evs,
                snd (fst (process_ads_cancelled env chat_id n fb l
                            (Drom.process_ad env chat_id (st, log) a)))
                = log ++ evs
                /\ once_or_cut id st evs
                     (cuts_of (snd (process_ads_cancelled env chat_id n fb l
                                      (Drom.process_ad env chat_id (st, log) a))))
                     (fst (fst (process_ads_cancelled env chat_id n fb l
                                  (Drom.process_ad env chat_id (st, log) a))))).
    { intros n.
      destruct (drom_process_ad_once id env chat_id a st log)
        as (e1 & Hl1 & H1).
      destruct (Drom.process_ad env chat_id (st, log) a) as [st1 log1].
      cbn [fst snd] in Hl1, H1. subst log1.
      destruct (IH n st1 (log ++ e1)) as (e2 & Hl2 & H2).
      exists (e1 ++ e2). rewrite Hl2, app_assoc. split; [reflexivity|].
      change (cuts_of (snd (process_ads_cancelled env chat_id n fb l
                              (st1, log ++ e1))))
        with ([] ++ cuts_of (snd (process_ads_cancelled env chat_id n fb l
                                    (st1, log ++ e1)))).
      eapply once_or_cut_trans; [apply once_or_cut_complete; exact H1|].
      exact H2. }
    cbn [process_ads_cancelled fst snd].
    destruct (is_new_ad (ad_id a) st) eqn:Hnew; [|apply Hgo].
    destruct after as [|n]; [|apply Hgo].
    cbn [fst snd cuts_of].
    exists ([EvDispatch chat_id (ad_id a)] ++ _send_ad_cancelled env fb a).
    split; [reflexivity|].
    unfold once_or_cut.
    rewrite dispatch_count_app, dispatch_count_cons,
      (dispatch_count_none id (_send_ad_cancelled env fb a))
      by apply send_ad_cancelled_silent.
    cbn [is_dispatch_of]. change (dispatch_count id []) with 0%nat.
    rewrite cut_count_one.
    destruct (String.eqb_spec id (ad_id a)) as [->|Hne].
    + split; [intros Hseen; congruence|]. cbn. repeat split; lia.
    + cbn. repeat split; auto; lia.
Qed.

Lemma cancelled_pass_once (id : string) (interval : Z) (c : cut)
    (env : Drom.tick_env) (st st1 : Storage) (evs : list event)
    (idc : string) :
  cancelled_pass interval c env st = Some (st1, evs, idc) ->
  once_or_cut id st evs [idc] st1.
Proof.
  unfold cancelled_pass.
  set (idle := negb (Py.truthy (get_kv KEY_WATCH_URL st))
               || negb (Py.truthy (get_kv KEY_CHAT_ID st))).
  destruct (idle && negb (Drom.te_idle_signal env)); [discriminate|].
  destruct (Drom.te_collect env) as [ads|]; [|discriminate].
  set (log0 := (if idle then [EvWait interval true] else [])
               ++ [EvCollect (get_kv KEY_WATCH_URL st)]).
  destruct (process_ads_cancelled_once id env (get_kv KEY_CHAT_ID st)
              (cut_in_fallback c) (rev ads) (cut_after c) st log0)
    as (e2 & Hlog & HR).
  destruct (process_ads_cancelled _ _ _ _ _ _) as [[st2 log2] [idc'|]];
    [|discriminate].
  cbn [fst snd cuts_of] in Hlog, HR. intros [= <- <- <-]. subst log2.
  change [idc'] with ([] ++ [idc']).
  eapply once_or_cut_trans; [|exact HR].
  apply once_or_cut_silent. unfold log0. destruct idle; cbn;
    intuition (subst; reflexivity).
Qed.

Lemma drom_loop_once (id : string) (interval : Z)
    (envs : list Drom.tick_env) (b : bool) (st : Storage)
    (log : list event) :
  exists evs,
    run_log (Drom.loop interval envs b st log) = log ++ evs
    /\ once_only id st evs (run_store (Drom.loop interval envs b st log)).
Proof.
  exact (while_invariant (Drom.loop_body interval) (once_only id)
           (once_only_refl id)
           (fun s1 e1 s2 e2 s3 => once_only_trans id s1 s2 s3 e1 e2)
           (fun st line => once_only_silent id st [EvPrint line]
              ltac:(cbn; intuition (subst; reflexivity)))
           (drom_loop_body_once id interval) envs b st log).
Qed.

Lemma run_life_once (id : string) (interval : Z) (l : life) (st : Storage) :
  once_or_cut id st (snd (fst (run_life interval l st)))
    (snd (run_life interval l st)) (fst (fst (run_life interval l st))).
Proof.
  unfold run_life.
  pose proof (drom_run_once id interval (life_run l) st) as H1.
  destruct (Drom._run interval (life_run l) st) as [st1 log1 status].
  cbn [run_store run_log run_status] in *.
  assert (Hdone : once_or_cut id st log1 [] st1)
    by now apply once_or_cut_complete.
  destruct status; try exact Hdone.
  destruct (life_cancel l) as [[c env]|]; [|exact Hdone].
  destruct (cancelled_pass interval c env st1) as [[[st2 evs] idc]|] eqn:Hc.
  - cbn [fst snd]. change [idc] with ([] ++ [idc]).
    eapply once_or_cut_trans; [exact Hdone|].
    now apply cancelled_pass_once with interval c env.
  - cbn [fst snd].
    destruct (drom_loop_once id interval [env] false st1 log1)
      as (evs & Hlog & HR).
    rewrite Hlog. change (@nil string) with (@nil string ++ []).
    eapply once_or_cut_trans; [exact Hdone|].
    now apply once_or_cut_complete.
Qed.

Lemma cancellable_lifetime_once (id : string) (interval : Z)
    (lives : list life) :
  forall st : Storage,
    once_or_cut id st (snd (fst (cancellable_lifetime interval lives st)))
      (snd (cancellable_lifetime interval lives st))
      (fst (fst (cancellable_lifetime interval lives st))).
Proof.
  induction lives as [|l lives IH]; intros st; cbn [cancellable_lifetime].
  - cbn. now apply once_or_cut_silent.
  - pose proof (run_life_once id interval l st) as H1.
    destruct (run_life interval l st) as [[st1 log1] cuts1].
    cbn [fst snd] in H1.
    pose proof (IH st1) as H2.
    destruct (cancellable_lifetime interval lives st1) as [[st2 log2] cuts2].
    cbn [fst snd] in *.
    now apply once_or_cut_trans with st1.
Qed.

(** Lives without cancellation inside [_send_ad] are those of
    [Drom.lifetime]. *)
Lemma cancellable_lifetime_uncut (interval : Z) (runs : list Drom.run_env) :
  forall st : Storage,
    cancellable_lifetime interval (map (fun r => mk_life r None) runs) st
    = (Drom.lifetime interval runs st, []).
Proof.
  induction runs as [|r runs IH]; intros st; [reflexivity|].
  cbn [map cancellable_lifetime Drom.lifetime].
  unfold run_life at 1. cbn [life_run life_cancel].
  assert (Hl : (match run_status (Drom._run interval r st) with
                | TaskAlive | _ =>
                    (run_store (Drom._run interval r st),
                     run_log (Drom._run interval r st), @nil string)
                end)
               = (run_store (Drom._run interval r st),
                  run_log (Drom._run interval r st), [])).
  { now destruct (run_status _). }
  rewrite Hl, IH.
  now destruct (Drom.lifetime interval runs _).
Qed.

(** X11: over the whole life of the Drom or youla service, restarts
    and cancellations included, whatever the adapter returns and
    whatever the bot answers, an id is handed to [_send_ad] at most once
    more than the task was cancelled inside the send of that id, each
    such cancellation being one of these calls; so an id whose send was
    never cancelled is handed over at most once. An id already in the
    table is never handed over, and an id handed over more often than
    cancelled is in the table at the end. *)
Theorem drom_lifetime_at_most_once (interval : Z) (lives : list life)
    (st : Storage) (id : string) :
  let st' := fst (fst (cancellable_lifetime interval lives st)) in
  let log := snd (fst (cancellable_lifetime interval lives st)) in
  let cuts := snd (cancellable_lifetime interval lives st) in
  (dispatch_count id log <= 1 + cut_count id cuts)%nat
  /\ (cut_count id cuts <= dispatch_count id log)%nat
  /\ (cut_count id cuts = 0%nat -> (dispatch_count id log <= 1)%nat)
  /\ (is_new_ad id st = false -> dispatch_count id log = 0%nat)
  /\ ((cut_count id cuts < dispatch_count id log)%nat ->
      is_new_ad id st' = false).
Proof.
  intros st' log cuts.
  destruct (cancellable_lifetime_once id interval lives st)
    as (Hs & Hle & Hge & Hnew).
  fold st' log cuts in Hs, Hle, Hge, Hnew.
  split; [exact Hle|]. split; [exact Hge|]. split; [lia|].
  split; [intros Hseen; now destruct (Hs Hseen) as (_ & ? & _)|].
  intros Hlt. destruct (is_new_ad id st'); [|reflexivity].
  specialize (Hnew eq_refl). lia.
Qed.

Lemma drom_lifetime_at_most_once_witness :
  let st' := fst (fst (cancellable_lifetime 5 cancelled_lives
                         configured_storage)) in
  let log := snd (fst (cancellable_lifetime 5 cancelled_lives
                         configured_storage)) in
  let cuts := snd (cancellable_lifetime 5 cancelled_lives
                     configured_storage) in
  (dispatch_count "2" log <= 1 + cut_count "2" cuts)%nat
  /\ (cut_count "2" cuts <= dispatch_count "2" log)%nat
  /\ (cut_count "2" cuts = 0%nat -> (dispatch_count "2" log <= 1)%nat)
  /\ (is_new_ad "2" configured_storage = false ->
      dispatch_count "2" log = 0%nat)
  /\ ((cut_count "2" cuts < dispatch_count "2" log)%nat ->
      is_new_ad "2" st' = false).
Proof.
  exact (drom_lifetime_at_most_once 5 cancelled_lives configured_storage "2").
Defined.

(** The first life hands the ads 1 and 2 to [_send_ad] and is cancelled
    in the send of 2, which is not recorded; the second life hands 2
    over again, then 3. Without the cancellation every id is handed over
    once. *)
Example drom_lifetime_dispatches :
  dispatched (snd (fst (cancellable_lifetime 5 cancelled_lives
                          configured_storage)))
  = ["1"; "2"; "2"; "3"]
  /\ snd (cancellable_lifetime 5 cancelled_lives configured_storage) = ["2"]
  /\ dispatched
       (snd (Drom.lifetime 5
               [Drom.mk_run_env true false
                  [three_ads_tick; drom_tick (Some three_ads) false false];
                Drom.mk_run_env false false [three_ads_tick]]
               configured_storage))
     = ["1"; "2"; "3"].
Proof. repeat split. Qed.

(** ** autoru.py: deliveries and warm-up *)

Lemma delivered_count_app (id : string) (l1 l2 : list event) :
  delivered_count id (l1 ++ l2)
  = (delivered_count id l1 + delivered_count id l2)%nat.
Proof. unfold delivered_count. now rewrite filter_app, length_app. Qed.

Lemma delivered_count_cons (id : string) (e : event) (l : list event) :
  delivered_count id (e :: l)
  = ((if is_delivery_of id e then 1 else 0) + delivered_count id l)%nat.
Proof.
  unfold delivered_count. rewrite filter_cons.
  destruct (is_delivery_of id e).
  - now rewrite decide_True.
  - now rewrite decide_False.
Qed.

Lemma delivered_count_none (id : string) (l : list event) :
  (forall e, In e l -> is_delivery_of id e = false) ->
  delivered_count id l = 0%nat.
Proof.
  induction l as [|e l IH]; intros Hl; [reflexivity|].
  rewrite delivered_count_cons, (Hl e) by now left.
  apply IH. intros e' He'. apply Hl. now right.
Qed.

Lemma delivered_once_refl (id : string) (st : Storage) :
  delivered_once id st [] st.
Proof. split; [now split|]. split; cbn; [lia|discriminate]. Qed.

Lemma delivered_once_trans (id : string) (st1 : Storage) (e1 : list event)
    (st2 : Storage) (e2 : list event) (st3 : Storage) :
  delivered_once id st1 e1 st2 -> delivered_once id st2 e2 st3 ->
  delivered_once id st1 (e1 ++ e2) st3.
Proof.
  intros (Hs1 & Hle1 & Hone1) (Hs2 & Hle2 & Hone2).
  unfold delivered_once. rewrite delivered_count_app. split; [|split].
  - intros Hseen. destruct (Hs1 Hseen) as [Hseen2 ->].
    destruct (Hs2 Hseen2) as [Hseen3 ->]. now split.
  - destruct (delivered_count id e1) as [|[|n]] eqn:E1; [lia| |lia].
    destruct (Hs2 (Hone1 eq_refl)) as [_ ->]. lia.
  - destruct (delivered_count id e1) as [|[|n]] eqn:E1; [exact Hone2| |lia].
    intros _. now destruct (Hs2 (Hone1 eq_refl)).
Qed.

Lemma delivered_once_silent (id : string) (st st' : Storage)
    (evs : list event) :
  (is_new_ad id st = false -> is_new_ad id st' = false) ->
  (forall e, In e evs -> is_delivery_of id e = false) ->
  delivered_once id st evs st'.
Proof.
  intros Hst Hevs.
  unfold delivered_once. rewrite (delivered_count_none id evs Hevs).
  split; [auto|]. split; [lia|discriminate].
Qed.

(** What one call of autoru's [_send_ad] delivers: one message when it
    returns, none when it raises. *)
Lemma autoru_send_ad_delivers (id : string) (cfg : Autoru.Config)
    (env : Autoru.tick_env) (a : ad) (sp : option string) :
  delivered_count id (fst (Autoru._send_ad cfg env a sp))
  = if snd (Autoru._send_ad cfg env a sp) && String.eqb id (ad_id a)
    then 1%nat else 0%nat.
Proof.
  unfold Autoru._send_ad.
  destruct (Autoru.send_screenshot cfg && Py.truthy sp
            && Autoru.te_screenshot_exists env a),
    (Autoru.te_photo_ok env a), (Autoru.te_message_ok env a);
    cbn [fst snd app andb]; rewrite ?delivered_count_cons;
    cbn [is_delivery_of]; destruct (String.eqb id (ad_id a)); reflexivity.
Qed.

Lemma autoru_process_ad_delivered (id : string) (cfg : Autoru.Config)
    (env : Autoru.tick_env) (chat_id : option string) (a : ad)
    (st : Storage) (log : list event) :
  exists evs,
    snd (Autoru.process_ad cfg env chat_id (st, log) a) = log ++ evs
    /\ delivered_once id st evs
         (fst (Autoru.process_ad cfg env chat_id (st, log) a)).
Proof.
  cbn [Autoru.process_ad]. destruct (is_new_ad (ad_id a) st) eqn:Hnew;
    cbn [negb]; [|exists []; rewrite app_nil_r; split;
                   [reflexivity|apply delivered_once_refl]].
  destruct (Autoru.te_details env a) as [sp created].
  pose proof (autoru_send_ad_delivers id cfg env a sp) as Hdel.
  destruct (Autoru._send_ad cfg env a sp) as [sent returned].
  cbn [fst snd] in Hdel.
  assert (Hquiet : forall st' evs,
             (st' = st \/ st' = save_ad (Autoru.te_now env) a st) ->
             (forall e, In e evs -> is_delivery_of id e = false) ->
             delivered_once id st evs st').
  { intros st' evs Hst Hevs. apply delivered_once_silent; [|exact Hevs].
    intros Hseen. destruct Hst as [->| ->];
      [exact Hseen|now apply is_new_ad_save_seen]. }
  assert (Hsend : exists evs,
    snd (if returned
         then (save_ad (Autoru.te_now env) a st,
               (log ++ [EvFetchDetails (ad_id a)])
               ++ [EvDispatch chat_id (ad_id a)] ++ sent ++ [EvSaveAd (ad_id a)])
         else (st, (log ++ [EvFetchDetails (ad_id a)])
                   ++ [EvDispatch chat_id (ad_id a)] ++ sent
                   ++ [EvPrint "[WARN] send/save failed"])) = log ++ evs
    /\ delivered_once id st evs
         (fst (if returned
               then (save_ad (Autoru.te_now env) a st,
                     (log ++ [EvFetchDetails (ad_id a)])
                     ++ [EvDispatch chat_id (ad_id a)] ++ sent
                     ++ [EvSaveAd (ad_id a)])
               else (st, (log ++ [EvFetchDetails (ad_id a)])
                         ++ [EvDispatch chat_id (ad_id a)] ++ sent
                         ++ [EvPrint "[WARN] send/save failed"])))).
  { destruct returned; cbn [fst snd andb] in *.
    - exists ([EvFetchDetails (ad_id a)] ++ [EvDispatch chat_id (ad_id a)]
              ++ sent ++ [EvSaveAd (ad_id a)]).
      split; [now rewrite <- app_assoc|].
      assert (Hc : delivered_count id
                     ([EvFetchDetails (ad_id a)] ++ [EvDispatch chat_id (ad_id a)]
                      ++ sent ++ [EvSaveAd (ad_id a)])
                   = if String.eqb id (ad_id a) then 1%nat else 0%nat).
      { rewrite !delivered_count_app, Hdel. cbn.
        destruct (String.eqb id (ad_id a)); reflexivity. }
      unfold delivered_once. rewrite Hc.
      destruct (String.eqb_spec id (ad_id a)) as [->|Hne].
      + split; [congruence|]. split; [lia|intros _; apply is_new_ad_save_same].
      + split; [intros Hs; split; [now apply is_new_ad_save_seen|reflexivity]|].
        split; [lia|discriminate].
    - exists ([EvFetchDetails (ad_id a)] ++ [EvDispatch chat_id (ad_id a)]
              ++ sent ++ [EvPrint "[WARN] send/save failed"]).
      split; [now rewrite <- app_assoc|].
      assert (Hc : delivered_count id
                     ([EvFetchDetails (ad_id a)] ++ [EvDispatch chat_id (ad_id a)]
                      ++ sent ++ [EvPrint "[WARN] send/save failed"]) = 0%nat).
      { rewrite !delivered_count_app, Hdel. reflexivity. }
      unfold delivered_once. rewrite Hc.
      split; [now split|]. split; [lia|discriminate]. }
  destruct (0 <=? Autoru.fresh_days cfg); [|exact Hsend].
  destruct (Autoru.is_fresh _ _ _) as [[|]|]; [exact Hsend| |].
  - exists ([EvFetchDetails (ad_id a)]
            ++ [EvPrint "[skip stale]"; EvSaveAd (ad_id a)]).
    cbn [fst snd]. split; [now rewrite <- app_assoc|].
    apply Hquiet; [now right|]. cbn. intuition (subst; auto).
  - exists ([EvFetchDetails (ad_id a)] ++ [EvPrint "[WARN] send/save failed"]).
    cbn [fst snd]. split; [now rewrite <- app_assoc|].
    apply Hquiet; [now left|]. cbn. intuition (subst; auto).
Qed.

Lemma autoru_fold_delivered (id : string) (cfg : Autoru.Config)
    (env : Autoru.tick_env) (chat_id : option string) (l : list ad) :
  forall (st : Storage) (log : list event),
  exists evs,
    snd (fold_left (Autoru.process_ad cfg env chat_id) l (st, log)) = log ++ evs
    /\ delivered_once id st evs
         (fst (fold_left (Autoru.process_ad cfg env chat_id) l (st, log))).
Proof.
  induction l as [|a l IH]; intros st log; cbn [fold_left].
  - exists []. rewrite app_nil_r. split; [reflexivity|apply delivered_once_refl].
  - destruct (autoru_process_ad_delivered id cfg env chat_id a st log)
      as (e1 & Hl1 & H1).
    destruct (Autoru.process_ad cfg env chat_id (st, log) a) as [st1 log1].
    cbn [fst snd] in *. subst log1.
    destruct (IH st1 (log ++ e1)) as (e2 & Hl2 & H2).
    exists (e1 ++ e2). rewrite Hl2, app_assoc. split; [reflexivity|].
    now apply delivered_once_trans with st1.
Qed.

Lemma delivered_once_quiet (id : string) (st : Storage) (evs : list event) :
  (forall e, In e evs -> is_delivery_of id e = false) ->
  delivered_once id st evs st.
Proof. now apply delivered_once_silent. Qed.

Lemma autoru_loop_body_delivered (id : string) (cfg : Autoru.Config)
    (env : Autoru.tick_env) (st : Storage) :
  delivered_once id st (snd (fst (Autoru.loop_body cfg env st)))
    (fst (fst (Autoru.loop_body cfg env st))).
Proof.
  unfold Autoru.loop_body.
  set (idle := negb (Py.truthy (get_kv KEY_WATCH_URL st))
               || negb (Py.truthy (get_kv KEY_CHAT_ID st))).
  destruct (idle && negb (Autoru.te_idle_signal env)).
  { cbn. apply delivered_once_quiet. cbn. intuition (subst; reflexivity). }
  set (log0 := (if idle then [EvWait (Autoru.cfg_interval cfg) true] else [])
               ++ [EvCollect (get_kv KEY_WATCH_URL st)]).
  assert (H0 : delivered_once id st log0 st).
  { apply delivered_once_quiet. unfold log0. destruct idle; cbn;
      intuition (subst; reflexivity). }
  destruct (Autoru.te_collect env) as [ads|]; [|exact H0].
  unfold Autoru.process_ads.
  destruct (autoru_fold_delivered id cfg env (get_kv KEY_CHAT_ID st) (rev ads)
              st log0) as (evs & Hlog & HR).
  destruct (fold_left _ _ _) as [st1 log1]. cbn [fst snd] in *. subst log1.
  eapply delivered_once_trans; [eapply delivered_once_trans; eauto|].
  apply delivered_once_quiet. cbn. intuition (subst; reflexivity).
Qed.

(** The warm-up cycles: nothing is sent, what was seen stays seen, and
    when no cycle fails every collected ad is in the table. *)
Lemma warmup_cycles_quiet (collects : list (Z * option (list ad))) :
  forall (st : Storage) (log : list event),
  exists evs,
    snd (fst (Autoru.warmup_cycles collects st log)) = log ++ evs
    /\ (forall e, In e evs ->
          match e with EvCollect _ | EvSaveAd _ => True | _ => False end)
    /\ (forall id, is_new_ad id st = false ->
          is_new_ad id (fst (fst (Autoru.warmup_cycles collects st log))) = false)
    /\ ((forall c, In c collects -> snd c <> None) ->
        snd (Autoru.warmup_cycles collects st log) = true
        /\ forall now ads a, In (now, Some ads) collects -> In a ads ->
             is_new_ad (ad_id a)
               (fst (fst (Autoru.warmup_cycles collects st log))) = false).
Proof.
  assert (Hfold : forall now (ads : list ad) (st : Storage),
             (forall id, is_new_ad id st = false ->
                is_new_ad id (fold_left (fun s a => save_ad now a s) ads st) = false)
             /\ forall a, In a ads ->
                  is_new_ad (ad_id a)
                    (fold_left (fun s a => save_ad now a s) ads st) = false).
  { intros now ads. induction ads as [|b ads IH]; intros st; cbn [fold_left].
    - split; [auto|intros a []].
    - destruct (IH (save_ad now b st)) as [Hk Ha]. split.
      + intros id Hs. now apply Hk, is_new_ad_save_seen.
      + intros a [->|Hin]; [apply Hk, is_new_ad_save_same|now apply Ha]. }
  induction collects as [|[now [ads|]] rest IH]; intros st log;
    cbn [Autoru.warmup_cycles].
  - exists []. rewrite app_nil_r. cbn [fst snd].
    repeat split; auto; intros; contradiction.
  - destruct (Hfold now ads st) as [Hk Ha].
    destruct (IH (fold_left (fun s a => save_ad now a s) ads st)
                (log ++ [EvCollect (Some (default "" (get_kv KEY_WATCH_URL st)))]
                 ++ map (fun a => EvSaveAd (ad_id a)) ads))
      as (evs & Hlog & Hevs & Hkeep & Hall).
    exists (([EvCollect (Some (default "" (get_kv KEY_WATCH_URL st)))]
             ++ map (fun a => EvSaveAd (ad_id a)) ads) ++ evs).
    split; [now rewrite Hlog, <- app_assoc|]. split; [|split].
    + intros e He. apply in_app_iff in He as [He|He]; [|now apply Hevs].
      cbn in He. destruct He as [<-|He]; [exact I|].
      apply in_map_iff in He as (a & <- & _). exact I.
    + intros id Hs. now apply Hkeep, Hk.
    + intros Hok. destruct Hall as [Hflag Hin].
      { intros c Hc. apply Hok. now right. }
      split; [exact Hflag|]. intros now' ads' a [Heq|Hc] Ha'.
      * injection Heq as -> ->. now apply Hkeep, Ha.
      * now apply (Hin now' ads').
  - exists [EvCollect (Some (default "" (get_kv KEY_WATCH_URL st)))].
    cbn [fst snd]. split; [reflexivity|]. split; [|split].
    + intros e [<-|[]]. exact I.
    + auto.
    + intros Hok. exfalso. apply (Hok (now, None)); [now left|reflexivity].
Qed.

Lemma autoru_run_parts (cfg : Autoru.Config) (env : Autoru.run_env)
    (st : Storage) :
  exists (pre : list event) (st1 : Storage),
    (forall e, In e pre ->
       match e with
       | EvCollect _ | EvSaveAd _ | EvNotice _ _ _ | EvPrint _ => True
       | _ => False
       end)
    /\ (forall id, is_new_ad id st = false -> is_new_ad id st1 = false)
    /\ ((size (tbl_ads st) =? 0)%nat && (0 <? Autoru.warmup_runs cfg) = true ->
        (forall i, (1 <= i <= Z.to_nat (Autoru.warmup_runs cfg))%nat ->
                   snd (Autoru.re_warmup env i) <> None) ->
        forall i ads a,
          (1 <= i <= Z.to_nat (Autoru.warmup_runs cfg))%nat ->
          snd (Autoru.re_warmup env i) = Some ads -> In a ads ->
          is_new_ad (ad_id a) st1 = false)
    /\ (Autoru._run cfg env st = mk_run st1 pre TaskFailed
        \/ Autoru._run cfg env st
           = Autoru.loop cfg (Autoru.re_ticks env)
               (Autoru.re_stop_early env) st1 pre).
Proof.
  unfold Autoru._run, Autoru._warmup_if_needed.
  set (log0 := match get_kv KEY_CHAT_ID st with
               | Some c =>
                   if String.eqb c "" then [] else
                   if Autoru.re_start_ok env
                   then [EvNotice (Some c) "Парсер auto.ru запущен" true]
                   else [EvNotice (Some c) "Парсер auto.ru запущен" false;
                         EvPrint "[WARN] notify start failed"]
               | None => []
               end).
  assert (H0 : forall e, In e log0 ->
                 match e with
                 | EvCollect _ | EvSaveAd _ | EvNotice _ _ _ | EvPrint _ => True
                 | _ => False
                 end).
  { unfold log0. destruct (get_kv KEY_CHAT_ID st) as [c|]; [|intros e []].
    destruct (String.eqb c ""), (Autoru.re_start_ok env); cbn;
      intuition (subst; exact I). }
  destruct ((size (tbl_ads st) =? 0)%nat && (0 <? Autoru.warmup_runs cfg))
    eqn:Hw.
  - set (collects := map (Autoru.re_warmup env)
                       (seq 1 (Z.to_nat (Autoru.warmup_runs cfg)))).
    destruct (warmup_cycles_quiet collects st log0)
      as (evs & Hlog & Hevs & Hkeep & Hall).
    destruct (Autoru.warmup_cycles collects st log0) as [[st1 log1] flag].
    cbn [fst snd] in *. subst log1.
    assert (Hcover : (forall i, (1 <= i <= Z.to_nat (Autoru.warmup_runs cfg))%nat ->
                                snd (Autoru.re_warmup env i) <> None) ->
              flag = true /\
              forall i ads a,
                (1 <= i <= Z.to_nat (Autoru.warmup_runs cfg))%nat ->
                snd (Autoru.re_warmup env i) = Some ads -> In a ads ->
                is_new_ad (ad_id a) st1 = false).
    { intros Hok. destruct Hall as [Hflag Hin].
      { intros c Hc. apply in_map_iff in Hc as (i & <- & Hi). apply Hok.
        apply in_seq in Hi. lia. }
      split; [exact Hflag|]. intros i ads a Hi Hads Ha.
      apply (Hin (fst (Autoru.re_warmup env i)) ads a); [|exact Ha].
      apply in_map_iff. exists i. split.
      - rewrite <- Hads. now destruct (Autoru.re_warmup env i).
      - apply in_seq. lia. }
    destruct flag.
    + exists ((log0 ++ evs)
              ++ [EvNotice (get_kv KEY_CHAT_ID st1) "Разогрев БД завершён"
                    (Autoru.re_warmup_notice_ok env)]), st1.
      split; [|split; [exact Hkeep|split; [|now right]]].
      * intros e He. apply in_app_iff in He as [He|[<-|[]]]; [|exact I].
        apply in_app_iff in He as [He|He]; [now apply H0|].
        specialize (Hevs e He). now destruct e.
      * intros _ Hok. now apply Hcover.
    + exists (log0 ++ evs), st1.
      split; [|split; [exact Hkeep|split; [|now left]]].
      * intros e He. apply in_app_iff in He as [He|He]; [now apply H0|].
        specialize (Hevs e He). now destruct e.
      * intros _ Hok. now apply Hcover.
  - exists log0, st. split; [exact H0|]. split; [auto|].
    split; [discriminate|now right].
Qed.

Lemma autoru_run_delivered (id : string) (cfg : Autoru.Config)
    (env : Autoru.run_env) (st : Storage) :
  delivered_once id st (run_log (Autoru._run cfg env st))
    (run_store (Autoru._run cfg env st)).
Proof.
  destruct (autoru_run_parts cfg env st) as (pre & st1 & Hpre & Hkeep & _ & Hrun).
  assert (H0 : delivered_once id st pre st1).
  { apply delivered_once_silent; [apply Hkeep|].
    intros e He. specialize (Hpre e He). now destruct e. }
  destruct Hrun as [-> | ->]; [exact H0|]. unfold Autoru.loop.
  destruct (while_invariant (Autoru.loop_body cfg) (delivered_once id)
              (delivered_once_refl id) (delivered_once_trans id)
              (fun st line => delivered_once_quiet id st [EvPrint line]
                 ltac:(cbn; intuition (subst; reflexivity)))
              (autoru_loop_body_delivered id cfg)
              (Autoru.re_ticks env) (Autoru.re_stop_early env) st1 pre)
    as (evs & Hlog & HR).
  rewrite Hlog. eapply delivered_once_trans; eauto.
Qed.

(** X12: over the whole life of the autoru service, warm-up and
    restarts included, an ad is delivered successfully (a [send_photo]
    or [send_message] that returns) at most once; an id already in the
    table is never delivered; an id that was delivered is in the table.
    Only dispatches that failed are repeated. *)
Theorem autoru_delivered_at_most_once (cfg : Autoru.Config)
    (runs : list Autoru.run_env) (st : Storage) (id : string) :
  (delivered_count id (snd (autoru_lifetime cfg runs st)) <= 1)%nat
  /\ (is_new_ad id st = false ->
      delivered_count id (snd (autoru_lifetime cfg runs st)) = 0%nat)
  /\ (delivered_count id (snd (autoru_lifetime cfg runs st)) = 1%nat ->
      is_new_ad id (fst (autoru_lifetime cfg runs st)) = false).
Proof.
  assert (H : delivered_once id st (snd (autoru_lifetime cfg runs st))
                (fst (autoru_lifetime cfg runs st))).
  { revert st. induction runs as [|r runs IH]; intros st;
      cbn [autoru_lifetime]; [apply delivered_once_refl|].
    pose proof (autoru_run_delivered id cfg r st) as H1.
    pose proof (IH (run_store (Autoru._run cfg r st))) as H2.
    destruct (autoru_lifetime cfg runs _) as [st' log']. cbn [fst snd] in *.
    eapply delivered_once_trans; eauto. }
  destruct H as (Hs & Hle & Hone). split; [exact Hle|]. split; [|exact Hone].
  intros Hseen. now destruct (Hs Hseen).
Qed.

Lemma autoru_delivered_at_most_once_witness :
  let runs := [Autoru.mk_run_env true (fun _ => (0, None)) true false
                 [autoru_tick false (Some 100); autoru_tick true (Some 100);
                  autoru_tick true (Some 100)]] in
  (delivered_count "1" (snd (autoru_lifetime autoru_cfg runs configured_storage))
   <= 1)%nat
  /\ (is_new_ad "1" configured_storage = false ->
      delivered_count "1" (snd (autoru_lifetime autoru_cfg runs configured_storage))
      = 0%nat)
  /\ (delivered_count "1" (snd (autoru_lifetime autoru_cfg runs configured_storage))
      = 1%nat ->
      is_new_ad "1" (fst (autoru_lifetime autoru_cfg runs configured_storage))
      = false).
Proof.
  exact (autoru_delivered_at_most_once autoru_cfg
           [Autoru.mk_run_env true (fun _ => (0, None)) true false
              [autoru_tick false (Some 100); autoru_tick true (Some 100);
               autoru_tick true (Some 100)]]
           configured_storage "1").
Defined.

Example autoru_retry_then_single_delivery :
  let log := snd (autoru_lifetime autoru_cfg
                    [Autoru.mk_run_env true (fun _ => (0, None)) true false
                       [autoru_tick false (Some 100); autoru_tick true (Some 100);
                        autoru_tick true (Some 100)]]
                    configured_storage) in
  dispatched log = ["1"; "1"] /\ delivered_count "1" log = 1%nat.
Proof. split; reflexivity. Qed.

(** X13: when the table of ads is empty and [warmup_runs] is positive,
    [_run] first saves what the adapter returns in each warm-up cycle
    without sending; provided no cycle fails, an ad seen in any cycle is
    in the table and is never dispatched in that run, neither by the
    warm-up nor by the loop that follows. *)
Theorem warmup_ads_never_dispatched (cfg : Autoru.Config)
    (env : Autoru.run_env) (st : Storage) (i : nat) (ads : list ad) (a : ad) :
  size (tbl_ads st) = 0%nat ->
  0 < Autoru.warmup_runs cfg ->
  (forall j, (1 <= j <= Z.to_nat (Autoru.warmup_runs cfg))%nat ->
             snd (Autoru.re_warmup env j) <> None) ->
  (1 <= i <= Z.to_nat (Autoru.warmup_runs cfg))%nat ->
  snd (Autoru.re_warmup env i) = Some ads ->
  In a ads ->
  dispatch_count (ad_id a) (run_log (Autoru._run cfg env st)) = 0%nat
  /\ delivered_count (ad_id a) (run_log (Autoru._run cfg env st)) = 0%nat
  /\ is_new_ad (ad_id a) (run_store (Autoru._run cfg env st)) = false.
Proof.
  intros Hempty Hruns Hok Hi Hads Ha.
  destruct (autoru_run_parts cfg env st) as (pre & st1 & Hpre & _ & Hcov & Hrun).
  assert (Hseen : is_new_ad (ad_id a) st1 = false).
  { apply (Hcov ltac:(rewrite Hempty; cbn; now apply Z.ltb_lt) Hok i ads a);
      assumption. }
  assert (Hd0 : dispatch_count (ad_id a) pre = 0%nat).
  { apply dispatch_count_none. intros e He. specialize (Hpre e He).
    now destruct e. }
  assert (Hv0 : delivered_count (ad_id a) pre = 0%nat).
  { apply delivered_count_none. intros e He. specialize (Hpre e He).
    now destruct e. }
  destruct Hrun as [-> | ->]; [now repeat split|].
  destruct (autoru_seen_never_dispatched (ad_id a) cfg (Autoru.re_ticks env)
              (Autoru.re_stop_early env) st1 pre Hseen) as [Hc Hs].
  split; [now rewrite Hc|]. split; [|exact Hs].
  unfold Autoru.loop.
  destruct (while_invariant (Autoru.loop_body cfg) (delivered_once (ad_id a))
              (delivered_once_refl (ad_id a)) (delivered_once_trans (ad_id a))
              (fun st line => delivered_once_quiet (ad_id a) st [EvPrint line]
                 ltac:(cbn; intuition (subst; reflexivity)))
              (autoru_loop_body_delivered (ad_id a) cfg)
              (Autoru.re_ticks env) (Autoru.re_stop_early env) st1 pre)
    as (evs & Hlog & (HR & _)).
  rewrite Hlog, delivered_count_app, Hv0. now destruct (HR Hseen).
Qed.

Lemma warmup_ads_never_dispatched_witness :
  dispatch_count (ad_id (sample_ad "1" ""))
    (run_log (Autoru._run autoru_warm_cfg autoru_warm_run configured_storage))
  = 0%nat
  /\ delivered_count (ad_id (sample_ad "1" ""))
       (run_log (Autoru._run autoru_warm_cfg autoru_warm_run configured_storage))
     = 0%nat
  /\ is_new_ad (ad_id (sample_ad "1" ""))
       (run_store (Autoru._run autoru_warm_cfg autoru_warm_run configured_storage))
     = false.
Proof.
  apply (warmup_ads_never_dispatched autoru_warm_cfg autoru_warm_run
           configured_storage 1 [sample_ad "1" ""] (sample_ad "1" "")).
  - reflexivity.
  - reflexivity.
  - intros j _. discriminate.
  - vm_compute. lia.
  - reflexivity.
  - now left.
Defined.

(** ** The status text *)

Lemma int_total_seconds_spec (us : Z) :
  (us < 1000000 -> int_total_seconds us <= 0)
  /\ (1000000 <= us ->
      0 < int_total_seconds us
      /\ int_total_seconds us * 1000000 <= us
         < (int_total_seconds us + 1) * 1000000).
Proof.
  unfold int_total_seconds. split.
  - intros Hlt. destruct (Z.le_gt_cases 0 us) as [Hpos|Hneg].
    + rewrite Z.quot_small by lia. lia.
    + pose proof (Z.quot_opp_l us 1000000 ltac:(lia)) as Ho.
      pose proof (Z.quot_pos (- us) 1000000 ltac:(lia) ltac:(lia)). lia.
  - intros Hge. rewrite Z.quot_div_nonneg by lia.
    pose proof (Z.div_mod us 1000000 ltac:(lia)) as Hd.
    pose proof (Z.mod_pos_bound us 1000000 ltac:(lia)) as Hb.
    assert (0 < us / 1000000) by (apply Z.div_str_pos; lia).
    lia.
Qed.

(** X14: the countdown of the status message. A locked store shows
    "locked" whatever the expiry; a store without expiry shows none. An
    unlocked store shows "expired" as soon as less than one whole second
    is left, so already during the last second before the expiry;
    otherwise it shows the whole seconds that are left, the fraction
    dropped, split exactly into days, hours below 24, minutes and
    seconds below 60. *)
Theorem status_countdown_exact (fromisoformat_us : string -> option Z)
    (now : Z) (st : Storage) (running : bool) :
  let cd := status_countdown
              (format_status_text fromisoformat_us now st running) in
  (is_locked st = true -> cd = CountdownLocked)
  /\ (is_locked st = false -> get_expiry_us fromisoformat_us st = None ->
      cd = CountdownNone)
  /\ (forall e, is_locked st = false ->
      get_expiry_us fromisoformat_us st = Some e ->
      Z.abs (e - now) < TOTAL_SECONDS_EXACT ->
      (e - now < 1000000 -> cd = CountdownExpired)
      /\ (1000000 <= e - now ->
          exists days hrs mins s,
            cd = CountdownLeft days hrs mins s
            /\ 0 <= days /\ 0 <= hrs < 24 /\ 0 <= mins < 60 /\ 0 <= s < 60
            /\ (days * 86400 + hrs * 3600 + mins * 60 + s) * 1000000
               <= e - now
               < (days * 86400 + hrs * 3600 + mins * 60 + s + 1) * 1000000)).
Proof.
  unfold format_status_text. cbn [status_countdown].
  split; [|split].
  - now intros ->.
  - now intros -> ->.
  - intros e -> -> _.
    destruct (int_total_seconds_spec (e - now)) as [Hsmall Hbig].
    split.
    + intros Hlt. specialize (Hsmall Hlt).
      destruct (int_total_seconds (e - now) <=? 0) eqn:E; [reflexivity|].
      apply Z.leb_gt in E. lia.
    + intros Hge. destruct (Hbig Hge) as [Hpos Hbounds].
      destruct (int_total_seconds (e - now) <=? 0) eqn:E;
        [apply Z.leb_le in E; lia|].
      set (sec := int_total_seconds (e - now)) in *.
      exists (sec / 86400), (sec mod 86400 / 3600), (sec mod 3600 / 60),
        (sec mod 60).
      split; [reflexivity|].
      pose proof (Z.div_mod sec 86400 ltac:(lia)) as H1.
      pose proof (Z.mod_pos_bound sec 86400 ltac:(lia)) as B1.
      pose proof (Z.div_mod (sec mod 86400) 3600 ltac:(lia)) as H2.
      pose proof (Z.mod_pos_bound (sec mod 86400) 3600 ltac:(lia)) as B2.
      pose proof (Z.div_mod sec 3600 ltac:(lia)) as H3.
      pose proof (Z.mod_pos_bound sec 3600 ltac:(lia)) as B3.
      pose proof (Z.div_mod (sec mod 3600) 60 ltac:(lia)) as H4.
      pose proof (Z.mod_pos_bound (sec mod 3600) 60 ltac:(lia)) as B4.
      pose proof (Z.div_mod sec 60 ltac:(lia)) as H5.
      pose proof (Z.mod_pos_bound sec 60 ltac:(lia)) as B5.
      assert (M1 : (sec mod 86400) mod 3600 = sec mod 3600).
      { symmetry. rewrite H1 at 1. rewrite Z.add_comm.
        replace (86400 * (sec / 86400)) with ((24 * (sec / 86400)) * 3600)
          by lia.
        now rewrite Z.mod_add by lia. }
      assert (M2 : (sec mod 3600) mod 60 = sec mod 60).
      { symmetry. rewrite H3 at 1. rewrite Z.add_comm.
        replace (3600 * (sec / 3600)) with ((60 * (sec / 3600)) * 60) by lia.
        now rewrite Z.mod_add by lia. }
      assert (0 <= sec / 86400) by (apply Z.div_pos; lia).
      assert (0 <= sec mod 86400 / 3600 < 24).
      { split; [apply Z.div_pos; lia|]. apply Z.div_lt_upper_bound; lia. }
      assert (0 <= sec mod 3600 / 60 < 60).
      { split; [apply Z.div_pos; lia|]. apply Z.div_lt_upper_bound; lia. }
      assert (Htot : sec / 86400 * 86400 + sec mod 86400 / 3600 * 3600
                     + sec mod 3600 / 60 * 60 + sec mod 60 = sec) by lia.
      rewrite Htot. repeat split; lia.
Qed.

Lemma status_countdown_exact_witness :
  let cd := status_countdown
              (format_status_text seconds_of_string 2000000 status_storage
                 true) in
  (is_locked status_storage = true -> cd = CountdownLocked)
  /\ (is_locked status_storage = false ->
      get_expiry_us seconds_of_string status_storage = None ->
      cd = CountdownNone)
  /\ (forall e, is_locked status_storage = false ->
      get_expiry_us seconds_of_string status_storage = Some e ->
      Z.abs (e - 2000000) < TOTAL_SECONDS_EXACT ->
      (e - 2000000 < 1000000 -> cd = CountdownExpired)
      /\ (1000000 <= e - 2000000 ->
          exists days hrs mins s,
            cd = CountdownLeft days hrs mins s
            /\ 0 <= days /\ 0 <= hrs < 24 /\ 0 <= mins < 60 /\ 0 <= s < 60
            /\ (days * 86400 + hrs * 3600 + mins * 60 + s) * 1000000
               <= e - 2000000
               < (days * 86400 + hrs * 3600 + mins * 60 + s + 1) * 1000000)).
Proof.
  exact (status_countdown_exact seconds_of_string 2000000 status_storage true).
Defined.

(** Half a second before the expiry the message already says
    "expired", while the check of the handlers, [now >= expiry], does
    not hold yet. *)
Example status_countdown_samples :
  status_countdown
    (format_status_text seconds_of_string 2000000 status_storage true)
  = CountdownLeft 2 23 43 20
  /\ status_countdown
       (format_status_text seconds_of_string 258202000000 status_storage true)
     = CountdownExpired
  /\ get_expiry_us seconds_of_string status_storage = Some 258202500000
  /\ is_locked status_storage = false.
Proof. repeat split; vm_compute; reflexivity. Qed.

(** ** Item ids *)

Lemma take_digits_spec (s : string) :
  s = fst (take_digits s) +:+ snd (take_digits s)
  /\ all_chars is_digit (fst (take_digits s)) = true
  /\ match snd (take_digits s) with
     | EmptyString => True
     | String c _ => is_digit c = false
     end.
Proof.
  induction s as [|c r IH]; [now repeat split|]. cbn [take_digits].
  destruct (is_digit c) eqn:Hc.
  - destruct (take_digits r) as [d rest]. cbn [fst snd] in *.
    destruct IH as (Hr & Hd & Hrest). repeat split.
    + subst r. reflexivity.
    + cbn. now rewrite Hc.
    + exact Hrest.
  - cbn [fst snd]. now repeat split.
Qed.

Lemma prefix_split (p s : string) :
  String.prefix p s = true -> exists post, s = p +:+ post.
Proof.
  revert s. induction p as [|a p IH]; intros s H; [now exists s|].
  destruct s as [|b s]; [discriminate|]. cbn in H.
  destruct (ascii_dec a b) as [->|]; [|discriminate].
  destruct (IH s H) as (post & ->). now exists post.
Qed.

Lemma search_slash_digits_spec (suffix : string) (s id : string) :
  search_slash_digits suffix s = Some id ->
  id <> "" /\ all_chars is_digit id = true
  /\ exists pre post, s = pre +:+ "/" +:+ id +:+ suffix +:+ post.
Proof.
  induction s as [|c r IH]; [discriminate|]. cbn [search_slash_digits].
  assert (Hrec : search_slash_digits suffix r = Some id ->
                 id <> "" /\ all_chars is_digit id = true
                 /\ exists pre post,
                      String c r = pre +:+ "/" +:+ id +:+ suffix +:+ post).
  { intros Hs. destruct (IH Hs) as (Hne & Hd & pre & post & ->).
    repeat split; [exact Hne|exact Hd|]. now exists (String c pre), post. }
  destruct (Ascii.eqb_spec c "/") as [->|Hc]; [|exact Hrec].
  pose proof (take_digits_spec r) as (Hr & Hd & _).
  destruct (take_digits r) as [d rest]. cbn [fst snd] in *.
  destruct (negb (String.eqb d "") && String.prefix suffix rest) eqn:Hm;
    [|exact Hrec].
  apply andb_true_iff in Hm as [Hne Hpre]. intros [= <-].
  apply negb_true_iff, String.eqb_neq in Hne.
  destruct (prefix_split _ _ Hpre) as (post & ->).
  repeat split; [exact Hne|exact Hd|]. exists "", post. subst r.
  reflexivity.
Qed.

Lemma pretty_N_char_digit (x : N) : is_digit (pretty_N_char x) = true.
Proof. unfold pretty_N_char. repeat case_match; reflexivity. Qed.

Lemma pretty_N_go_digits (x : N) :
  forall s, all_chars is_digit s = true ->
            all_chars is_digit (pretty_N_go x s) = true.
Proof.
  induction (N.lt_wf_0 x) as [x _ IH]; intros s Hs.
  destruct (decide (x = 0%N)) as [->|Hx]; [now rewrite pretty_N_go_0|].
  rewrite pretty_N_go_step by lia. apply IH.
  - apply N.div_lt; lia.
  - cbn. now rewrite pretty_N_char_digit.
Qed.

Lemma pretty_N_go_length (x : N) :
  forall s, (String.length s <= String.length (pretty_N_go x s))%nat.
Proof.
  induction (N.lt_wf_0 x) as [x _ IH]; intros s.
  destruct (decide (x = 0%N)) as [->|Hx]; [now rewrite pretty_N_go_0|].
  rewrite pretty_N_go_step by lia.
  etransitivity; [|apply IH, N.div_lt; lia]. cbn. lia.
Qed.

(** [str] of a non-negative integer is a non-empty string of digits. *)
Lemma hash_id_digits (hash : string -> Z) (href : string) :
  hash_id hash href <> "" /\ all_chars is_digit (hash_id hash href) = true.
Proof.
  unfold hash_id. destruct (Z.abs (hash href)) as [|p|p] eqn:E;
    [now split| |lia].
  change (pretty (Z.pos p)) with (pretty (N.pos p)).
  unfold pretty, pretty_N. rewrite decide_False by done. split.
  - rewrite pretty_N_go_step by lia.
    pose proof (pretty_N_go_length (N.pos p `div` 10)
                  (String (pretty_N_char (N.pos p `mod` 10)) "")) as Hl.
    intros Hs. rewrite Hs in Hl. cbn in Hl. lia.
  - now apply pretty_N_go_digits.
Qed.

(** X15: the id of an item is always a non-empty string of decimal
    digits, whether it is cut out of the link or made from the hash of
    the link; when it is cut out, the link holds it between a slash and
    the suffix the pattern asks for (".html" on Drom, "-" on auto.ru). *)
Theorem ad_ids_are_digit_strings (hash : string -> Z) (href : string) :
  (drom_ad_id hash href <> ""
   /\ all_chars is_digit (drom_ad_id hash href) = true
   /\ (search_slash_digits ".html" href = None ->
       drom_ad_id hash href = pretty (Z.abs (hash href)))
   /\ (search_slash_digits ".html" href <> None ->
       exists pre post,
         href = pre +:+ "/" +:+ drom_ad_id hash href +:+ ".html" +:+ post))
  /\ (get_unique_id hash href <> ""
      /\ all_chars is_digit (get_unique_id hash href) = true
      /\ (search_slash_digits "-" href = None ->
          get_unique_id hash href = pretty (Z.abs (hash href)))
      /\ (search_slash_digits "-" href <> None ->
          exists pre post,
            href = pre +:+ "/" +:+ get_unique_id hash href +:+ "-" +:+ post)).
Proof.
  assert (Hgen : forall suffix,
            let id := match search_slash_digits suffix href with
                      | Some id => id
                      | None => hash_id hash href
                      end in
            id <> "" /\ all_chars is_digit id = true
            /\ (search_slash_digits suffix href = None ->
                id = pretty (Z.abs (hash href)))
            /\ (search_slash_digits suffix href <> None ->
                exists pre post, href = pre +:+ "/" +:+ id +:+ suffix +:+ post)).
  { intros suffix. cbn zeta.
    destruct (search_slash_digits suffix href) as [id|] eqn:E.
    - destruct (search_slash_digits_spec suffix href id E) as (Hne & Hd & Hin).
      repeat split; [exact Hne|exact Hd|discriminate|now intros _].
    - destruct (hash_id_digits hash href) as [Hne Hd].
      repeat split; [exact Hne|exact Hd|congruence]. }
  split; [apply (Hgen ".html")|apply (Hgen "-")].
Qed.

Lemma ad_ids_are_digit_strings_witness :
  let href := "https://auto.drom.ru/kirov/toyota/camry/9876-54321.html" in
  let hash := fun _ : string => (-42)%Z in
  (drom_ad_id hash href <> ""
   /\ all_chars is_digit (drom_ad_id hash href) = true
   /\ (search_slash_digits ".html" href = None ->
       drom_ad_id hash href = pretty (Z.abs (hash href)))
   /\ (search_slash_digits ".html" href <> None ->
       exists pre post,
         href = pre +:+ "/" +:+ drom_ad_id hash href +:+ ".html" +:+ post))
  /\ (get_unique_id hash href <> ""
      /\ all_chars is_digit (get_unique_id hash href) = true
      /\ (search_slash_digits "-" href = None ->
          get_unique_id hash href = pretty (Z.abs (hash href)))
      /\ (search_slash_digits "-" href <> None ->
          exists pre post,
            href = pre +:+ "/" +:+ get_unique_id hash href +:+ "-" +:+ post)).
Proof.
  exact (ad_ids_are_digit_strings (fun _ : string => (-42)%Z)
           "https://auto.drom.ru/kirov/toyota/camry/9876-54321.html").
Defined.

Example ad_id_samples :
  drom_ad_id (fun _ => (-42)%Z)
    "https://auto.drom.ru/kirov/toyota/camry/9876-54321.html" = "42"
  /\ get_unique_id (fun _ => (-42)%Z)
       "https://auto.drom.ru/kirov/toyota/camry/9876-54321.html" = "9876"
  /\ drom_ad_id (fun _ => 7)
       "https://auto.drom.ru/kirov/toyota/camry/123456789.html" = "123456789".
Proof. repeat split. Qed.

(** ** The bot token *)

Lemma take_digits_app (d rest : string) :
  all_chars is_digit d = true ->
  match rest with
  | EmptyString => True
  | String c _ => is_digit c = false
  end ->
  take_digits (d +:+ rest) = (d, rest).
Proof.
  intros Hd Hrest. induction d as [|c d IH].
  - change ("" +:+ rest) with rest. destruct rest as [|c r]; [reflexivity|].
    cbn [take_digits]. now rewrite Hrest.
  - cbn in Hd. apply andb_true_iff in Hd as [Hc Hd].
    change (String c d +:+ rest) with (String c (d +:+ rest)).
    cbn [take_digits]. now rewrite Hc, IH.
Qed.

Lemma lstrip_nonspace (c : ascii) (r : string) :
  Py.isspace c = false -> Py.lstrip (String c r) = String c r.
Proof. intros Hc. cbn [Py.lstrip]. now rewrite Hc. Qed.

(** A string without white space is its own [rstrip]. *)
Lemma rstrip_no_space (s : string) :
  all_chars (fun c => negb (Py.isspace c)) s = true -> Py.rstrip s = s.
Proof.
  induction s as [|c r IH]; [reflexivity|]. cbn. intros H.
  apply andb_true_iff in H as [Hc Hr]. rewrite (IH Hr).
  apply negb_true_iff in Hc. destruct r; [now rewrite Hc|reflexivity].
Qed.

Lemma strip_no_space (s : string) :
  all_chars (fun c => negb (Py.isspace c)) s = true -> Py.strip s = s.
Proof.
  intros H. unfold Py.strip. destruct s as [|c r]; [reflexivity|].
  pose proof H as H'. cbn in H'. apply andb_true_iff in H' as [Hc _].
  apply negb_true_iff in Hc. rewrite lstrip_nonspace by exact Hc.
  now apply rstrip_no_space.
Qed.

Lemma all_chars_impl (p q : ascii -> bool) (s : string) :
  (forall c, p c = true -> q c = true) ->
  all_chars p s = true -> all_chars q s = true.
Proof.
  intros Hpq. induction s as [|c r IH]; [reflexivity|]. cbn.
  intros H. apply andb_true_iff in H as [Hc Hr].
  now rewrite (Hpq c Hc), (IH Hr).
Qed.

Lemma all_chars_app (p : ascii -> bool) (a b : string) :
  all_chars p (a +:+ b) = all_chars p a && all_chars p b.
Proof.
  induction a as [|c a IH]; [reflexivity|].
  change (String c a +:+ b) with (String c (a +:+ b)). cbn.
  now rewrite IH, andb_assoc.
Qed.

Lemma digit_not_space (c : ascii) :
  is_digit c = true -> negb (Py.isspace c) = true.
Proof. destruct c as [[] [] [] [] [] [] [] []]; vm_compute; congruence. Qed.

Lemma token_char_not_space (c : ascii) :
  is_token_char c = true -> negb (Py.isspace c) = true.
Proof. destruct c as [[] [] [] [] [] [] [] []]; vm_compute; congruence. Qed.

(** X16: [sanitize_token] accepts exactly the tokens that, once
    stripped, are at least six digits, a colon, and at least thirty
    characters among letters, digits, underscore and hyphen, and it
    returns the stripped token; a missing token is rejected; what it
    returns it accepts again unchanged. *)
Theorem sanitize_token_shape (token : option string) (s : string) :
  (sanitize_token token = Some s <->
   s = Py.strip (default "" token)
   /\ exists d secret,
        s = d +:+ ":" +:+ secret
        /\ all_chars is_digit d = true /\ (6 <= String.length d)%nat
        /\ all_chars is_token_char secret = true
        /\ (30 <= String.length secret)%nat)
  /\ (sanitize_token token = Some s -> sanitize_token (Some s) = Some s)
  /\ sanitize_token None = None.
Proof.
  assert (Hiff : forall t : option string, forall s0,
            sanitize_token t = Some s0 <->
            s0 = Py.strip (default "" t)
            /\ exists d secret,
                 s0 = d +:+ ":" +:+ secret
                 /\ all_chars is_digit d = true /\ (6 <= String.length d)%nat
                 /\ all_chars is_token_char secret = true
                 /\ (30 <= String.length secret)%nat).
  { intros t s0. unfold sanitize_token. set (u := Py.strip (default "" t)).
    pose proof (take_digits_spec u) as (Hu & Hd & Hrest). split.
    - destruct (take_digits u) as [d rest]. cbn [fst snd] in *.
      destruct rest as [|c secret]; [discriminate|].
      destruct (Ascii.eqb c ":" && (6 <=? String.length d)%nat
                && (30 <=? String.length secret)%nat
                && all_chars is_token_char secret) eqn:Hcond; [|discriminate].
      apply andb_true_iff in Hcond as [Hcond Hs].
      apply andb_true_iff in Hcond as [Hcond H30].
      apply andb_true_iff in Hcond as [Hc H6].
      apply Ascii.eqb_eq in Hc. subst c.
      intros [= <-]. split; [reflexivity|]. exists d, secret.
      apply Nat.leb_le in H6, H30. repeat split; auto.
    - intros (-> & d & secret & Hs & Hdd & H6 & Hsec & H30).
      clear Hu Hd Hrest. subst u. rewrite Hs.
      change (d +:+ ":" +:+ secret) with (d +:+ String ":" secret).
      rewrite take_digits_app by (exact Hdd || reflexivity).
      apply Nat.leb_le in H6, H30. rewrite H6, H30, Hsec. reflexivity. }
  split; [apply Hiff|]. split; [|reflexivity].
  intros Hacc. apply Hiff in Hacc as (Hs & d & secret & Hshape & Hd & H6 & Hsec & H30).
  apply Hiff. split; [|now exists d, secret]. cbn [default].
  symmetry. apply strip_no_space. rewrite Hshape, !all_chars_app.
  rewrite (all_chars_impl _ _ d digit_not_space Hd).
  now rewrite (all_chars_impl _ _ secret token_char_not_space Hsec).
Qed.

Lemma sanitize_token_shape_witness :
  let t := "  123456789:ABCDEFGHIJKLMNOPQRSTUVWXYZabcd_-0123  " in
  let s := "123456789:ABCDEFGHIJKLMNOPQRSTUVWXYZabcd_-0123" in
  (sanitize_token (Some t) = Some s <->
   s = Py.strip (default "" (Some t))
   /\ exists d secret,
        s = d +:+ ":" +:+ secret
        /\ all_chars is_digit d = true /\ (6 <= String.length d)%nat
        /\ all_chars is_token_char secret = true
        /\ (30 <= String.length secret)%nat)
  /\ (sanitize_token (Some t) = Some s -> sanitize_token (Some s) = Some s)
  /\ sanitize_token None = None.
Proof.
  exact (sanitize_token_shape
           (Some "  123456789:ABCDEFGHIJKLMNOPQRSTUVWXYZabcd_-0123  ")
           "123456789:ABCDEFGHIJKLMNOPQRSTUVWXYZabcd_-0123").
Defined.

Example sanitize_token_samples :
  sanitize_token (Some "  123456789:ABCDEFGHIJKLMNOPQRSTUVWXYZabcd_-0123  ")
  = Some "123456789:ABCDEFGHIJKLMNOPQRSTUVWXYZabcd_-0123"
  /\ sanitize_token (Some "12345:ABCDEFGHIJKLMNOPQRSTUVWXYZabcd_-0123") = None
  /\ sanitize_token (Some "123456789:ABCDEFGHIJKLMNOPQRSTUVWXYZ abcd_-0123") = None
  /\ sanitize_token (Some "") = None.
Proof. repeat split. Qed.

(** ** Dates of auto.ru *)

Lemma RU_MONTHS_range (word : string) (mon : Z) :
  RU_MONTHS !! word = Some mon -> 1 <= mon <= 12.
Proof.
  intros H. unfold RU_MONTHS in H.
  apply elem_of_list_to_map_2 in H.
  repeat (apply elem_of_cons in H as [H|H];
          [injection H as _ ->; lia|]).
  now apply elem_of_nil in H.
Qed.

Lemma make_date_fields (y m d : Z) (dt : date) :
  make_date y m d = Some dt ->
  dt = mk_date y m d /\ 1 <= y <= 9999 /\ 1 <= m <= 12
  /\ 1 <= d <= days_in_month y m.
Proof.
  unfold make_date.
  destruct (_ && _) eqn:E; [|discriminate]. intros [= <-].
  repeat (apply andb_true_iff in E as [E ?]).
  repeat match goal with
         | H : (_ <=? _) = true |- _ => apply Z.leb_le in H
         end.
  repeat split; lia.
Qed.

Lemma days_in_month_previous_year (y m d : Z) :
  1 <= d <= days_in_month y m ->
  d <= days_in_month (y - 1) m \/ (m = 2 /\ d = 29 /\ is_leap y = true).
Proof.
  unfold days_in_month. destruct (m =? 2) eqn:Hm; [|now left].
  apply Z.eqb_eq in Hm. destruct (is_leap y), (is_leap (y - 1)); intros H;
    try (left; lia).
  destruct (decide (d = 29)); [now right|left; lia].
Qed.

(** X17: a date is read off "day month" only for a month name of the
    table and a day that exists in that month of the current year; the
    date returned keeps that day and month, is the current year's or
    the year before's, and is never after today and less than a year
    back. The call lets a [ValueError] out only for the day this year
    still has ahead but the year before lacked: 29 February, or any
    day ahead in the year 1. *)
Theorem parsed_date_never_in_future (today : date) (d : Z) (word : string) :
  make_date (d_year today) (d_month today) (d_day today) = Some today ->
  (forall dt,
     parse_ru_day_month_to_date today (Some (d, word)) = Returned (Some dt) ->
     date_ltb today dt = false
     /\ date_ltb (mk_date (d_year today - 1) (d_month today) (d_day today)) dt
        = true
     /\ d_day dt = d /\ RU_MONTHS !! word = Some (d_month dt)
     /\ (d_year dt = d_year today \/ d_year dt = d_year today - 1)
     /\ make_date (d_year dt) (d_month dt) (d_day dt) = Some dt)
  /\ (parse_ru_day_month_to_date today (Some (d, word)) = Raised ->
      date_ltb today (mk_date (d_year today) (default 0 (RU_MONTHS !! word)) d)
      = true
      /\ (d_year today = 1
          \/ (RU_MONTHS !! word = Some 2 /\ d = 29
              /\ is_leap (d_year today) = true)))
  /\ (parse_ru_day_month_to_date today (Some (d, word)) = Returned None <->
      RU_MONTHS !! word = None
      \/ exists mon, RU_MONTHS !! word = Some mon
                     /\ make_date (d_year today) mon d = None)
  /\ parse_ru_day_month_to_date today None = Returned None.
Proof.
  intros Htoday.
  apply make_date_fields in Htoday as (_ & Hy & Hm & Hd).
  cbn [parse_ru_day_month_to_date].
  destruct (RU_MONTHS !! word) as [mon|] eqn:Hw.
  2:{ repeat split; try discriminate; auto. }
  pose proof (RU_MONTHS_range word mon Hw) as Hmon.
  destruct (mon =? 0) eqn:H0; [apply Z.eqb_eq in H0; lia|].
  destruct (make_date (d_year today) mon d) as [dt|] eqn:Hdt.
  2:{ repeat split; try discriminate; eauto. }
  pose proof (make_date_fields _ _ _ _ Hdt) as (-> & _ & _ & Hdd).
  destruct (date_ltb today (mk_date (d_year today) mon d)) eqn:Hlt.
  - (* in the future: take the year before *)
    unfold date_ltb in Hlt. cbn [d_year d_month d_day] in Hlt.
    rewrite Z.ltb_irrefl, Z.eqb_refl in Hlt. cbn [orb andb] in Hlt.
    assert (Hahead : d_month today < mon
                     \/ (d_month today = mon /\ d_day today < d)).
    { apply orb_true_iff in Hlt as [H|H]; [left; now apply Z.ltb_lt|].
      apply andb_true_iff in H as [H1 H2]. right.
      split; [now apply Z.eqb_eq|now apply Z.ltb_lt]. }
    destruct (make_date (d_year today - 1) mon d) as [dt'|] eqn:Hdt'.
    + pose proof (make_date_fields _ _ _ _ Hdt') as (-> & Hy' & _ & Hdd').
      split; [|split; [discriminate|split; [|reflexivity]]].
      * intros dt [= <-]. cbn [d_year d_month d_day].
        repeat split; auto.
        -- unfold date_ltb. cbn [d_year d_month d_day].
           replace (d_year today <? d_year today - 1) with false
             by (symmetry; apply Z.ltb_ge; lia).
           replace (d_year today =? d_year today - 1) with false
             by (symmetry; apply Z.eqb_neq; lia).
           reflexivity.
        -- unfold date_ltb. cbn [d_year d_month d_day].
           rewrite Z.ltb_irrefl, Z.eqb_refl. cbn [orb andb].
           destruct Hahead as [H|[H1 H2]].
           ++ apply Z.ltb_lt in H. now rewrite H.
           ++ apply Z.eqb_eq in H1. apply Z.ltb_lt in H2.
              rewrite H1, H2. apply orb_true_r.
      * split; [discriminate|intros [Hc|(mon' & Hm' & Hc)]; congruence].
    + split; [discriminate|]. split; [|split; [|reflexivity]].
      * intros _. cbn [default]. split.
        -- unfold date_ltb. cbn [d_year d_month d_day].
           rewrite Z.ltb_irrefl, Z.eqb_refl. exact Hlt.
        -- unfold make_date in Hdt'.
           destruct (decide (d_year today = 1)) as [?|Hne]; [now left|right].
           destruct (days_in_month_previous_year (d_year today) mon d Hdd)
             as [Hok|(-> & -> & Hleap)]; [|now repeat split].
           exfalso.
           replace ((1 <=? d_year today - 1) && (d_year today - 1 <=? 9999)
                    && (1 <=? mon) && (mon <=? 12) && (1 <=? d)
                    && (d <=? days_in_month (d_year today - 1) mon))
             with true in Hdt'; [discriminate|].
           symmetry. repeat (apply andb_true_iff; split); apply Z.leb_le; lia.
      * split; [discriminate|].
        intros [Hc|(mon' & Hm' & Hc)]; congruence.
  - split; [|split; [discriminate|split; [|reflexivity]]].
    + intros dt [= <-]. cbn [d_year d_month d_day].
      repeat split; auto.
      unfold date_ltb in *. cbn [d_year d_month d_day] in *.
      rewrite Z.ltb_irrefl, Z.eqb_refl in Hlt. cbn [orb andb] in Hlt.
      apply orb_false_iff in Hlt as [H1 H2]. apply Z.ltb_ge in H1.
      replace (d_year today - 1 <? d_year today) with true
        by (symmetry; apply Z.ltb_lt; lia).
      reflexivity.
    + split; [discriminate|].
      intros [Hc|(mon' & Hm' & Hc)]; congruence.
Qed.

Lemma parsed_date_never_in_future_witness :
  make_date 2024 2 10 = Some (mk_date 2024 2 10)
  /\ parse_ru_day_month_to_date (mk_date 2024 2 10) (Some (25, "декабря"))
     = Returned (Some (mk_date 2023 12 25))
  /\ date_ltb (mk_date 2024 2 10) (mk_date 2023 12 25) = false
  /\ date_ltb (mk_date 2023 2 10) (mk_date 2023 12 25) = true.
Proof.
  assert (Htoday : make_date 2024 2 10 = Some (mk_date 2024 2 10))
    by reflexivity.
  split; [exact Htoday|]. split; [reflexivity|].
  destruct (parsed_date_never_in_future (mk_date 2024 2 10) 25 "декабря"
              Htoday) as (Hret & _).
  destruct (Hret (mk_date 2023 12 25) eq_refl) as (Hnot_after & Hrecent & _).
  split; [exact Hnot_after|exact Hrecent].
Defined.

Example parse_ru_samples :
  parse_ru_day_month_to_date (mk_date 2024 2 10) (Some (25, "декабря"))
  = Returned (Some (mk_date 2023 12 25))
  /\ parse_ru_day_month_to_date (mk_date 2024 2 10) (Some (10, "февраля"))
     = Returned (Some (mk_date 2024 2 10))
  /\ parse_ru_day_month_to_date (mk_date 2024 2 10) (Some (29, "февраля"))
     = Raised
  /\ parse_ru_day_month_to_date (mk_date 2023 2 10) (Some (29, "февраля"))
     = Returned None
  /\ parse_ru_day_month_to_date (mk_date 2024 2 10) (Some (31, "июня"))
     = Returned None
  /\ parse_ru_day_month_to_date (mk_date 2024 2 10) (Some (5, "june"))
     = Returned None.
Proof. repeat split. Qed.
